(** * xvm-cni: the IPAM allocator and the ADD/DEL orchestration

    A shallow embedding of [pkg/ipam/ipam.go], [pkg/vxlan/vxlan.go] and
    [main.go] of the xvm-cni plugin, together with the parts of Go's
    standard [net] package that the allocator's behaviour depends on
    (address equality, subnet membership, CIDR masks and the textual form
    of addresses).

    Conventions.
    - A Go [[]byte] is a [list Z] whose elements lie in [0, 256); byte
      arithmetic writes its wrap-around out ([mod 256]).
    - A Go [string] is a Rocq [string]: a sequence of 8-bit characters.
    - A Go [nil] slice returned as "no value" is [None].
    - [map[string]net.IP] is a [gmap string (list Z)].
    - A function that returns [(T, error)] returns an [outcome T];
      [Diverges] stands for a call that never returns. *)

From Stdlib Require Import ZArith Lia List Ascii String.
From stdpp Require Import gmap strings list fin_maps pretty.

Local Open Scope Z_scope.

(** ** Results of fallible calls *)

Inductive error : Set :=
  | ErrInvalidSubnet        (* "invalid subnet: ..." *)
  | ErrInvalidGateway       (* "invalid gateway IP: ..." *)
  | ErrCreateDataDir        (* "failed to create data directory: ..." *)
  | ErrReadAllocations      (* "failed to read allocations file: ..." *)
  | ErrParseAllocations     (* "failed to parse allocations file: ..." *)
  | ErrInvalidAllocationIP  (* "invalid IP address in allocations: ..." *)
  | ErrNoAvailableIP        (* "no available IP addresses in subnet" *)
  | ErrWriteAllocations     (* "failed to write allocations file: ..." *)
  | ErrParseNetConf         (* "failed to parse network configuration: ..." *)
  | ErrHostInterfaceMissing (* "hostInterface must be specified" *)
  | ErrSubnetMissing        (* "subnet must be specified" *)
  | ErrGatewayMissing       (* "gateway must be specified" *)
  | ErrLinkNotFound         (* ip.ErrLinkNotFound *)
  | ErrExternal (what : string). (* an error surfaced by the kernel or a library *)

Inductive outcome (A : Type) : Type :=
  | Ok (a : A)
  | Err (e : error)
  | Diverges.
Arguments Ok {A} a.
Arguments Err {A} e.
Arguments Diverges {A}.

Definition is_Ok {A} (o : outcome A) : bool :=
  match o with Ok _ => true | _ => false end.

Definition is_Err {A} (o : outcome A) : bool :=
  match o with Err _ => true | _ => false end.

(** ** Go's [net] package: addresses, masks, networks *)

Module net.

(** [type IP []byte], [type IPMask []byte], [type IPNet struct]. *)
Definition IP := list Z.
Definition IPMask := list Z.
Record IPNet := mkIPNet { IPNet_IP : IP; IPNet_Mask : IPMask }.

Definition IPv4len : nat := 4.
Definition IPv6len : nat := 16.

Definition v4InV6Prefix : list Z := [0; 0; 0; 0; 0; 0; 0; 0; 0; 0; 255; 255].

Definition is_Some_b {A} (o : option A) : bool :=
  match o with Some _ => true | None => false end.

Definition bytesEqual (a b : list Z) : bool := bool_decide (a = b).

Definition isZeros (p : list Z) : bool := forallb (Z.eqb 0) p.
Definition allFF (p : list Z) : bool := forallb (Z.eqb 255) p.

(** [func (ip IP) To4() IP]: the 4-byte form of an IPv4 address, [nil]
    when [ip] is not an IPv4 address. *)
Definition To4 (ip : IP) : option IP :=
  if (length ip =? IPv4len)%nat then Some ip
  else if (length ip =? IPv6len)%nat
          && isZeros (take 10 ip)
          && (nth 10 ip 0 =? 255) && (nth 11 ip 0 =? 255)
       then Some (drop 12 ip)
       else None.

(** [func (ip IP) Equal(x IP) bool]: an IPv4 address and the same
    address in IPv6 form are equal. *)
Definition Equal (ip x : IP) : bool :=
  if (length ip =? length x)%nat then bytesEqual ip x
  else if (length ip =? IPv4len)%nat && (length x =? IPv6len)%nat
       then bytesEqual (take 12 x) v4InV6Prefix && bytesEqual ip (drop 12 x)
  else if (length ip =? IPv6len)%nat && (length x =? IPv4len)%nat
       then bytesEqual (take 12 ip) v4InV6Prefix && bytesEqual (drop 12 ip) x
  else false.

(** [func CIDRMask(ones, bits int) IPMask]. *)
Fixpoint CIDRMask_loop (l : nat) (n : Z) : list Z :=
  match l with
  | O => []
  | S l' =>
      if 8 <=? n then 255 :: CIDRMask_loop l' (n - 8)
      else Z.lxor 255 (Z.shiftr 255 n) :: CIDRMask_loop l' 0
  end.

Definition CIDRMask (ones bits : Z) : option IPMask :=
  if negb (bits =? 32) && negb (bits =? 128) then None
  else if (ones <? 0) || (bits <? ones) then None
  else Some (CIDRMask_loop (Z.to_nat (bits / 8)) ones).

(** [func (ip IP) Mask(mask IPMask) IP]. *)
Definition Mask (ip : IP) (mask : IPMask) : option IP :=
  let mask :=
    if (length mask =? IPv6len)%nat && (length ip =? IPv4len)%nat
       && allFF (take 12 mask)
    then drop 12 mask else mask in
  let ip :=
    if (length mask =? IPv4len)%nat && (length ip =? IPv6len)%nat
       && bytesEqual (take 12 ip) v4InV6Prefix
    then drop 12 ip else ip in
  if (length ip =? length mask)%nat
  then Some (zip_with Z.land ip mask)
  else None.

(** [func networkNumberAndMask(n *IPNet) (ip IP, m IPMask)]; the pair of
    [nil]s is the pair of empty slices here, which is all its one caller
    looks at (their length). *)
Definition networkNumberAndMask (n : IPNet) : IP * IPMask :=
  let oip :=
    match To4 (IPNet_IP n) with
    | Some ip => Some ip
    | None => if (length (IPNet_IP n) =? IPv6len)%nat
              then Some (IPNet_IP n) else None
    end in
  match oip with
  | None => ([], [])
  | Some ip =>
      let m := IPNet_Mask n in
      if (length m =? IPv4len)%nat then
        if (length ip =? IPv4len)%nat then (ip, m) else ([], [])
      else if (length m =? IPv6len)%nat then
        if (length ip =? IPv4len)%nat then (ip, drop 12 m) else (ip, m)
      else ([], [])
  end.

Fixpoint Contains_loop (nn m ip : list Z) : bool :=
  match nn, m, ip with
  | n0 :: nn', m0 :: m', i0 :: ip' =>
      if Z.land n0 m0 =? Z.land i0 m0
      then Contains_loop nn' m' ip' else false
  | _, _, _ => true
  end.

(** [func (n *IPNet) Contains(ip IP) bool]. *)
Definition Contains (n : IPNet) (ip : IP) : bool :=
  let '(nn, m) := networkNumberAndMask n in
  let ip := match To4 ip with Some x => x | None => ip end in
  if negb (length ip =? length nn)%nat then false
  else Contains_loop nn m ip.

(** *** Textual form of addresses

    [net.ParseIP], [net.ParseCIDR] and [IP.String] go through
    [net/netip]: [ParseAddr], [parseIPv4Fields], [parseIPv6],
    [Addr.appendTo4], [Addr.appendTo6]. *)

Definition byte_of (c : ascii) : Z := Z.of_N (N_of_ascii c).
Definition char_of (b : Z) : ascii := ascii_of_N (Z.to_N b).

Definition is_digit (c : ascii) : bool :=
  (48 <=? byte_of c) && (byte_of c <=? 57).

Definition is_char (c d : ascii) : bool := byte_of c =? byte_of d.

Definition str_empty (s : string) : bool :=
  match s with EmptyString => true | String _ _ => false end.

(** [netip.Addr]: a 4-byte or a 16-byte address, the latter with its
    zone. *)
Inductive Addr : Type :=
  | Addr4 (b : list Z)
  | Addr6 (b : list Z) (zone : string).

Definition BitLen (a : Addr) : Z :=
  match a with Addr4 _ => 32 | Addr6 _ _ => 128 end.

Definition Zone (a : Addr) : string :=
  match a with Addr4 _ => EmptyString | Addr6 _ z => z end.

Definition As16 (a : Addr) : list Z :=
  match a with Addr4 b => v4InV6Prefix ++ b | Addr6 b _ => b end.

(** [func parseIPv4Fields(in string, off, end int, fields []uint8) error],
    on the substring [s]; [first] is [i == 0], [prev_dot] is
    [s[i-1] == '.'], and [pos] is the length of [fields]. *)
Fixpoint parseIPv4Fields_loop (s : string) (first prev_dot : bool)
    (val : Z) (digLen : nat) (fields : list Z) : option (list Z) :=
  match s with
  | EmptyString =>
      if (length fields <? 3)%nat then None
      else Some (fields ++ [val])
  | String c rest =>
      if is_digit c then
        if (digLen =? 1)%nat && (val =? 0) then None
        else
          let val := val * 10 + byte_of c - 48 in
          if 255 <? val then None
          else parseIPv4Fields_loop rest false false val (S digLen) fields
      else if is_char c "." then
        if first || str_empty rest || prev_dot then None
        else if (length fields =? 3)%nat then None
        else parseIPv4Fields_loop rest false true 0 0%nat (fields ++ [val])
      else None
  end.

Definition parseIPv4Fields (s : string) : option (list Z) :=
  parseIPv4Fields_loop s true false 0 0%nat [].

Definition parseIPv4 (s : string) : option Addr :=
  match parseIPv4Fields s with
  | Some fields => Some (Addr4 fields)
  | None => None
  end.

Definition hexval (c : ascii) : option Z :=
  let b := byte_of c in
  if (48 <=? b) && (b <=? 57) then Some (b - 48)
  else if (97 <=? b) && (b <=? 102) then Some (b - 97 + 10)
  else if (65 <=? b) && (b <=? 70) then Some (b - 65 + 10)
  else None.

(** The inner loop of [parseIPv6] that reads one group of hex digits:
    the number of digits read, their value and the rest of the string;
    [None] on a fifth digit or a value above [0xffff]. *)
Fixpoint scanHex (s : string) (off : nat) (acc : Z)
    : option (nat * Z * string) :=
  match s with
  | EmptyString => Some (off, acc, s)
  | String c rest =>
      match hexval c with
      | None => Some (off, acc, s)
      | Some v =>
          let acc := Z.shiftl acc 4 + v in
          if (3 <? off)%nat then None
          else if 65535 <? acc then None
          else scanHex rest (S off) acc
      end
  end.

(** The main loop of [parseIPv6]; [ip] holds the [i] bytes written so
    far. The result is the state at the loop's exit. *)
Fixpoint parseIPv6_loop (fuel : nat) (s : string) (ip : list Z)
    (ellipsis : option nat) : option (list Z * option nat * string) :=
  match fuel with
  | O => Some (ip, ellipsis, s)
  | S fuel' =>
    if (16 <=? length ip)%nat then Some (ip, ellipsis, s) else
    match scanHex s 0 0 with
    | None => None
    | Some (off, acc, s') =>
      if (off =? 0)%nat then None
      else
        match s' with
        | EmptyString =>
            Some (ip ++ [Z.shiftr acc 8; acc mod 256], ellipsis, EmptyString)
        | String c s'' =>
            if is_char c "." then
              if negb (is_Some_b ellipsis) && negb (length ip =? 12)%nat
              then None
              else if (16 <? length ip + 4)%nat then None
              else
                match parseIPv4Fields s with
                | None => None
                | Some f => Some (ip ++ f, ellipsis, EmptyString)
                end
            else
              let ip := ip ++ [Z.shiftr acc 8; acc mod 256] in
              if negb (is_char c ":") then None
              else
                match s'' with
                | EmptyString => None
                | String c2 s3 =>
                    if is_char c2 ":" then
                      if is_Some_b ellipsis then None
                      else if str_empty s3
                           then Some (ip, Some (length ip), EmptyString)
                           else parseIPv6_loop fuel' s3 ip (Some (length ip))
                    else parseIPv6_loop fuel' s'' ip ellipsis
                end
        end
    end
  end.

Fixpoint split_zone (s : string) : string * option string :=
  match s with
  | EmptyString => (EmptyString, None)
  | String c rest =>
      if is_char c "%" then (EmptyString, Some rest)
      else let '(a, z) := split_zone rest in (String c a, z)
  end.

(** [func parseIPv6(in string) (Addr, error)]. *)
Definition parseIPv6 (s_in : string) : option Addr :=
  let '(s, oz) := split_zone s_in in
  match oz with
  | Some EmptyString => None
  | _ =>
    let zone := match oz with Some z => z | None => EmptyString end in
    let start :=
      match s with
      | String c1 (String c2 s') =>
          if is_char c1 ":" && is_char c2 ":" then (s', Some 0%nat)
          else (s, None)
      | _ => (s, None)
      end in
    let '(s, ellipsis) := start in
    if is_Some_b ellipsis && str_empty s
    then Some (Addr6 (replicate 16 0) zone)
    else
      match parseIPv6_loop 9 s [] ellipsis with
      | None => None
      | Some (ip, ellipsis, s) =>
          if negb (str_empty s) then None
          else if (length ip <? 16)%nat then
            match ellipsis with
            | None => None
            | Some e =>
                Some (Addr6 (take e ip ++ replicate (16 - length ip) 0
                               ++ drop e ip) zone)
            end
          else if is_Some_b ellipsis then None
          else Some (Addr6 ip zone)
      end
  end.

(** [func ParseAddr(s string) (Addr, error)]: the first of ['.'], [':']
    and ['%'] in [s] selects the parser. *)
Fixpoint ParseAddr_scan (whole s : string) : option Addr :=
  match s with
  | EmptyString => None
  | String c rest =>
      if is_char c "." then parseIPv4 whole
      else if is_char c ":" then parseIPv6 whole
      else if is_char c "%" then None
      else ParseAddr_scan whole rest
  end.

Definition ParseAddr (s : string) : option Addr := ParseAddr_scan s s.

(** [func ParseIP(s string) IP]: always the 16-byte form. *)
Definition ParseIP (s : string) : option IP :=
  match ParseAddr s with
  | Some a => if str_empty (Zone a) then Some (As16 a) else None
  | None => None
  end.

(** [func dtoi(s string) (n int, i int, ok bool)]. *)
Fixpoint dtoi_loop (s : string) (n : Z) (i : nat) : Z * nat * bool * string :=
  match s with
  | EmptyString => (n, i, true, s)
  | String c rest =>
      if is_digit c then
        let n := n * 10 + (byte_of c - 48) in
        if 16777215 <=? n then (16777215, i, false, s)
        else dtoi_loop rest n (S i)
      else (n, i, true, s)
  end.

Definition dtoi (s : string) : Z * nat * bool :=
  let '(n, i, ok, _) := dtoi_loop s 0 0%nat in
  if negb ok then (n, i, false)
  else if (i =? 0)%nat then (0, 0%nat, false)
  else (n, i, true).

Fixpoint split_slash (s : string) : option (string * string) :=
  match s with
  | EmptyString => None
  | String c rest =>
      if is_char c "/" then Some (EmptyString, rest)
      else match split_slash rest with
           | Some (a, m) => Some (String c a, m)
           | None => None
           end
  end.

(** [func ParseCIDR(s string) (IP, *IPNet, error)]. *)
Definition ParseCIDR (s : string) : option (IP * IPNet) :=
  match split_slash s with
  | None => None
  | Some (addr, mask) =>
      match ParseAddr addr with
      | None => None
      | Some ipAddr =>
          if negb (str_empty (Zone ipAddr)) then None
          else
            let '(n, i, ok) := dtoi mask in
            if negb ok || negb (i =? String.length mask)%nat
               || (n <? 0) || (BitLen ipAddr <? n) then None
            else
              match CIDRMask n (BitLen ipAddr) with
              | None => None
              | Some m =>
                  match Mask (As16 ipAddr) m with
                  | None => None
                  | Some masked => Some (As16 ipAddr, mkIPNet masked m)
                  end
              end
      end
  end.

(** [strconv.AppendUint(ret, uint64(b), 10)] for a byte. *)
Definition digit_char (d : Z) : ascii := char_of (48 + d).

Definition appendDecimal (b : Z) : string :=
  if 100 <=? b then
    String (digit_char (b / 100))
      (String (digit_char (b / 10 mod 10))
         (String (digit_char (b mod 10)) EmptyString))
  else if 10 <=? b then
    String (digit_char (b / 10)) (String (digit_char (b mod 10)) EmptyString)
  else String (digit_char b) EmptyString.

(** [func (ip Addr) appendTo4(ret []byte) []byte]. *)
Definition string4 (b : list Z) : string :=
  (appendDecimal (nth 0 b 0) ++ "." ++ appendDecimal (nth 1 b 0) ++ "."
   ++ appendDecimal (nth 2 b 0) ++ "." ++ appendDecimal (nth 3 b 0))%string.

Definition hexdigit (d : Z) : ascii :=
  if d <? 10 then char_of (48 + d) else char_of (97 + d - 10).

(** [func appendHex(b []byte, x uint16) []byte]: no leading zeros. *)
Definition appendHex (x : Z) : string :=
  let d3 := if (4096 <=? x)%Z
            then String (hexdigit (Z.shiftr x 12)) EmptyString
            else EmptyString in
  let d2 := if (256 <=? x)%Z
            then String (hexdigit (Z.land (Z.shiftr x 8) 15)) EmptyString
            else EmptyString in
  let d1 := if (16 <=? x)%Z
            then String (hexdigit (Z.land (Z.shiftr x 4) 15)) EmptyString
            else EmptyString in
  (d3 ++ d2 ++ d1 ++ String (hexdigit (Z.land x 15)) EmptyString)%string.

(** [func (ip Addr) v6u16(i uint8) uint16]. *)
Definition v6u16 (b : list Z) (i : nat) : Z :=
  nth (2 * i) b 0 * 256 + nth (2 * i + 1) b 0.

(** The first loop of [appendTo6]: the longest run of two or more zero
    groups, the leftmost among the longest; [(255, 255)] when there is
    none. *)
Fixpoint zeroRun_end (b : list Z) (fuel j : nat) : nat :=
  match fuel with
  | O => j
  | S fuel' =>
      if (j <? 8)%nat && (v6u16 b j =? 0) then zeroRun_end b fuel' (S j)
      else j
  end.

Fixpoint zeroRun_loop (b : list Z) (fuel i : nat) (zeroStart zeroEnd : nat)
    : nat * nat :=
  match fuel with
  | O => (zeroStart, zeroEnd)
  | S fuel' =>
      if negb (i <? 8)%nat then (zeroStart, zeroEnd)
      else
        let j := zeroRun_end b 8 i in
        let l := (j - i)%nat in
        if (2 <=? l)%nat && (zeroEnd - zeroStart <? l)%nat
        then zeroRun_loop b fuel' (S i) i j
        else zeroRun_loop b fuel' (S i) zeroStart zeroEnd
  end.

(** The second loop of [appendTo6]. *)
Fixpoint appendTo6_loop (b : list Z) (fuel i : nat) (zeroStart zeroEnd : nat)
    : string :=
  match fuel with
  | O => EmptyString
  | S fuel' =>
      if negb (i <? 8)%nat then EmptyString
      else if (i =? zeroStart)%nat then
        if (8 <=? zeroEnd)%nat then "::"%string
        else ("::" ++ appendHex (v6u16 b zeroEnd)
              ++ appendTo6_loop b fuel' (S zeroEnd) zeroStart zeroEnd)%string
      else if (0 <? i)%nat then
        (":" ++ appendHex (v6u16 b i)
         ++ appendTo6_loop b fuel' (S i) zeroStart zeroEnd)%string
      else
        (appendHex (v6u16 b i)
         ++ appendTo6_loop b fuel' (S i) zeroStart zeroEnd)%string
  end.

Definition string6 (b : list Z) : string :=
  let '(zeroStart, zeroEnd) := zeroRun_loop b 8 0 255 255 in
  appendTo6_loop b 8 0 zeroStart zeroEnd.

(** [func hexString(b []byte) string]. *)
Fixpoint hexString (b : list Z) : string :=
  match b with
  | [] => EmptyString
  | x :: b' =>
      String (hexdigit (Z.shiftr x 4)) (String (hexdigit (Z.land x 15)) (hexString b'))
  end.

(** [func (ip IP) String() string]. The 16-byte branch is reached only
    by addresses that are not IPv4-mapped, which [Addr.String] prints
    with [appendTo6]. *)
Definition String (ip : IP) : string :=
  if (length ip =? 0)%nat then "<nil>"%string
  else if negb (length ip =? IPv4len)%nat && negb (length ip =? IPv6len)%nat
  then ("?" ++ hexString ip)%string
  else
    match To4 ip with
    | Some p4 => string4 p4
    | None => string6 ip
    end.

End net.

(** ** The file system the allocator persists to

    [encoding/json] is not modelled byte by byte: a record file is either
    a document that [json.Unmarshal] decodes into a [map[string]string]
    (the decoded map stands for the file), or a document it rejects.
    [json.Marshal] of a [map[string]string] cannot fail, so
    [saveAllocations] fails only in [os.WriteFile]. Failures of the
    operating system are switches of the file system state. *)

Inductive FileData : Type :=
  | Malformed
  | JSONObject (m : gmap string string).

Record FS := mkFS {
  fs_files : gmap string FileData;
  fs_mkdir_fails : bool;   (* os.MkdirAll returns an error *)
  fs_read_fails : bool;    (* os.ReadFile fails other than with ENOENT *)
  fs_write_fails : bool    (* os.WriteFile returns an error *)
}.

Inductive ReadResult : Type :=
  | ReadData (d : FileData)
  | ReadNotExist
  | ReadError.

Definition os_ReadFile (fs : FS) (file : string) : ReadResult :=
  if fs_read_fails fs then ReadError
  else match fs_files fs !! file with
       | Some d => ReadData d
       | None => ReadNotExist
       end.

Definition os_WriteFile (fs : FS) (file : string) (d : FileData) : option FS :=
  if fs_write_fails fs then None
  else Some (mkFS (<[file := d]> (fs_files fs))
                  (fs_mkdir_fails fs) (fs_read_fails fs) (fs_write_fails fs)).

Definition os_MkdirAll (fs : FS) (dir : string) : bool :=
  negb (fs_mkdir_fails fs).

(** [filepath.Join(dir, name)], without the path cleaning. *)
Definition filepath_Join (dir name : string) : string :=
  (dir ++ "/" ++ name)%string.

(** ** [pkg/ipam/ipam.go] *)

Module ipam.

(** [type IPAM struct]; the mutex guards concurrent calls on one
    instance and has no counterpart in this sequential model. *)
Record IPAM := mkIPAM {
  Subnet : net.IPNet;
  Gateway : net.IP;
  Allocations : gmap string net.IP;
  dataDir : string
}.

Record Config := mkConfig {
  cfg_Subnet : string;
  cfg_Gateway : string;
  cfg_DataDir : string
}.

Definition with_Allocations (i : IPAM) (a : gmap string net.IP) : IPAM :=
  mkIPAM (Subnet i) (Gateway i) a (dataDir i).

Definition allocationsFile (i : IPAM) : string :=
  filepath_Join (dataDir i) "allocations.json".

(** [func inc(ip net.IP)]: from the last byte towards the first, add one
    and stop at the first byte that does not wrap to zero. *)
Fixpoint inc_from_last (r : list Z) : list Z :=
  match r with
  | [] => []
  | b :: r' =>
      let b' := (b + 1) mod 256 in
      if 0 <? b' then b' :: r' else b' :: inc_from_last r'
  end.

Definition inc (ip : net.IP) : net.IP := rev (inc_from_last (rev ip)).

(** The inner [for _, allocatedIP := range i.Allocations] loop. *)
Definition allocated (i : IPAM) (ip : net.IP) : bool :=
  existsb (fun kv => net.Equal ip kv.2) (map_to_list (Allocations i)).

Definition skipGateway (i : IPAM) (ip : net.IP) : net.IP :=
  if net.Equal ip (Gateway i) then inc ip else ip.

(** The [for { ... }] loop of [findAvailableIP]. Every round but the
    last finds [ip] among the allocations; [Diverges] is the loop that
    never leaves. *)
Fixpoint findAvailableIP_loop (fuel : nat) (i : IPAM) (ip : net.IP)
    : outcome net.IP :=
  match fuel with
  | O => Diverges
  | S fuel' =>
      if negb (net.Contains (Subnet i) ip) then Err ErrNoAvailableIP
      else if negb (allocated i ip) then Ok ip
      else findAvailableIP_loop fuel' i (skipGateway i (inc ip))
  end.

(** [func (i *IPAM) findAvailableIP() (net.IP, error)]. A round that
    does not return has found its address in the map, so a scan over
    pairwise different addresses returns within [size + 1] rounds. *)
Definition findAvailableIP (i : IPAM) : outcome net.IP :=
  let ip := net.IPNet_IP (Subnet i) in
  let ip := inc ip in
  let ip := skipGateway i ip in
  findAvailableIP_loop (S (size (Allocations i))) i ip.

(** [func (i *IPAM) saveAllocations() error]. *)
Definition saveAllocations (i : IPAM) (fs : FS) : outcome unit * FS :=
  let allocations : gmap string string := net.String <$> Allocations i in
  match os_WriteFile fs (allocationsFile i) (JSONObject allocations) with
  | None => (Err ErrWriteAllocations, fs)
  | Some fs' => (Ok tt, fs')
  end.

(** [func (i *IPAM) loadAllocations() error]. When an address does not
    parse, the entries inserted before it stay in the map; [New], the
    only caller, drops the instance then. *)
Definition loadAllocations (i : IPAM) (fs : FS) : outcome IPAM :=
  match os_ReadFile fs (allocationsFile i) with
  | ReadNotExist => Ok i
  | ReadError => Err ErrReadAllocations
  | ReadData Malformed => Err ErrParseAllocations
  | ReadData (JSONObject allocations) =>
      map_fold
        (fun id ipStr (acc : outcome IPAM) =>
           match acc with
           | Ok i =>
               match net.ParseIP ipStr with
               | None => Err ErrInvalidAllocationIP
               | Some ip => Ok (with_Allocations i (<[id := ip]> (Allocations i)))
               end
           | _ => acc
           end)
        (Ok i) allocations
  end.

(** [func New(config *Config)], returning the instance or the error. *)
Definition New (config : Config) (fs : FS) : outcome IPAM :=
  match net.ParseCIDR (cfg_Subnet config) with
  | None => Err ErrInvalidSubnet
  | Some (_, subnet) =>
      match net.ParseIP (cfg_Gateway config) with
      | None => Err ErrInvalidGateway
      | Some gateway =>
          let dataDir :=
            if net.str_empty (cfg_DataDir config)
            then "/var/lib/cni/xvm-cni"%string
            else cfg_DataDir config in
          if negb (os_MkdirAll fs dataDir) then Err ErrCreateDataDir
          else loadAllocations (mkIPAM subnet gateway ∅ dataDir) fs
      end
  end.

(** [func (i *IPAM) Allocate(containerID string) (net.IP, error)]: the
    result, the instance and the file system after the call. *)
Definition Allocate (containerID : string) (i : IPAM) (fs : FS)
    : outcome net.IP * IPAM * FS :=
  match Allocations i !! containerID with
  | Some ip => (Ok ip, i, fs)
  | None =>
      match findAvailableIP i with
      | Ok ip =>
          let i := with_Allocations i (<[containerID := ip]> (Allocations i)) in
          match saveAllocations i fs with
          | (Ok _, fs) => (Ok ip, i, fs)
          | (Err e, fs) => (Err e, i, fs)
          | (Diverges, fs) => (Diverges, i, fs)
          end
      | Err e => (Err e, i, fs)
      | Diverges => (Diverges, i, fs)
      end
  end.

(** [func (i *IPAM) Release(containerID string) error]. *)
Definition Release (containerID : string) (i : IPAM) (fs : FS)
    : outcome unit * IPAM * FS :=
  match Allocations i !! containerID with
  | None => (Ok tt, i, fs)
  | Some _ =>
      let i := with_Allocations i (delete containerID (Allocations i)) in
      match saveAllocations i fs with
      | (Ok _, fs) => (Ok tt, i, fs)
      | (o, fs) => (o, i, fs)
      end
  end.

End ipam.

(** ** The host the plugin runs on

    The kernel and the CNI libraries are collaborators: each call into
    them is recorded in a trace, fails when the host says so, and
    otherwise acts on the table of links (keyed by network namespace, the
    host's being the empty path). Calls into the plugin's own packages
    are recorded too, ahead of what they do. *)

Record VxlanConfig := mkVxlanConfig {
  vc_HostInterface : string;
  vc_VxlanID : Z;
  vc_MTU : Z
}.

Record Result := mkResult {
  res_CNIVersion : string;
  res_Interfaces : list (string * string);   (* name, sandbox *)
  res_Address : net.IP * net.IPMask;
  res_Gateway : option net.IP
}.

Inductive Op : Type :=
  | OpSysctl (name value : string)
  | OpLinkByName (ns name : string)
  | OpAddrList (ns link : string)
  | OpLinkDel (ns link : string)
  | OpLinkAddVxlan (name : string) (vxlanId mtu : Z) (vtepDev : string) (port : Z)
  | OpLinkSetUp (ns link : string)
  | OpAddrAdd (ns link : string) (ip : net.IP) (mask : net.IPMask)
  | OpRouteAdd (ns link : string) (gw : net.IP)
  | OpLinkSetMaster (link master : string)
  | OpGetNS (path : string)
  | OpCloseNS (path : string)
  | OpSetupVeth (ifName : string) (mtu : Z) (netns : string)
  | OpWithNetNSPath (path : string)
  | OpDelLinkByNameAddr (ns ifName : string)
  | OpPrintResult (r : Result)
  | CallSetupVxlan (c : VxlanConfig)
  | CallConfigureVxlanNetwork (link : string) (subnet : net.IPNet)
  | CallCleanupVxlan (vxlanID : Z)
  | CallNew (c : ipam.Config)
  | CallAllocate (containerID : string)
  | CallRelease (containerID : string).

Record World := mkWorld {
  w_fs : FS;
  w_links : gset (string * string);  (* namespace path, link name *)
  w_ns : string;                     (* the namespace the thread is in *)
  w_hostVeth : string;               (* the name the next host-side veth gets *)
  w_fails : Op -> bool;              (* the calls the host lets fail *)
  w_trace : list Op                  (* the calls made, oldest first *)
}.

Definition M (A : Type) : Type := World -> outcome A * World.

Definition ret {A} (a : A) : M A := fun w => (Ok a, w).
Definition fail {A} (e : error) : M A := fun w => (Err e, w).

Definition bind {A B} (m : M A) (k : A -> M B) : M B :=
  fun w =>
    match m w with
    | (Ok a, w') => k a w'
    | (Err e, w') => (Err e, w')
    | (Diverges, w') => (Diverges, w')
    end.

Notation "x <- m ;; k" := (bind m (fun x => k))
  (at level 100, m at next level, right associativity).
Notation "m ;;; k" := (bind m (fun _ => k))
  (at level 100, right associativity).

Definition log (op : Op) (w : World) : World :=
  mkWorld (w_fs w) (w_links w) (w_ns w) (w_hostVeth w) (w_fails w)
          (w_trace w ++ [op]).

Definition set_links (l : gset (string * string)) (w : World) : World :=
  mkWorld (w_fs w) l (w_ns w) (w_hostVeth w) (w_fails w) (w_trace w).

Definition set_ns (ns : string) (w : World) : World :=
  mkWorld (w_fs w) (w_links w) ns (w_hostVeth w) (w_fails w) (w_trace w).

Definition set_fs (fs : FS) (w : World) : World :=
  mkWorld fs (w_links w) (w_ns w) (w_hostVeth w) (w_fails w) (w_trace w).

(** A call that the host may fail and that otherwise transforms the
    world. *)
Definition call (op : Op) (what : string) (eff : World -> World) : M unit :=
  fun w =>
    let w := log op w in
    if w_fails w op then (Err (ErrExternal what), w) else (Ok tt, eff w).

(** A call into one of the plugin's own packages: recorded, then run. *)
Definition logged {A} (op : Op) (body : M A) : M A :=
  fun w => body (log op w).

(** [defer f()]: [f] runs when the body returns, whatever it returns. *)
Definition defer {A} (cleanup : World -> World) (body : M A) : M A :=
  fun w => let '(r, w') := body w in (r, cleanup w').

(** [netlink.LinkByName]: the link's name when it exists in the current
    namespace. *)
Definition LinkByName (name : string) : M string :=
  fun w =>
    let op := OpLinkByName (w_ns w) name in
    let w := log op w in
    if w_fails w op then (Err (ErrExternal "LinkByName"), w)
    else if bool_decide ((w_ns w, name) ∈ w_links w) then (Ok name, w)
    else (Err ErrLinkNotFound, w).

Definition LinkDel (name : string) : M unit :=
  fun w => call (OpLinkDel (w_ns w) name) "LinkDel"
             (fun w => set_links (w_links w ∖ {[ (w_ns w, name) ]}) w) w.

Definition LinkSetUp (name : string) : M unit :=
  fun w => call (OpLinkSetUp (w_ns w) name) "LinkSetUp" id w.

Definition AddrAdd (link : string) (ip : net.IP) (mask : net.IPMask) : M unit :=
  fun w => call (OpAddrAdd (w_ns w) link ip mask) "AddrAdd" id w.

Definition AddrList (link : string) : M unit :=
  fun w => call (OpAddrList (w_ns w) link) "AddrList" id w.

Definition RouteAdd (link : string) (gw : net.IP) : M unit :=
  fun w => call (OpRouteAdd (w_ns w) link gw) "RouteAdd" id w.

(** [ip.DelLinkByNameAddr] of containernetworking/plugins: looks the link
    up in the current namespace, [ErrLinkNotFound] when it is not there,
    and deletes it otherwise. *)
Definition DelLinkByNameAddr (ifName : string) : M unit :=
  fun w =>
    let op := OpDelLinkByNameAddr (w_ns w) ifName in
    let w := log op w in
    if negb (bool_decide ((w_ns w, ifName) ∈ w_links w)) then (Err ErrLinkNotFound, w)
    else if w_fails w op then (Err (ErrExternal "DelLinkByNameAddr"), w)
    else (Ok tt, set_links (w_links w ∖ {[ (w_ns w, ifName) ]}) w).

(** [ns.WithNetNSPath(path, f)]: [f] runs inside the namespace, and the
    thread is back in its own afterwards. *)
Definition WithNetNSPath {A} (path : string) (f : M A) : M A :=
  fun w =>
    let back := w_ns w in
    match call (OpWithNetNSPath path) "WithNetNSPath" (set_ns path) w with
    | (Ok _, w) => let '(r, w) := f w in (r, set_ns back w)
    | (Err e, w) => (Err e, w)
    | (Diverges, w) => (Diverges, w)
    end.

(** [ip.SetupVeth(ifName, mtu, "", netns)]: one end named [ifName] in
    the namespace, the other in the host under a name of the kernel's
    choosing. *)
Definition SetupVeth (ifName : string) (mtu : Z) (netns : string) : M (string * string) :=
  fun w =>
    match call (OpSetupVeth ifName mtu netns) "SetupVeth"
            (fun w => set_links (w_links w ∪ {[ (netns, ifName); (w_ns w, w_hostVeth w) ]}) w) w with
    | (Ok _, w) => (Ok (w_hostVeth w, ifName), w)
    | (Err e, w) => (Err e, w)
    | (Diverges, w) => (Diverges, w)
    end.

(** What the kernel reports about a link, for [cmdCheck]: whether
    [link.Attrs().Flags] has [net.FlagUp], the [AF_INET] addresses
    [netlink.AddrList] returns, and the destinations of the [AF_INET]
    routes [netlink.RouteList] returns, [None] being the [nil] destination
    of a default route; no list of routes when [RouteList] fails. *)
Record LinkInfo := mkLinkInfo {
  li_up : bool;
  li_addrs : list net.IP;
  li_routes : option (list (option net.IPNet))
}.

(** The links' attributes, by namespace and name. *)
Definition Kernel : Type := string -> string -> LinkInfo.

(** [netlink.RouteList(link, unix.AF_INET)]: a read that the trace does
    not record. *)
Definition RouteList (k : Kernel) (link : string) : M (list (option net.IPNet)) :=
  fun w =>
    match li_routes (k (w_ns w) link) with
    | Some routes => (Ok routes, w)
    | None => (Err (ErrExternal "RouteList"), w)
    end.

(** ** [pkg/vxlan/vxlan.go] *)

Module vxlan.

Definition DefaultVxlanPort : Z := 8472.
Definition DefaultVxlanVNI : Z := 10.
Definition DefaultMTU : Z := 1500.

(** [fmt.Sprintf("vxlan%d", id)]. *)
Definition vxlanName (id : Z) : string := ("vxlan" ++ pretty id)%string.

(** [func SetupVxlan(config *VxlanConfig)], returning the device. *)
Definition SetupVxlan (config : VxlanConfig) : M string :=
  logged (CallSetupVxlan config)
  (hostIface <- LinkByName (vc_HostInterface config) ;;
   AddrList hostIface ;;;
   (let name := vxlanName (vc_VxlanID config) in
    (fun w =>
       match LinkByName name w with
       | (Ok existing, w) => LinkDel existing w
       | (_, w) => (Ok tt, w)
       end) ;;;
    call (OpLinkAddVxlan name (vc_VxlanID config) (vc_MTU config) hostIface
            DefaultVxlanPort) "LinkAdd"
         (fun w => set_links (w_links w ∪ {[ (w_ns w, name) ]}) w) ;;;
    LinkSetUp name ;;;
    ret name)).

(** [func CleanupVxlan(vxlanID int) error]. *)
Definition CleanupVxlan (vxlanID : Z) : M unit :=
  logged (CallCleanupVxlan vxlanID)
    (fun w =>
       match LinkByName (vxlanName vxlanID) w with
       | (Ok link, w) => LinkDel link w
       | (_, w) => (Ok tt, w)
       end).

(** [func ConfigureVxlanNetwork(vxlan *netlink.Vxlan, subnet *net.IPNet) error]. *)
Definition ConfigureVxlanNetwork (link : string) (subnet : net.IPNet) : M unit :=
  logged (CallConfigureVxlanNetwork link subnet)
    (AddrAdd link (net.IPNet_IP subnet) (net.IPNet_Mask subnet)).

End vxlan.

(** ** [main.go] *)

Module main.

Record PluginConf := mkPluginConf {
  CNIVersion : string;
  HostInterface : string;
  VxlanID : Z;
  MTU : Z;
  Subnet : string;
  Gateway : string;
  DataDir : string
}.

(** [skel.CmdArgs]; [StdinData] is the configuration [json.Unmarshal]
    decodes it to, [None] for a document it rejects. *)
Record CmdArgs := mkCmdArgs {
  ContainerID : string;
  Netns : string;
  IfName : string;
  StdinData : option PluginConf
}.

Definition unmarshal (args : CmdArgs) : M PluginConf :=
  match StdinData args with
  | Some conf => ret conf
  | None => fail ErrParseNetConf
  end.

Definition ipamConfig (conf : PluginConf) : ipam.Config :=
  ipam.mkConfig (Subnet conf) (Gateway conf) (DataDir conf).

(** [ipam.New], [Allocate] and [Release] on the host's file system. The
    instance lives for one invocation. *)
Definition ipam_New (c : ipam.Config) : M ipam.IPAM :=
  fun w => (ipam.New c (w_fs w), log (CallNew c) w).

Definition ipam_Allocate (i : ipam.IPAM) (containerID : string) : M net.IP :=
  fun w =>
    let '(r, _, fs) := ipam.Allocate containerID i (w_fs w) in
    (r, set_fs fs (log (CallAllocate containerID) w)).

Definition ipam_Release (i : ipam.IPAM) (containerID : string) : M unit :=
  fun w =>
    let '(r, _, fs) := ipam.Release containerID i (w_fs w) in
    (r, set_fs fs (log (CallRelease containerID) w)).

Definition parseSubnet (s : string) : M net.IPNet :=
  match net.ParseCIDR s with
  | Some (_, subnet) => ret subnet
  | None => fail ErrInvalidSubnet
  end.

(** The defaults [cmdAdd] fills in. *)
Definition withDefaults (conf : PluginConf) : PluginConf :=
  let vxlanID := if VxlanID conf =? 0 then vxlan.DefaultVxlanVNI else VxlanID conf in
  let mtu := if MTU conf =? 0 then vxlan.DefaultMTU else MTU conf in
  mkPluginConf (CNIVersion conf) (HostInterface conf) vxlanID mtu
               (Subnet conf) (Gateway conf) (DataDir conf).

(** [func cmdAdd(args *skel.CmdArgs) error]. *)
Definition cmdAdd (args : CmdArgs) : M unit :=
  conf <- unmarshal args ;;
  let conf := withDefaults conf in
  if net.str_empty (HostInterface conf) then fail ErrHostInterfaceMissing
  else if net.str_empty (Subnet conf) then fail ErrSubnetMissing
  else if net.str_empty (Gateway conf) then fail ErrGatewayMissing
  else
    call (OpSysctl "net.ipv4.ip_forward" "1") "Sysctl" id ;;;
    vxlanIface <- vxlan.SetupVxlan
                    (mkVxlanConfig (HostInterface conf) (VxlanID conf) (MTU conf)) ;;
    subnet <- parseSubnet (Subnet conf) ;;
    vxlan.ConfigureVxlanNetwork vxlanIface subnet ;;;
    ipamInstance <- ipam_New (ipamConfig conf) ;;
    containerIP <- ipam_Allocate ipamInstance (ContainerID args) ;;
    call (OpGetNS (Netns args)) "GetNS" id ;;;
    defer (log (OpCloseNS (Netns args)))
      (veth <- SetupVeth (IfName args) (MTU conf) (Netns args) ;;
       let '(hostVeth, containerVeth) := veth in
       WithNetNSPath (Netns args)
         (link <- LinkByName (IfName args) ;;
          AddrAdd link containerIP (net.IPNet_Mask subnet) ;;;
          LinkSetUp link ;;;
          match net.ParseIP (Gateway conf) with
          | None => fail ErrInvalidGateway
          | Some gateway => RouteAdd link gateway
          end) ;;;
       hostLink <- LinkByName hostVeth ;;
       call (OpLinkSetMaster hostLink vxlanIface) "LinkSetMaster" id ;;;
       (let result :=
          mkResult (CNIVersion conf)
            [(IfName args, Netns args); (hostVeth, EmptyString);
             (vxlanIface, EmptyString)]
            (containerIP, net.IPNet_Mask subnet)
            (net.ParseIP (Gateway conf)) in
        call (OpPrintResult result) "PrintResult" id)).

(** [func cmdDel(args *skel.CmdArgs) error]. *)
Definition cmdDel (args : CmdArgs) : M unit :=
  conf <- unmarshal args ;;
  ipamInstance <- ipam_New (ipamConfig conf) ;;
  ipam_Release ipamInstance (ContainerID args) ;;;
  if negb (net.str_empty (Netns args))
  then DelLinkByNameAddr (IfName args)
  else ret tt.

(** [func cmdCheck(args *skel.CmdArgs) error]. The three errors that
    [cmdCheck] makes itself are [ErrExternal] with their message. *)
Definition cmdCheck (k : Kernel) (args : CmdArgs) : M unit :=
  conf <- unmarshal args ;;
  let vxlanName := vxlan.vxlanName (VxlanID conf) in
  LinkByName vxlanName ;;;
  WithNetNSPath (Netns args)
    (link <- LinkByName (IfName args) ;;
     (fun w =>
        let info := k (w_ns w) link in
        (if negb (li_up info)
         then fail (ErrExternal "container interface is down")
         else
           AddrList link ;;;
           if (length (li_addrs info) =? 0)%nat
           then fail (ErrExternal "container interface has no IPv4 address")
           else
             routes <- RouteList k link ;;
             if existsb (fun dst => negb (net.is_Some_b dst)) routes
             then ret tt
             else fail (ErrExternal "container interface has no default route")) w)).

End main.

(** ** Vocabulary of the statements *)

(** The states an allocator instance goes through: any number of
    [Allocate] and [Release] calls, each against a file system in any
    condition. *)
Inductive reachable (i0 : ipam.IPAM) : ipam.IPAM -> Prop :=
  | reach_init : reachable i0 i0
  | reach_Allocate i id fs :
      reachable i0 i -> reachable i0 (ipam.Allocate id i fs).1.2
  | reach_Release i id fs :
      reachable i0 i -> reachable i0 (ipam.Release id i fs).1.2.

(** [Allocate] for each identifier in turn. *)
Fixpoint allocateAll (ids : list string) (i : ipam.IPAM) (fs : FS)
    : list (outcome net.IP) * ipam.IPAM * FS :=
  match ids with
  | [] => ([], i, fs)
  | id :: ids' =>
      let '(r, i, fs) := ipam.Allocate id i fs in
      let '(rs, i, fs) := allocateAll ids' i fs in
      (r :: rs, i, fs)
  end.

(** No two identifiers hold equal addresses; no identifier holds the
    gateway. *)
Definition injective (i : ipam.IPAM) : Prop :=
  forall id1 id2 ip1 ip2,
    id1 <> id2 ->
    ipam.Allocations i !! id1 = Some ip1 ->
    ipam.Allocations i !! id2 = Some ip2 ->
    net.Equal ip1 ip2 = false.

Definition gateway_free (i : ipam.IPAM) : Prop :=
  forall id ip,
    ipam.Allocations i !! id = Some ip ->
    net.Equal ip (ipam.Gateway i) = false.

(** Bytes, and the lengths an address has. *)
Definition wf_bytes (l : list Z) : Prop := Forall (fun b => 0 <= b < 256) l.


(** A network as [ParseCIDR] builds it: an address of 4 or 16 bytes under
    the mask of [ones] leading one bits. *)
Definition wf_subnet (sn : net.IPNet) (ones : Z) : Prop :=
  let n := length (net.IPNet_IP sn) in
  (n = 4%nat \/ n = 16%nat) /\
  0 <= ones <= 8 * Z.of_nat n /\
  net.IPNet_Mask sn = net.CIDRMask_loop n ones /\
  exists a, length a = n /\ wf_bytes a /\
            net.IPNet_IP sn = zip_with Z.land a (net.IPNet_Mask sn).

(** The number an address stands for, most significant byte first, and
    the same read from the last byte. *)
Definition num (ip : list Z) : Z := fold_left (fun acc b => acc * 256 + b) ip 0.

Definition numLE (r : list Z) : Z := fold_right (fun b acc => acc * 256 + b) 0 r.

Definition pow256 (k : nat) : Z := 256 ^ Z.of_nat k.

(** The prefix length of a mask (its leading one bits), the host bits
    it leaves, the number of the network address and the number just
    past the last address of the network. *)
Fixpoint maskOnes (m : list Z) : Z :=
  match m with
  | [] => 0
  | b :: m' => if b =? 255 then 8 + maskOnes m' else 8 - Z.log2 (256 - b)
  end.

Definition hostBits (sn : net.IPNet) : Z :=
  8 * Z.of_nat (length (net.IPNet_IP sn)) - maskOnes (net.IPNet_Mask sn).

Definition netnum (sn : net.IPNet) : Z := num (net.IPNet_IP sn).

Definition subnet_end (sn : net.IPNet) : Z := netnum sn + 2 ^ hostBits sn.

(** The number of [::ffff:0.0.0.0], the first IPv4-mapped address. *)
Definition V4BASE : Z := 281470681743360.

(** Where the scan of [findAvailableIP] stops: past the last address of
    the network; or, in an IPv6 network that reaches across the
    IPv4-mapped block, at that block, whose addresses [Contains] turns
    into 4 bytes and then finds of the wrong length. *)
Definition scan_limit (sn : net.IPNet) : Z :=
  if (length (net.IPNet_IP sn) =? 16)%nat
     && negb (net.is_Some_b (net.To4 (net.IPNet_IP sn)))
     && (netnum sn <? V4BASE) && (V4BASE <? subnet_end sn)
  then V4BASE else subnet_end sn.

(** The numbers of the IPv4-mapped addresses [::ffff:a.b.c.d]. *)
Definition in_v4_block (x : Z) : Prop := V4BASE <= x < V4BASE + 2 ^ 32.

(** Every network but the IPv4 network [/0], where stepping past
    255.255.255.255 comes back to the network address. *)
Definition non_wrapping (sn : net.IPNet) : Prop :=
  net.IPNet_Mask sn <> [0; 0; 0; 0].

(** The number a stored address has among the addresses of [n] bytes:
    its own when it has [n] bytes, that of its other form when it is an
    IPv4 address stored in the other length. *)
Definition canon_num (n : nat) (v : net.IP) : option Z :=
  if (length v =? n)%nat then Some (num v)
  else if (n =? 4)%nat && (length v =? 16)%nat
          && bool_decide (take 12 v = net.v4InV6Prefix)
       then Some (num (drop 12 v))
  else if (n =? 16)%nat && (length v =? 4)%nat then Some (V4BASE + num v)
  else None.

Definition addrLen (i : ipam.IPAM) : nat := length (net.IPNet_IP (ipam.Subnet i)).

(** The entries of the mapping at or after number [p]: what bounds the
    rounds the scan still has to make. *)
Definition ahead (i : ipam.IPAM) (p : Z) : nat :=
  length (List.filter
            (fun kv : string * net.IP =>
               match canon_num (addrLen i) kv.2 with
               | Some c => p <=? c
               | None => false
               end)
            (map_to_list (ipam.Allocations i))).

(** The address with number [q] cannot be handed out: somebody holds
    it, or it is the gateway. *)
Definition taken (i : ipam.IPAM) (q : Z) : Prop :=
  forall ip, wf_bytes ip -> length ip = addrLen i -> num ip = q ->
             ipam.allocated i ip = true \/ net.Equal ip (ipam.Gateway i) = true.

(** Every stored address has the length of the network's, lies after
    the network address and before the limit of the scan, and is not the
    gateway: the mapping of an instance that started empty. *)
Definition plain_values (i : ipam.IPAM) : Prop :=
  forall id v,
    ipam.Allocations i !! id = Some v ->
    wf_bytes v /\ length v = addrLen i /\
    netnum (ipam.Subnet i) < num v < scan_limit (ipam.Subnet i) /\
    net.Equal v (ipam.Gateway i) = false.

(** The gateway's number among the addresses of the network's length,
    and how many addresses the scan can hand out. *)
Definition gateway_num (i : ipam.IPAM) : option Z :=
  canon_num (addrLen i) (ipam.Gateway i).

Definition gateway_in_scan (i : ipam.IPAM) : bool :=
  match gateway_num i with
  | Some g => (netnum (ipam.Subnet i) <? g) && (g <? scan_limit (ipam.Subnet i))
  | None => false
  end.

Definition usable_count (i : ipam.IPAM) : Z :=
  scan_limit (ipam.Subnet i) - netnum (ipam.Subnet i) - 1
  - (if gateway_in_scan i then 1 else 0).



(** What [cmdAdd] passes on as tunnel identifier and MTU. *)
Definition effective_VxlanID (conf : main.PluginConf) : Z :=
  if main.VxlanID conf =? 0 then 10 else main.VxlanID conf.

Definition effective_MTU (conf : main.PluginConf) : Z :=
  if main.MTU conf =? 0 then 1500 else main.MTU conf.

(** A recorded call that carries a tunnel identifier or an MTU carries
    the effective ones. *)
Definition defaults_used (conf : main.PluginConf) (op : Op) : Prop :=
  match op with
  | CallSetupVxlan c =>
      vc_VxlanID c = effective_VxlanID conf /\ vc_MTU c = effective_MTU conf
  | OpLinkAddVxlan _ vid mtu _ _ =>
      vid = effective_VxlanID conf /\ mtu = effective_MTU conf
  | OpSetupVeth _ mtu _ => mtu = effective_MTU conf
  | _ => True
  end.

(** The calls that take a link of the host down for good. *)
Definition tears_down (op : Op) : Prop :=
  match op with
  | CallCleanupVxlan _ => True
  | OpLinkDel _ _ => True
  | _ => False
  end.

(** A property of the trace that a computation keeps. *)
Definition keeps {A} (Q : list Op -> Prop) (m : M A) : Prop :=
  forall w, Q (w_trace w) -> Q (w_trace (m w).2).

(** Appending [op] to a trace keeps [Q]. *)
Definition extends (Q : list Op -> Prop) (op : Op) : Prop :=
  forall t, Q t -> Q (t ++ [op]).

(** The bytes [parseIPv6] has written: in range, an even number of them,
    sixteen at most. *)
Definition partial_v6 (ip : list Z) : Prop :=
  wf_bytes ip /\ (length ip <= 16)%nat /\ Nat.even (length ip) = true.

(** One step of the loop of [loadAllocations], and what the loop over the
    decoded record [m] has made of the instance [i]. *)
Definition load_step (id ipStr : string) (acc : outcome ipam.IPAM)
    : outcome ipam.IPAM :=
  match acc with
  | Ok i =>
      match net.ParseIP ipStr with
      | None => Err ErrInvalidAllocationIP
      | Some ip =>
          Ok (ipam.with_Allocations i (<[id := ip]> (ipam.Allocations i)))
      end
  | _ => acc
  end.

Definition loaded (i : ipam.IPAM) (m : gmap string string)
    (r : outcome ipam.IPAM) : Prop :=
  match r with
  | Ok i' =>
      ipam.Subnet i' = ipam.Subnet i /\ ipam.Gateway i' = ipam.Gateway i /\
      ipam.dataDir i' = ipam.dataDir i /\
      (forall id, ipam.Allocations i' !! id =
                  match m !! id with
                  | Some s => net.ParseIP s
                  | None => ipam.Allocations i !! id
                  end) /\
      (forall id s, m !! id = Some s -> is_Some (net.ParseIP s))
  | Err e =>
      e = ErrInvalidAllocationIP /\
      exists id s, m !! id = Some s /\ net.ParseIP s = None
  | Diverges => False
  end.

(** What a scan from number [p] on ends with: the least free address at or
    after [p], or all of them held. *)
Definition scan_found (i : ipam.IPAM) (p : Z) (o : outcome net.IP) : Prop :=
  exists r, o = Ok r /\ wf_bytes r /\ length r = addrLen i /\
            p <= num r < scan_limit (ipam.Subnet i) /\
            ipam.allocated i r = false /\
            net.Equal r (ipam.Gateway i) = false /\
            forall q, p <= q < num r -> taken i q.

Definition scan_exhausted (i : ipam.IPAM) (p : Z) (o : outcome net.IP) : Prop :=
  (forall q, p <= q < scan_limit (ipam.Subnet i) -> taken i q) /\
  (non_wrapping (ipam.Subnet i) -> o = Err ErrNoAvailableIP).

(** The numbers of the recorded addresses. *)
Definition held_numbers (i : ipam.IPAM) : list Z :=
  map (fun kv : string * net.IP => num kv.2) (map_to_list (ipam.Allocations i)).

(** ** The text of an address *)

(** The text [appendTo6] writes, by groups: [emitHead gs rest] is the
    groups [gs] separated by colons and followed by [rest]. *)
Fixpoint emitTail (gs : list Z) (rest : string) : string :=
  match gs with
  | [] => rest
  | g :: gs' => String ":" (net.appendHex g ++ emitTail gs' rest)%string
  end.








Definition no_hex_head (s : string) : Prop :=
  match s with
  | EmptyString => True
  | String c _ => net.hexval c = None
  end.




(** ** Vocabulary of the further properties *)


(** The calls that would undo what [cmdAdd] has done. *)
Definition rolls_back (op : Op) : Prop :=
  match op with
  | CallRelease _ => True
  | CallCleanupVxlan _ => True
  | OpDelLinkByNameAddr _ _ => True
  | _ => False
  end.


(** ** Examples the statements are instantiated at *)

Module Ex.
Definition fs : FS := mkFS ∅ false false false.
Definition fs_readonly : FS := mkFS ∅ false false true.
Definition cfg : ipam.Config :=
  ipam.mkConfig "10.244.0.0/24" "10.244.0.1" "/var/lib/cni/test".
Definition cfg_bad_gateway : ipam.Config :=
  ipam.mkConfig "10.244.0.0/24" "10.244.0.300" "/var/lib/cni/test".
Definition i0 : ipam.IPAM :=
  ipam.mkIPAM (net.mkIPNet [10; 244; 0; 0] [255; 255; 255; 0])
    [0; 0; 0; 0; 0; 0; 0; 0; 0; 0; 255; 255; 10; 244; 0; 1]
    ∅ "/var/lib/cni/test".
Definition i1 : ipam.IPAM := (ipam.Allocate "c1" i0 fs).1.2.
Definition fs1 : FS := (ipam.Allocate "c1" i0 fs).2.

Definition host : World :=
  mkWorld fs {[ (EmptyString, "ens3"%string) ]} EmptyString "veth4f2a"
          (fun _ => false) [].
Definition conf : main.PluginConf :=
  main.mkPluginConf "1.0.0" "ens3" 0 0 "10.244.0.0/24" "10.244.0.1"
                    "/var/lib/cni/test".
Definition conf_no_gateway : main.PluginConf :=
  main.mkPluginConf "1.0.0" "ens3" 0 0 "10.244.0.0/24" "" "/var/lib/cni/test".
Definition args (c : main.PluginConf) : main.CmdArgs :=
  main.mkCmdArgs "c1" "/var/run/netns/test" "eth0" (Some c).


Definition cfg30 : ipam.Config :=
  ipam.mkConfig "10.244.0.0/30" "10.244.0.1" "/var/lib/cni/test".
Definition i30 : ipam.IPAM :=
  ipam.mkIPAM (net.mkIPNet [10; 244; 0; 0] [255; 255; 255; 252])
    [0; 0; 0; 0; 0; 0; 0; 0; 0; 0; 255; 255; 10; 244; 0; 1]
    ∅ "/var/lib/cni/test".

(** A host on which the tunnel device is up and the workload's link is
    no longer there. *)
Definition host_link_gone : World :=
  mkWorld fs {[ (EmptyString, "ens3"%string); (EmptyString, "vxlan10"%string) ]}
          EmptyString "veth4f2a" (fun _ => false) [].
End Ex.

(** ** Further examples *)

Module Ex2.
(** A DEL without a namespace path. *)
Definition args_no_netns : main.CmdArgs :=
  main.mkCmdArgs "c1" EmptyString "eth0" (Some Ex.conf).




Definition host_configured : World :=
  mkWorld Ex.fs1
          {[ (EmptyString, "ens3"%string); (EmptyString, "vxlan10"%string);
             (EmptyString, "veth4f2a"%string);
             ("/var/run/netns/test"%string, "eth0"%string) ]}
          EmptyString "veth4f2b" (fun _ => false) [].
Definition kernel : Kernel :=
  fun _ _ => mkLinkInfo true [[10; 244; 0; 2]] (Some [None]).

End Ex2.

(** * Properties *)

(** ** Idempotence of [Allocate] *)

Lemma Allocate_recorded id i fs ip :
  ipam.Allocations i !! id = Some ip ->
  ipam.Allocate id i fs = (Ok ip, i, fs).
Proof. intros H. unfold ipam.Allocate. now rewrite H. Qed.

Lemma Allocate_Ok_lookup id i fs ip :
  (ipam.Allocate id i fs).1.1 = Ok ip ->
  ipam.Allocations (ipam.Allocate id i fs).1.2 !! id = Some ip.
Proof.
  unfold ipam.Allocate.
  destruct (ipam.Allocations i !! id) as [ip0|] eqn:Hl; simpl.
  - intros [= <-]. exact Hl.
  - destruct (ipam.findAvailableIP i) as [ip1| |]; simpl; try discriminate.
    unfold ipam.saveAllocations.
    destruct (os_WriteFile _ _ _); simpl; try discriminate.
    intros [= <-]. apply lookup_insert_eq.
Qed.

(** C2. An identifier that already holds an address gets that address
    back, with the instance and the file system as they were; and a
    second [Allocate] after a successful one returns the same address and
    changes nothing, so the mapping keeps its size. *)
Theorem Allocate_idempotent id i fs ip :
  (ipam.Allocations i !! id = Some ip ->
   ipam.Allocate id i fs = (Ok ip, i, fs)) /\
  ((ipam.Allocate id i fs).1.1 = Ok ip ->
   forall fs2,
     let i1 := (ipam.Allocate id i fs).1.2 in
     ipam.Allocate id i1 fs2 = (Ok ip, i1, fs2) /\
     size (ipam.Allocations (ipam.Allocate id i1 fs2).1.2)
       = size (ipam.Allocations i1)).
Proof.
  split; [apply Allocate_recorded|].
  intros H fs2 i1.
  pose proof (Allocate_Ok_lookup _ _ _ _ H) as Hl. fold i1 in Hl.
  rewrite (Allocate_recorded _ _ fs2 _ Hl). auto.
Qed.

Lemma Allocate_idempotent_witness :
  ipam.Allocate "c1" Ex.i1 Ex.fs1 = (Ok [10; 244; 0; 2], Ex.i1, Ex.fs1) /\
  forall fs2,
    ipam.Allocate "c1" (ipam.Allocate "c1" Ex.i0 Ex.fs).1.2 fs2
      = (Ok [10; 244; 0; 2], (ipam.Allocate "c1" Ex.i0 Ex.fs).1.2, fs2).
Proof.
  split.
  - apply (proj1 (Allocate_idempotent "c1" Ex.i1 Ex.fs1 [10; 244; 0; 2])).
    vm_compute. reflexivity.
  - intros fs2.
    apply (proj2 (Allocate_idempotent "c1" Ex.i0 Ex.fs [10; 244; 0; 2])).
    vm_compute. reflexivity.
Defined.

(** ** Failure to persist *)

(** C8. When the record cannot be written, [Allocate] returns the write
    error and the instance keeps the entry it has just inserted;
    [Release] returns the write error and the instance has already lost
    the entry. Neither rolls the mapping back. *)
Theorem save_failure_not_rolled_back id i fs :
  fs_write_fails fs = true ->
  (forall ip,
     ipam.Allocations i !! id = None ->
     ipam.findAvailableIP i = Ok ip ->
     (ipam.Allocate id i fs).1.1 = Err ErrWriteAllocations /\
     ipam.Allocations (ipam.Allocate id i fs).1.2
       = <[id := ip]> (ipam.Allocations i)) /\
  (forall ip,
     ipam.Allocations i !! id = Some ip ->
     (ipam.Release id i fs).1.1 = Err ErrWriteAllocations /\
     ipam.Allocations (ipam.Release id i fs).1.2
       = delete id (ipam.Allocations i)).
Proof.
  intros Hw. split; intros ip Hl.
  - intros Hf. unfold ipam.Allocate, ipam.saveAllocations, os_WriteFile.
    rewrite Hl, Hf, Hw. simpl. auto.
  - unfold ipam.Release, ipam.saveAllocations, os_WriteFile.
    rewrite Hl, Hw. simpl. auto.
Qed.

Lemma save_failure_not_rolled_back_witness :
  ((ipam.Allocate "c1" Ex.i0 Ex.fs_readonly).1.1 = Err ErrWriteAllocations /\
   ipam.Allocations (ipam.Allocate "c1" Ex.i0 Ex.fs_readonly).1.2
     = <["c1" := [10; 244; 0; 2]]> (ipam.Allocations Ex.i0)) /\
  ((ipam.Release "c1" Ex.i1 Ex.fs_readonly).1.1 = Err ErrWriteAllocations /\
   ipam.Allocations (ipam.Release "c1" Ex.i1 Ex.fs_readonly).1.2
     = delete "c1" (ipam.Allocations Ex.i1)).
Proof.
  split.
  - apply (proj1 (save_failure_not_rolled_back "c1" Ex.i0 Ex.fs_readonly eq_refl)
             [10; 244; 0; 2]); vm_compute; reflexivity.
  - apply (proj2 (save_failure_not_rolled_back "c1" Ex.i1 Ex.fs_readonly eq_refl)
             [10; 244; 0; 2]); vm_compute; reflexivity.
Defined.

(** ** The trace of the orchestration *)

Section Keeps.
Context (Q : list Op -> Prop).

Lemma keeps_ret {A} (a : A) : keeps Q (ret a).
Proof. intros w H. exact H. Qed.

Lemma keeps_fail {A} e : keeps Q (@fail A e).
Proof. intros w H. exact H. Qed.

Lemma keeps_bind {A B} (m : M A) (k : A -> M B) :
  keeps Q m -> (forall a, keeps Q (k a)) -> keeps Q (bind m k).
Proof.
  intros Hm Hk w H. unfold bind. specialize (Hm w H).
  destruct (m w) as [[a|e|] w']; simpl in *; auto. now apply Hk.
Qed.

Lemma keeps_bind_ret {A B} (a : A) (k : A -> M B) :
  keeps Q (k a) -> keeps Q (bind (ret a) k).
Proof. intros H w. exact (H w). Qed.

Lemma keeps_call op what eff :
  extends Q op -> (forall w, w_trace (eff w) = w_trace w) ->
  keeps Q (call op what eff).
Proof.
  intros Hop Heff w H. unfold call.
  destruct (w_fails (log op w) op); simpl; [|rewrite Heff; simpl]; now apply Hop.
Qed.

Lemma keeps_logged {A} op (m : M A) :
  extends Q op -> keeps Q m -> keeps Q (logged op m).
Proof. intros Hop Hm w H. apply Hm. simpl. now apply Hop. Qed.

Lemma keeps_defer {A} op (m : M A) :
  extends Q op -> keeps Q m -> keeps Q (defer (log op) m).
Proof.
  intros Hop Hm w H. unfold defer. specialize (Hm w H).
  destruct (m w) as [r w']; simpl in *. now apply Hop.
Qed.

Lemma keeps_LinkByName name :
  (forall ns, extends Q (OpLinkByName ns name)) -> keeps Q (LinkByName name).
Proof.
  intros Hop w H. unfold LinkByName.
  repeat match goal with |- context [if ?b then _ else _] => destruct b end;
    simpl; now apply Hop.
Qed.

Lemma keeps_LinkDel name :
  (forall ns, extends Q (OpLinkDel ns name)) -> keeps Q (LinkDel name).
Proof. intros Hop w. apply keeps_call; [apply Hop | reflexivity]. Qed.

Lemma keeps_LinkSetUp name :
  (forall ns, extends Q (OpLinkSetUp ns name)) -> keeps Q (LinkSetUp name).
Proof. intros Hop w. apply keeps_call; [apply Hop | reflexivity]. Qed.

Lemma keeps_AddrAdd link ip mask :
  (forall ns, extends Q (OpAddrAdd ns link ip mask)) -> keeps Q (AddrAdd link ip mask).
Proof. intros Hop w. apply keeps_call; [apply Hop | reflexivity]. Qed.

Lemma keeps_AddrList link :
  (forall ns, extends Q (OpAddrList ns link)) -> keeps Q (AddrList link).
Proof. intros Hop w. apply keeps_call; [apply Hop | reflexivity]. Qed.

Lemma keeps_RouteAdd link gw :
  (forall ns, extends Q (OpRouteAdd ns link gw)) -> keeps Q (RouteAdd link gw).
Proof. intros Hop w. apply keeps_call; [apply Hop | reflexivity]. Qed.

Lemma keeps_DelLinkByNameAddr name :
  (forall ns, extends Q (OpDelLinkByNameAddr ns name)) ->
  keeps Q (DelLinkByNameAddr name).
Proof.
  intros Hop w H. unfold DelLinkByNameAddr.
  repeat match goal with |- context [if ?b then _ else _] => destruct b end;
    simpl; now apply Hop.
Qed.

Lemma keeps_WithNetNSPath {A} path (f : M A) :
  extends Q (OpWithNetNSPath path) -> keeps Q f -> keeps Q (WithNetNSPath path f).
Proof.
  intros Hop Hf w H. unfold WithNetNSPath, call.
  destruct (w_fails (log _ w) _); simpl; [now apply Hop|].
  specialize (Hf (set_ns path (log (OpWithNetNSPath path) w))).
  destruct (f _) as [r w']; simpl in *. apply Hf. now apply Hop.
Qed.

Lemma keeps_SetupVeth ifName mtu netns :
  extends Q (OpSetupVeth ifName mtu netns) -> keeps Q (SetupVeth ifName mtu netns).
Proof.
  intros Hop w H. unfold SetupVeth, call.
  destruct (w_fails (log _ w) _); simpl; now apply Hop.
Qed.

Lemma keeps_ipam_New c : extends Q (CallNew c) -> keeps Q (main.ipam_New c).
Proof. intros Hop w H. simpl. now apply Hop. Qed.

Lemma keeps_ipam_Allocate i id :
  extends Q (CallAllocate id) -> keeps Q (main.ipam_Allocate i id).
Proof.
  intros Hop w H. unfold main.ipam_Allocate.
  destruct (ipam.Allocate id i (w_fs w)) as [[r i'] fs']. simpl. now apply Hop.
Qed.

Lemma keeps_ipam_Release i id :
  extends Q (CallRelease id) -> keeps Q (main.ipam_Release i id).
Proof.
  intros Hop w H. unfold main.ipam_Release.
  destruct (ipam.Release id i (w_fs w)) as [[r i'] fs']. simpl. now apply Hop.
Qed.

Lemma keeps_unmarshal args : keeps Q (main.unmarshal args).
Proof. unfold main.unmarshal. destruct (main.StdinData args); intros w H; exact H. Qed.

Lemma keeps_parseSubnet s : keeps Q (main.parseSubnet s).
Proof.
  unfold main.parseSubnet. destruct (net.ParseCIDR s) as [[? ?]|]; intros w H; exact H.
Qed.

Lemma keeps_try_LinkDel name :
  (forall ns, extends Q (OpLinkByName ns name)) ->
  (forall ns, extends Q (OpLinkDel ns name)) ->
  keeps Q (fun w => match LinkByName name w with
                    | (Ok existing, w) => LinkDel existing w
                    | (_, w) => (Ok tt, w)
                    end).
Proof.
  intros H1 H2 w H. pose proof (keeps_LinkByName name H1 w H) as HL.
  unfold LinkByName in *.
  repeat match goal with |- context [if ?b then _ else _] => destruct b end;
    simpl in *; auto.
  now apply keeps_LinkDel.
Qed.

End Keeps.

Ltac keeps_step :=
  first
    [ apply keeps_ret | apply keeps_fail
    | apply keeps_bind_ret
    | apply keeps_unmarshal | apply keeps_parseSubnet
    | apply keeps_logged | apply keeps_defer
    | apply keeps_try_LinkDel
    | apply keeps_LinkByName | apply keeps_LinkDel | apply keeps_LinkSetUp
    | apply keeps_AddrAdd | apply keeps_AddrList | apply keeps_RouteAdd
    | apply keeps_DelLinkByNameAddr | apply keeps_WithNetNSPath
    | apply keeps_SetupVeth | apply keeps_ipam_New
    | apply keeps_ipam_Allocate | apply keeps_ipam_Release
    | apply keeps_call; [|reflexivity]
    | match goal with
      | |- keeps _ (if ?b then _ else _) => destruct b
      | |- keeps _ (match ?x with _ => _ end) => destruct x
      | |- keeps _ (let '(_, _) := ?x in _) => destruct x
      end
    | apply keeps_bind; [|intros ?] ].

Lemma extends_Forall (P : Op -> Prop) op : P op -> extends (Forall P) op.
Proof.
  intros H t Ht. apply Forall_app. split; [exact Ht|]. constructor; [exact H|constructor].
Qed.

Lemma extends_In (x op : Op) : extends (fun t => In x t) op.
Proof. intros t Ht. apply in_or_app. now left. Qed.

Lemma cmdAdd_keeps_defaults args conf :
  main.StdinData args = Some conf ->
  keeps (Forall (defaults_used conf)) (main.cmdAdd args).
Proof.
  intros Hc. unfold main.cmdAdd, main.unmarshal. rewrite Hc.
  unfold vxlan.SetupVxlan, vxlan.ConfigureVxlanNetwork.
  repeat keeps_step;
    try (intros; apply extends_Forall; simpl; auto).
Qed.

Lemma bind_ret_l {A B} (a : A) (k : A -> M B) w : bind (ret a) k w = k a w.
Proof. reflexivity. Qed.

Lemma str_empty_false s : s <> EmptyString -> net.str_empty s = false.
Proof. destruct s; [congruence | reflexivity]. Qed.

Lemma cmdAdd_calls_SetupVxlan args conf w :
  main.StdinData args = Some conf ->
  main.HostInterface conf <> EmptyString ->
  main.Subnet conf <> EmptyString ->
  main.Gateway conf <> EmptyString ->
  w_fails w (OpSysctl "net.ipv4.ip_forward" "1") = false ->
  In (CallSetupVxlan (mkVxlanConfig (main.HostInterface conf)
                        (effective_VxlanID conf) (effective_MTU conf)))
     (w_trace (main.cmdAdd args w).2).
Proof.
  intros Hc Hh Hs Hg Hf.
  unfold main.cmdAdd, main.unmarshal. rewrite Hc.
  unfold bind at 1, ret. simpl.
  rewrite (str_empty_false _ Hh), (str_empty_false _ Hs), (str_empty_false _ Hg).
  unfold bind at 1, call at 1. simpl. rewrite Hf.
  unfold vxlan.SetupVxlan at 1.
  match goal with
  | |- In ?x (w_trace (bind (logged ?op ?body) ?k ?w1).2) =>
      change (In x (w_trace (bind body k (log op w1)).2));
      assert (Hk : keeps (fun t => In x t) (bind body k))
  end.
  { unfold vxlan.ConfigureVxlanNetwork.
    repeat keeps_step; try (intros; apply extends_In). }
  apply Hk. simpl. apply in_or_app. right.
  unfold main.withDefaults, effective_VxlanID, effective_MTU. simpl. now left.
Qed.

Lemma cmdAdd_rejects args conf w :
  main.StdinData args = Some conf ->
  main.HostInterface conf = EmptyString \/ main.Subnet conf = EmptyString
    \/ main.Gateway conf = EmptyString ->
  (main.cmdAdd args w).2 = w /\
  ((main.cmdAdd args w).1 = Err ErrHostInterfaceMissing
   \/ (main.cmdAdd args w).1 = Err ErrSubnetMissing
   \/ (main.cmdAdd args w).1 = Err ErrGatewayMissing).
Proof.
  intros Hc H.
  unfold main.cmdAdd, main.unmarshal. rewrite Hc, !bind_ret_l. simpl.
  destruct (main.HostInterface conf) as [|c1 s1] eqn:E1; simpl; [auto|].
  destruct (main.Subnet conf) as [|c2 s2] eqn:E2; simpl; [auto|].
  destruct (main.Gateway conf) as [|c3 s3] eqn:E3; simpl; [auto 6|].
  destruct H as [H|[H|H]]; congruence.
Qed.

(** C9. [cmdAdd] checks the required fields before it does anything: a
    configuration without [hostInterface], [subnet] or [gateway] is
    refused with the matching error and the host is exactly as it was (no
    call recorded, no link, no file touched). Every tunnel identifier and
    MTU it passes on is the configured one, or 10 and 1500 where the
    configuration has none; and once the fields are there and IP
    forwarding is on, [SetupVxlan] is called with these. *)
Theorem cmdAdd_validates_first args conf w :
  main.StdinData args = Some conf ->
  (main.HostInterface conf = EmptyString \/ main.Subnet conf = EmptyString
     \/ main.Gateway conf = EmptyString ->
   (main.cmdAdd args w).2 = w /\
   ((main.cmdAdd args w).1 = Err ErrHostInterfaceMissing
    \/ (main.cmdAdd args w).1 = Err ErrSubnetMissing
    \/ (main.cmdAdd args w).1 = Err ErrGatewayMissing)) /\
  (Forall (defaults_used conf) (w_trace w) ->
   Forall (defaults_used conf) (w_trace (main.cmdAdd args w).2)) /\
  (main.HostInterface conf <> EmptyString ->
   main.Subnet conf <> EmptyString ->
   main.Gateway conf <> EmptyString ->
   w_fails w (OpSysctl "net.ipv4.ip_forward" "1") = false ->
   In (CallSetupVxlan (mkVxlanConfig (main.HostInterface conf)
                         (effective_VxlanID conf) (effective_MTU conf)))
      (w_trace (main.cmdAdd args w).2)).
Proof.
  intros Hc. split; [|split].
  - now apply cmdAdd_rejects.
  - now apply cmdAdd_keeps_defaults.
  - now apply cmdAdd_calls_SetupVxlan.
Qed.

Lemma cmdAdd_validates_first_witness :
  ((main.cmdAdd (Ex.args Ex.conf_no_gateway) Ex.host).2 = Ex.host /\
   ((main.cmdAdd (Ex.args Ex.conf_no_gateway) Ex.host).1 = Err ErrHostInterfaceMissing
    \/ (main.cmdAdd (Ex.args Ex.conf_no_gateway) Ex.host).1 = Err ErrSubnetMissing
    \/ (main.cmdAdd (Ex.args Ex.conf_no_gateway) Ex.host).1 = Err ErrGatewayMissing)) /\
  Forall (defaults_used Ex.conf) (w_trace (main.cmdAdd (Ex.args Ex.conf) Ex.host).2) /\
  In (CallSetupVxlan (mkVxlanConfig "ens3" 10 1500))
     (w_trace (main.cmdAdd (Ex.args Ex.conf) Ex.host).2).
Proof.
  split; [|split].
  - apply (proj1 (cmdAdd_validates_first (Ex.args Ex.conf_no_gateway)
                    Ex.conf_no_gateway Ex.host eq_refl)).
    right; right; reflexivity.
  - apply (proj1 (proj2 (cmdAdd_validates_first (Ex.args Ex.conf) Ex.conf
                           Ex.host eq_refl))).
    constructor.
  - apply (proj2 (proj2 (cmdAdd_validates_first (Ex.args Ex.conf) Ex.conf
                           Ex.host eq_refl))); simpl; congruence.
Defined.

(** ** DEL *)

Lemma Release_absent id i fs :
  ipam.Allocations i !! id = None ->
  ipam.Release id i fs = (Ok tt, i, fs).
Proof. intros H. unfold ipam.Release. now rewrite H. Qed.

Lemma cmdDel_keeps_tunnel args :
  keeps (Forall (fun op => ~ tears_down op)) (main.cmdDel args).
Proof.
  unfold main.cmdDel.
  repeat keeps_step; try (intros; apply extends_Forall; simpl; tauto).
Qed.

Lemma cmdDel_link_gone args conf w i :
  main.StdinData args = Some conf ->
  ipam.New (main.ipamConfig conf) (w_fs w) = Ok i ->
  ipam.Allocations i !! main.ContainerID args = None ->
  main.Netns args <> EmptyString ->
  (w_ns w, main.IfName args) ∉ w_links w ->
  (main.cmdDel args w).1 = Err ErrLinkNotFound.
Proof.
  intros Hc Hn Hl Hns Hgone.
  unfold main.cmdDel, main.unmarshal. rewrite Hc.
  unfold bind at 1, ret. simpl.
  unfold bind at 1, main.ipam_New. rewrite Hn.
  unfold bind at 1, main.ipam_Release. simpl.
  rewrite (Release_absent _ _ _ Hl). simpl.
  rewrite (str_empty_false _ Hns). simpl.
  unfold DelLinkByNameAddr. simpl.
  rewrite bool_decide_eq_false_2 by exact Hgone. reflexivity.
Qed.

(** C5. DEL for a workload whose link is no longer there: the allocator
    has nothing to release and says so without an error, nothing tears
    the tunnel device down, and still [cmdDel] returns
    [ip.ErrLinkNotFound], the error of the link removal, as its own. *)
Theorem cmdDel_fails_when_link_gone :
  let args := Ex.args Ex.conf in
  let w := Ex.host_link_gone in
  (exists i, ipam.New (main.ipamConfig Ex.conf) (w_fs w) = Ok i /\
             ipam.Release (main.ContainerID args) i (w_fs w) = (Ok tt, i, w_fs w)) /\
  Forall (fun op => ~ tears_down op) (w_trace (main.cmdDel args w).2) /\
  (EmptyString, "vxlan10"%string) ∈ w_links (main.cmdDel args w).2 /\
  (main.cmdDel args w).1 = Err ErrLinkNotFound.
Proof.
  cbv zeta. split; [|split; [|split]].
  - eexists. split; [vm_compute; reflexivity|]. apply Release_absent. reflexivity.
  - apply cmdDel_keeps_tunnel. constructor.
  - apply (bool_decide_unpack _). vm_compute. exact I.
  - vm_compute. reflexivity.
Qed.

(** ** What the parsers of [net] return *)

Lemma byte_of_range c : 0 <= net.byte_of c < 256.
Proof.
  unfold net.byte_of. pose proof (N_ascii_bounded c). lia.
Qed.

Lemma is_digit_range c : net.is_digit c = true -> 48 <= net.byte_of c <= 57.
Proof. unfold net.is_digit. lia. Qed.

Lemma parseIPv4Fields_loop_valid s first prev val digLen fields r :
  net.parseIPv4Fields_loop s first prev val digLen fields = Some r ->
  wf_bytes fields -> 0 <= val < 256 -> (length fields <= 3)%nat ->
  wf_bytes r /\ length r = 4%nat.
Proof.
  revert first prev val digLen fields.
  induction s as [|c s IH]; intros first prev val digLen fields; simpl.
  - destruct (length fields <? 3)%nat eqn:E; [discriminate|].
    intros [= <-] Hf Hv Hl. apply Nat.ltb_ge in E. split.
    + apply Forall_app. split; [exact Hf|]. constructor; [lia|constructor].
    + rewrite length_app. simpl. lia.
  - destruct (net.is_digit c) eqn:Ed.
    + apply is_digit_range in Ed.
      destruct ((digLen =? 1)%nat && (val =? 0)); [discriminate|].
      destruct (255 <? val * 10 + net.byte_of c - 48) eqn:E; [discriminate|].
      intros H Hf Hv Hl. eapply IH; eauto. lia.
    + destruct (net.is_char c "."); [|discriminate].
      destruct (first || net.str_empty s || prev); [discriminate|].
      destruct (length fields =? 3)%nat eqn:E; [discriminate|].
      apply Nat.eqb_neq in E.
      intros H Hf Hv Hl. eapply IH; eauto.
      * apply Forall_app. split; [exact Hf|]. constructor; [lia|constructor].
      * lia.
      * rewrite length_app. simpl. lia.
Qed.

Lemma parseIPv4Fields_valid s r :
  net.parseIPv4Fields s = Some r -> wf_bytes r /\ length r = 4%nat.
Proof.
  intros H.
  apply (parseIPv4Fields_loop_valid _ _ _ _ _ _ _ H); [constructor | lia | simpl; lia].
Qed.

Lemma hexval_range c v : net.hexval c = Some v -> 0 <= v < 16.
Proof.
  unfold net.hexval.
  repeat match goal with |- context [if ?b then _ else _] => destruct b eqn:? end;
    intros [= <-]; lia.
Qed.

Lemma scanHex_range s off acc off' acc' s' :
  net.scanHex s off acc = Some (off', acc', s') ->
  0 <= acc < 65536 -> 0 <= acc' < 65536.
Proof.
  revert off acc. induction s as [|c s IH]; intros off acc; simpl.
  - intros [= <- <- <-]. auto.
  - destruct (net.hexval c) as [v|] eqn:Ev; [|intros [= <- <- <-]; auto].
    apply hexval_range in Ev.
    destruct (3 <? off)%nat; [discriminate|].
    destruct (65535 <? Z.shiftl acc 4 + v) eqn:E; [discriminate|].
    intros H Ha. eapply IH; eauto. rewrite Z.shiftl_mul_pow2 in * by lia. lia.
Qed.

Lemma group_bytes_wf acc :
  0 <= acc < 65536 -> wf_bytes [Z.shiftr acc 8; acc mod 256].
Proof.
  intros H. rewrite Z.shiftr_div_pow2 by lia. change (2 ^ 8) with 256.
  constructor; [|constructor; [|constructor]].
  - split; [apply Z.div_pos; lia | apply Z.div_lt_upper_bound; lia].
  - apply Z.mod_pos_bound. lia.
Qed.

Lemma partial_v6_group ip acc :
  partial_v6 ip -> (length ip < 16)%nat -> 0 <= acc < 65536 ->
  partial_v6 (ip ++ [Z.shiftr acc 8; acc mod 256]).
Proof.
  intros (Hw & Hl & He) Hlt Ha. unfold partial_v6.
  rewrite length_app. simpl. split; [|split].
  - apply Forall_app. split; [exact Hw | now apply group_bytes_wf].
  - assert (length ip <> 15)%nat; [|lia].
    intros E. rewrite E in He. discriminate.
  - replace (length ip + 2)%nat with (S (S (length ip))) by lia. exact He.
Qed.

Lemma parseIPv6_loop_valid fuel s ip ell ip' ell' s' :
  net.parseIPv6_loop fuel s ip ell = Some (ip', ell', s') ->
  partial_v6 ip -> partial_v6 ip'.
Proof.
  revert s ip ell.
  induction fuel as [|fuel IH]; intros s ip ell; cbn [net.parseIPv6_loop].
  - intros [= <- <- <-]. auto.
  - destruct (16 <=? length ip)%nat eqn:E16; [intros [= <- <- <-]; auto|].
    apply Nat.leb_gt in E16.
    destruct (net.scanHex s 0 0) as [[[off acc] s1]|] eqn:Es; [|discriminate].
    apply scanHex_range in Es; [|lia].
    destruct (off =? 0)%nat; [discriminate|].
    destruct s1 as [|c s2].
    { intros [= <- <- <-] Hp. now apply partial_v6_group. }
    destruct (net.is_char c ".").
    { destruct (negb (net.is_Some_b ell) && negb (length ip =? 12)%nat);
        [discriminate|].
      destruct (16 <? length ip + 4)%nat eqn:E4; [discriminate|].
      apply Nat.ltb_ge in E4.
      destruct (net.parseIPv4Fields s) as [f|] eqn:Ef; [|discriminate].
      apply parseIPv4Fields_valid in Ef. destruct Ef as [Hfw Hfl].
      intros [= <- <- <-] (Hw & Hl & He). unfold partial_v6.
      rewrite length_app, Hfl. split; [|split].
      - apply Forall_app. auto.
      - lia.
      - replace (length ip + 4)%nat with (S (S (S (S (length ip))))) by lia.
        exact He. }
    destruct (negb (net.is_char c ":")); [discriminate|].
    destruct s2 as [|c2 s3]; [discriminate|].
    destruct (net.is_char c2 ":").
    + destruct (net.is_Some_b ell); [discriminate|].
      destruct (net.str_empty s3).
      * intros [= <- <- <-] Hp. now apply partial_v6_group.
      * intros H Hp. eapply IH; eauto. now apply partial_v6_group.
    + intros H Hp. eapply IH; eauto. now apply partial_v6_group.
Qed.

Lemma wf_bytes_replicate n : wf_bytes (replicate n 0).
Proof. apply Forall_replicate. lia. Qed.

Lemma parseIPv6_valid s b z :
  net.parseIPv6 s = Some (net.Addr6 b z) -> wf_bytes b /\ length b = 16%nat.
Proof.
  unfold net.parseIPv6.
  destruct (net.split_zone s) as [s1 oz].
  destruct oz as [[|zc zs]|]; [discriminate| |].
  all: match goal with
       | |- context [let '(_, _) := ?st in _] => destruct st as [s2 ell]
       end.
  all: destruct (net.is_Some_b ell && net.str_empty s2);
    [intros [= <- <-]; split; [apply (wf_bytes_replicate 16) | reflexivity]|].
  all: destruct (net.parseIPv6_loop 9 s2 [] ell) as [[[ip ell'] s3]|] eqn:El;
    [|discriminate].
  all: apply parseIPv6_loop_valid in El;
    [|split; [constructor | split; [simpl; lia | reflexivity]]].
  all: destruct El as (Hw & Hl & He).
  all: destruct (negb (net.str_empty s3)); [discriminate|].
  all: destruct (length ip <? 16)%nat eqn:E16.
  all: try (destruct ell' as [e|]; [|discriminate]; intros [= <- <-]; split;
            [ apply Forall_app; split; [now apply Forall_take|];
              apply Forall_app; split; [apply wf_bytes_replicate | now apply Forall_drop]
            | apply Nat.ltb_lt in E16;
              rewrite !length_app, length_replicate, length_take, length_drop; lia ]).
  all: destruct (net.is_Some_b ell'); [discriminate|].
  all: apply Nat.ltb_ge in E16; intros [= <- <-]; split; [exact Hw | lia].
Qed.

Lemma parseIPv6_Addr6 s a :
  net.parseIPv6 s = Some a -> exists b z, a = net.Addr6 b z.
Proof.
  unfold net.parseIPv6.
  destruct (net.split_zone s) as [s1 oz].
  destruct oz as [[|zc zs]|]; [discriminate| |].
  all: match goal with
       | |- context [let '(_, _) := ?st in _] => destruct st as [s2 ell]
       end.
  all: repeat match goal with
         | |- context [if ?b then _ else _] => destruct b
         | |- context [match ?x with _ => _ end] => destruct x
         end;
       try discriminate; intros [= <-]; eauto.
Qed.

Lemma ParseAddr_valid s a :
  net.ParseAddr s = Some a ->
  match a with
  | net.Addr4 b => wf_bytes b /\ length b = 4%nat
  | net.Addr6 b _ => wf_bytes b /\ length b = 16%nat
  end.
Proof.
  unfold net.ParseAddr. generalize s at 1. intros whole.
  induction s as [|c s IH]; simpl; [discriminate|].
  destruct (net.is_char c ".").
  { unfold net.parseIPv4.
    destruct (net.parseIPv4Fields whole) as [f|] eqn:Ef; [|discriminate].
    intros [= <-]. exact (parseIPv4Fields_valid _ _ Ef). }
  destruct (net.is_char c ":").
  { intros H. destruct (parseIPv6_Addr6 _ _ H) as (b & z & ->).
    now apply parseIPv6_valid in H. }
  destruct (net.is_char c "%"); [discriminate|]. exact IH.
Qed.

Lemma wf_bytes_v4InV6Prefix : wf_bytes net.v4InV6Prefix.
Proof. repeat constructor; lia. Qed.

Lemma As16_valid s a :
  net.ParseAddr s = Some a ->
  wf_bytes (net.As16 a) /\ length (net.As16 a) = 16%nat.
Proof.
  intros H. apply ParseAddr_valid in H. destruct a as [b|b z]; cbn [net.As16].
  - destruct H as [Hw Hl]. split.
    + apply Forall_app. split; [apply wf_bytes_v4InV6Prefix | exact Hw].
    + rewrite length_app, Hl. reflexivity.
  - exact H.
Qed.

Lemma ParseIP_valid s ip :
  net.ParseIP s = Some ip -> wf_bytes ip /\ length ip = 16%nat.
Proof.
  unfold net.ParseIP. destruct (net.ParseAddr s) as [a|] eqn:Ea; [|discriminate].
  destruct (net.str_empty (net.Zone a)); [|discriminate].
  intros [= <-]. eapply As16_valid; eauto.
Qed.

Lemma byte_land a m : 0 <= a < 256 -> 0 <= Z.land a m < 256.
Proof.
  intros Ha.
  assert (E : Z.land a m = Z.land a m mod 2 ^ 8).
  { rewrite <- Z.land_ones by lia.
    rewrite <- Z.land_assoc, (Z.land_comm m), Z.land_assoc.
    rewrite (Z.land_ones a) by lia. rewrite Z.mod_small; [reflexivity|].
    change (2 ^ 8) with 256. lia. }
  rewrite E. apply Z.mod_pos_bound. lia.
Qed.

Lemma wf_bytes_zip_land a m : wf_bytes a -> wf_bytes (zip_with Z.land a m).
Proof.
  intros H. revert m. induction H as [|x a Hx Ha IH]; intros [|y m]; simpl;
    try constructor.
  - now apply byte_land.
  - apply IH.
Qed.

Lemma CIDRMask_loop_length l n : length (net.CIDRMask_loop l n) = l.
Proof.
  revert n. induction l as [|l IH]; intros n; simpl; [reflexivity|].
  destruct (8 <=? n); simpl; now rewrite IH.
Qed.

Lemma wf_subnet_IP sn ones : wf_subnet sn ones -> wf_bytes (net.IPNet_IP sn).
Proof.
  intros (_ & _ & _ & a & _ & Ha & E). rewrite E. now apply wf_bytes_zip_land.
Qed.

Lemma wf_subnet_Mask_length sn ones :
  wf_subnet sn ones -> length (net.IPNet_Mask sn) = length (net.IPNet_IP sn).
Proof. intros (_ & _ & E & _). rewrite E. apply CIDRMask_loop_length. Qed.

Lemma Mask_v4 b m :
  length b = 4%nat -> length m = 4%nat ->
  net.Mask (net.v4InV6Prefix ++ b) m = Some (zip_with Z.land b m).
Proof.
  intros Hb Hm.
  do 5 (destruct b as [|? b]; try discriminate Hb).
  do 5 (destruct m as [|? m]; try discriminate Hm).
  reflexivity.
Qed.

Lemma Mask_v6 b m :
  length b = 16%nat -> length m = 16%nat ->
  net.Mask b m = Some (zip_with Z.land b m).
Proof.
  intros Hb Hm.
  do 17 (destruct b as [|? b]; try discriminate Hb).
  do 17 (destruct m as [|? m]; try discriminate Hm).
  reflexivity.
Qed.

Lemma wf_subnet_intro a l n :
  length a = l -> (l = 4%nat \/ l = 16%nat) -> wf_bytes a ->
  0 <= n <= 8 * Z.of_nat l ->
  wf_subnet (net.mkIPNet (zip_with Z.land a (net.CIDRMask_loop l n))
                         (net.CIDRMask_loop l n)) n.
Proof.
  intros Hl Hc Hw Hn. unfold wf_subnet. cbn [net.IPNet_IP net.IPNet_Mask].
  assert (E : length (zip_with Z.land a (net.CIDRMask_loop l n)) = l).
  { rewrite length_zip_with, CIDRMask_loop_length, Hl. lia. }
  rewrite E. split; [exact Hc|]. split; [exact Hn|]. split; [reflexivity|].
  exists a. auto.
Qed.

Lemma ParseCIDR_wf s x sn :
  net.ParseCIDR s = Some (x, sn) -> exists ones, wf_subnet sn ones.
Proof.
  unfold net.ParseCIDR.
  destruct (net.split_slash s) as [[addr mask]|]; [|discriminate].
  destruct (net.ParseAddr addr) as [a|] eqn:Ea; [|discriminate].
  destruct (negb (net.str_empty (net.Zone a))); [discriminate|].
  destruct (net.dtoi mask) as [[n k] ok].
  destruct (negb ok || negb (k =? String.length mask)%nat || (n <? 0)
            || (net.BitLen a <? n)) eqn:Echk; [discriminate|].
  apply orb_false_elim in Echk. destruct Echk as [Echk Hhi].
  apply orb_false_elim in Echk. destruct Echk as [_ Hlo].
  apply Z.ltb_ge in Hhi, Hlo.
  pose proof (ParseAddr_valid _ _ Ea) as Hv.
  unfold net.CIDRMask.
  destruct a as [b|b z]; destruct Hv as [Hw Hl]; cbn [net.BitLen net.As16] in *.
  - destruct ((n <? 0) || (32 <? n)) eqn:E; [lia|]. clear E.
    change (negb (32 =? 32) && negb (32 =? 128)) with false. cbv iota.
    change (Z.to_nat (32 / 8)) with 4%nat.
    rewrite Mask_v4 by (auto using CIDRMask_loop_length).
    intros H. assert (E : sn = net.mkIPNet (zip_with Z.land b (net.CIDRMask_loop 4 n))
                                           (net.CIDRMask_loop 4 n)) by congruence.
    subst sn. exists n. apply (wf_subnet_intro b 4 n); auto; lia.
  - destruct ((n <? 0) || (128 <? n)) eqn:E; [lia|]. clear E.
    change (negb (128 =? 32) && negb (128 =? 128)) with false. cbv iota.
    change (Z.to_nat (128 / 8)) with 16%nat.
    rewrite Mask_v6 by (auto using CIDRMask_loop_length).
    intros H. assert (E : sn = net.mkIPNet (zip_with Z.land b (net.CIDRMask_loop 16 n))
                                           (net.CIDRMask_loop 16 n)) by congruence.
    subst sn. exists n. apply (wf_subnet_intro b 16 n); auto; lia.
Qed.

(** ** Loading the record *)

Lemma load_fold i (m : gmap string string) :
  loaded i m (map_fold load_step (Ok i) m).
Proof.
  apply (map_fold_weak_ind (fun r m => loaded i m r)).
  - simpl. repeat split; auto. intros id s. rewrite lookup_empty. discriminate.
  - intros id s m' r Hnone Hr. destruct r as [i'|e|]; simpl in *; [| |exact Hr].
    + destruct Hr as (Hs & Hg & Hd & Hl & Hp).
      destruct (net.ParseIP s) as [ip|] eqn:Eip; simpl.
      * repeat split; auto.
        -- intros id'. destruct (decide (id = id')) as [<-|Hne].
           ++ now rewrite !lookup_insert_eq.
           ++ rewrite !lookup_insert_ne by exact Hne. apply Hl.
        -- intros id' s'. destruct (decide (id = id')) as [<-|Hne].
           ++ rewrite lookup_insert_eq. intros [= <-]. now rewrite Eip.
           ++ rewrite lookup_insert_ne by exact Hne. apply Hp.
      * split; [reflexivity|]. exists id, s. now rewrite lookup_insert_eq.
    + destruct Hr as (-> & id' & s' & Hl & Hp). split; [reflexivity|].
      exists id', s'. split; [|exact Hp].
      rewrite lookup_insert_ne; [exact Hl|]. intros <-. congruence.
Qed.

Lemma loadAllocations_unfold i fs :
  ipam.loadAllocations i fs =
  match os_ReadFile fs (ipam.allocationsFile i) with
  | ReadNotExist => Ok i
  | ReadError => Err ErrReadAllocations
  | ReadData Malformed => Err ErrParseAllocations
  | ReadData (JSONObject allocations) => map_fold load_step (Ok i) allocations
  end.
Proof. reflexivity. Qed.

(** What a successful [New] has established. *)
Lemma New_Ok config fs i :
  ipam.New config fs = Ok i ->
  exists x sn gw,
    net.ParseCIDR (ipam.cfg_Subnet config) = Some (x, sn) /\
    net.ParseIP (ipam.cfg_Gateway config) = Some gw /\
    fs_mkdir_fails fs = false /\
    ipam.Subnet i = sn /\ ipam.Gateway i = gw /\
    ipam.loadAllocations
      (ipam.mkIPAM sn gw ∅
         (if net.str_empty (ipam.cfg_DataDir config)
          then "/var/lib/cni/xvm-cni"%string else ipam.cfg_DataDir config)) fs
      = Ok i.
Proof.
  unfold ipam.New.
  destruct (net.ParseCIDR _) as [[x sn]|] eqn:Es; [|discriminate].
  destruct (net.ParseIP _) as [gw|] eqn:Eg; [|discriminate].
  unfold os_MkdirAll. destruct (fs_mkdir_fails fs) eqn:Em; [discriminate|].
  simpl. intros H. exists x, sn, gw. repeat split; auto.
  - rewrite loadAllocations_unfold in H.
    destruct (os_ReadFile _ _) as [[|m]| |]; try discriminate.
    + pose proof (load_fold (ipam.mkIPAM sn gw ∅
         (if net.str_empty (ipam.cfg_DataDir config)
          then "/var/lib/cni/xvm-cni"%string else ipam.cfg_DataDir config)) m) as L.
      rewrite H in L. simpl in L. tauto.
    + now injection H as <-.
  - rewrite loadAllocations_unfold in H.
    destruct (os_ReadFile _ _) as [[|m]| |]; try discriminate.
    + pose proof (load_fold (ipam.mkIPAM sn gw ∅
         (if net.str_empty (ipam.cfg_DataDir config)
          then "/var/lib/cni/xvm-cni"%string else ipam.cfg_DataDir config)) m) as L.
      rewrite H in L. simpl in L. tauto.
    + now injection H as <-.
Qed.

(** ** The constructor *)

(** C7. With a subnet that parses, a gateway string that does not makes
    [New] fail with the invalid-gateway error, and no instance exists to
    allocate from. A record file that is there and is not a JSON object
    of strings, or holds a value that is not an address, makes loading,
    and with it [New], fail. With no record file, [New] returns an
    instance whose mapping is empty. *)
Theorem New_failures_and_first_run config fs x sn :
  net.ParseCIDR (ipam.cfg_Subnet config) = Some (x, sn) ->
  (net.ParseIP (ipam.cfg_Gateway config) = None ->
   ipam.New config fs = Err ErrInvalidGateway) /\
  (forall gw,
     net.ParseIP (ipam.cfg_Gateway config) = Some gw ->
     fs_mkdir_fails fs = false ->
     let i0 := ipam.mkIPAM sn gw ∅
                 (if net.str_empty (ipam.cfg_DataDir config)
                  then "/var/lib/cni/xvm-cni"%string
                  else ipam.cfg_DataDir config) in
     ipam.New config fs = ipam.loadAllocations i0 fs /\
     (os_ReadFile fs (ipam.allocationsFile i0) = ReadData Malformed ->
      ipam.loadAllocations i0 fs = Err ErrParseAllocations) /\
     (forall m id s,
        os_ReadFile fs (ipam.allocationsFile i0) = ReadData (JSONObject m) ->
        m !! id = Some s -> net.ParseIP s = None ->
        ipam.loadAllocations i0 fs = Err ErrInvalidAllocationIP) /\
     (os_ReadFile fs (ipam.allocationsFile i0) = ReadNotExist ->
      ipam.New config fs = Ok i0 /\ ipam.Allocations i0 = ∅)).
Proof.
  intros Hs. split.
  - intros Hg. unfold ipam.New. now rewrite Hs, Hg.
  - intros gw Hg Hm i0.
    assert (HN : ipam.New config fs = ipam.loadAllocations i0 fs).
    { unfold ipam.New, os_MkdirAll. now rewrite Hs, Hg, Hm. }
    split; [exact HN|]. split; [|split].
    + intros Hr. rewrite loadAllocations_unfold, Hr. reflexivity.
    + intros m id s Hr Hl Hp. rewrite loadAllocations_unfold, Hr.
      pose proof (load_fold i0 m) as L.
      destruct (map_fold load_step (Ok i0) m) as [i'|e|]; simpl in L.
      * destruct L as (_ & _ & _ & _ & L). specialize (L _ _ Hl).
        rewrite Hp in L. now destruct L.
      * now destruct L as [-> _].
      * contradiction.
    + intros Hr. split; [|reflexivity].
      rewrite HN, loadAllocations_unfold, Hr. reflexivity.
Qed.

Lemma New_failures_and_first_run_witness :
  ipam.New Ex.cfg_bad_gateway Ex.fs = Err ErrInvalidGateway /\
  ipam.New Ex.cfg Ex.fs = Ok Ex.i0 /\ ipam.Allocations Ex.i0 = ∅.
Proof.
  assert (Hs : net.ParseCIDR "10.244.0.0/24"
               = Some ([0; 0; 0; 0; 0; 0; 0; 0; 0; 0; 255; 255; 10; 244; 0; 0],
                       net.mkIPNet [10; 244; 0; 0] [255; 255; 255; 0])).
  { vm_compute. reflexivity. }
  split.
  - apply (proj1 (New_failures_and_first_run Ex.cfg_bad_gateway Ex.fs _ _ Hs)).
    vm_compute. reflexivity.
  - apply (proj2 (New_failures_and_first_run Ex.cfg Ex.fs _ _ Hs)
             [0; 0; 0; 0; 0; 0; 0; 0; 0; 0; 255; 255; 10; 244; 0; 1]);
      vm_compute; reflexivity.
Defined.

(** ** Uniqueness *)

Lemma Equal_sym a b : net.Equal a b = net.Equal b a.
Proof.
  unfold net.Equal, net.bytesEqual.
  rewrite (Nat.eqb_sym (length b) (length a)).
  destruct (length a =? length b)%nat eqn:E.
  - apply bool_decide_ext. split; congruence.
  -
    destruct (length a =? net.IPv4len)%nat eqn:E4a;
      destruct (length b =? net.IPv6len)%nat eqn:E6b;
      destruct (length a =? net.IPv6len)%nat eqn:E6a;
      destruct (length b =? net.IPv4len)%nat eqn:E4b; simpl; try reflexivity.
    all: try (f_equal; apply bool_decide_ext; split; congruence).
    all: apply Nat.eqb_eq in E4a, E6a; unfold net.IPv4len, net.IPv6len in *; lia.
Qed.

(** Two addresses of one length that equal a third are the same bytes. *)
Lemma Equal_same_length a b c :
  net.Equal a c = true -> net.Equal b c = true -> length a = length b -> a = b.
Proof.
  unfold net.Equal, net.bytesEqual. intros Ha Hb Hl. rewrite <- Hl in Hb.
  destruct (length a =? length c)%nat.
  - apply bool_decide_eq_true in Ha, Hb. congruence.
  - destruct ((length a =? net.IPv4len)%nat && (length c =? net.IPv6len)%nat).
    + apply andb_true_iff in Ha, Hb. destruct Ha as [_ Ha], Hb as [_ Hb].
      apply bool_decide_eq_true in Ha, Hb. congruence.
    + destruct ((length a =? net.IPv6len)%nat && (length c =? net.IPv4len)%nat);
        [|discriminate].
      apply andb_true_iff in Ha, Hb. destruct Ha as [Ha1 Ha2], Hb as [Hb1 Hb2].
      apply bool_decide_eq_true in Ha1, Ha2, Hb1, Hb2.
      rewrite <- (take_drop 12 a), <- (take_drop 12 b). congruence.
Qed.

Lemma inc_from_last_length r : length (ipam.inc_from_last r) = length r.
Proof.
  induction r as [|b r IH]; simpl; [reflexivity|].
  destruct (0 <? (b + 1) mod 256); simpl; congruence.
Qed.

Lemma inc_length ip : length (ipam.inc ip) = length ip.
Proof. unfold ipam.inc. now rewrite length_rev, inc_from_last_length, length_rev. Qed.

Lemma inc_from_last_neq r : r <> [] -> ipam.inc_from_last r <> r.
Proof.
  destruct r as [|b r]; [congruence|]. intros _. simpl.
  assert (Hb : (b + 1) mod 256 <> b).
  { intros E. pose proof (Z.mod_pos_bound (b + 1) 256 ltac:(lia)) as Hr.
    rewrite E in Hr. destruct (Z.eq_dec b 255) as [->|Hb]; [discriminate E|].
    rewrite Z.mod_small in E by lia. lia. }
  destruct (0 <? (b + 1) mod 256); congruence.
Qed.

Lemma inc_neq ip : ip <> [] -> ipam.inc ip <> ip.
Proof.
  intros Hne E. unfold ipam.inc in E.
  apply (inc_from_last_neq (rev ip)).
  - intros E'. apply Hne. now rewrite <- (rev_involutive ip), E'.
  - rewrite <- (rev_involutive (ipam.inc_from_last (rev ip))), E. reflexivity.
Qed.

Lemma skipGateway_length i ip :
  length (ipam.skipGateway i ip) = length ip.
Proof. unfold ipam.skipGateway. destruct (net.Equal _ _); auto using inc_length. Qed.

Lemma skipGateway_not_gateway i ip :
  ip <> [] -> net.Equal (ipam.skipGateway i ip) (ipam.Gateway i) = false.
Proof.
  intros Hne. unfold ipam.skipGateway.
  destruct (net.Equal ip (ipam.Gateway i)) eqn:E; [|exact E].
  destruct (net.Equal (ipam.inc ip) (ipam.Gateway i)) eqn:E'; [|reflexivity].
  exfalso. apply (inc_neq ip Hne).
  apply (Equal_same_length _ _ _ E' E). apply inc_length.
Qed.

Lemma length_nonempty {A} (l : list A) : (0 < length l)%nat -> l <> [].
Proof. destruct l; simpl; [lia | congruence]. Qed.

Lemma allocated_false i ip :
  ipam.allocated i ip = false ->
  forall id v, ipam.Allocations i !! id = Some v -> net.Equal ip v = false.
Proof.
  unfold ipam.allocated. intros H id v Hl.
  destruct (net.Equal ip v) eqn:E; [|reflexivity].
  assert (Hex : existsb (fun kv => net.Equal ip kv.2)
                  (map_to_list (ipam.Allocations i)) = true).
  { apply existsb_exists. exists (id, v). split; [|exact E].
    apply list_elem_of_In. now apply elem_of_map_to_list. }
  congruence.
Qed.

Lemma allocated_true i ip :
  ipam.allocated i ip = true ->
  exists id v, ipam.Allocations i !! id = Some v /\ net.Equal ip v = true.
Proof.
  unfold ipam.allocated. intros H. apply existsb_exists in H.
  destruct H as ([id v] & Hin & E). exists id, v. split; [|exact E].
  apply elem_of_map_to_list. now apply list_elem_of_In.
Qed.

(** What the scan returns is in the subnet, is nobody's, and is not the
    gateway. *)
Lemma findAvailableIP_loop_Ok fuel i ip r :
  ipam.findAvailableIP_loop fuel i ip = Ok r ->
  ip <> [] -> net.Equal ip (ipam.Gateway i) = false ->
  net.Contains (ipam.Subnet i) r = true /\ ipam.allocated i r = false /\
  net.Equal r (ipam.Gateway i) = false /\
  length r = length ip.
Proof.
  revert ip. induction fuel as [|fuel IH]; intros ip; simpl; [discriminate|].
  destruct (net.Contains (ipam.Subnet i) ip) eqn:Ec; simpl; [|discriminate].
  destruct (ipam.allocated i ip) eqn:Ea; simpl.
  - intros H Hne Hg.
    assert (Hne' : ipam.inc ip <> []).
    { apply length_nonempty. rewrite inc_length.
      destruct ip; [congruence | simpl; lia]. }
    destruct (IH _ H) as (H1 & H2 & H3 & H4).
    + apply length_nonempty. rewrite skipGateway_length.
      destruct (ipam.inc ip); [congruence | simpl; lia].
    + now apply skipGateway_not_gateway.
    + repeat split; auto. now rewrite H4, skipGateway_length, inc_length.
  - intros [= <-] Hne Hg. auto.
Qed.

Lemma findAvailableIP_Ok i r :
  ipam.findAvailableIP i = Ok r ->
  net.IPNet_IP (ipam.Subnet i) <> [] ->
  net.Contains (ipam.Subnet i) r = true /\ ipam.allocated i r = false /\
  net.Equal r (ipam.Gateway i) = false /\
  length r = length (net.IPNet_IP (ipam.Subnet i)).
Proof.
  unfold ipam.findAvailableIP. intros H Hne.
  assert (Hne' : ipam.inc (net.IPNet_IP (ipam.Subnet i)) <> []).
  { apply length_nonempty. rewrite inc_length.
    destruct (net.IPNet_IP (ipam.Subnet i)); [congruence | simpl; lia]. }
  destruct (findAvailableIP_loop_Ok _ _ _ _ H) as (H1 & H2 & H3 & H4).
  - apply length_nonempty. rewrite skipGateway_length.
    destruct (ipam.inc _); [congruence | simpl; lia].
  - now apply skipGateway_not_gateway.
  - repeat split; auto. now rewrite H4, skipGateway_length, inc_length.
Qed.

(** The fields the operations leave alone. *)
Lemma Allocate_fields id i fs :
  ipam.Subnet (ipam.Allocate id i fs).1.2 = ipam.Subnet i /\
  ipam.Gateway (ipam.Allocate id i fs).1.2 = ipam.Gateway i /\
  ipam.dataDir (ipam.Allocate id i fs).1.2 = ipam.dataDir i.
Proof.
  unfold ipam.Allocate.
  destruct (ipam.Allocations i !! id); [auto|].
  destruct (ipam.findAvailableIP i); [|auto|auto].
  destruct (ipam.saveAllocations _ fs) as [[[]|e|] fs']; auto.
Qed.

Lemma Release_fields id i fs :
  ipam.Subnet (ipam.Release id i fs).1.2 = ipam.Subnet i /\
  ipam.Gateway (ipam.Release id i fs).1.2 = ipam.Gateway i /\
  ipam.dataDir (ipam.Release id i fs).1.2 = ipam.dataDir i.
Proof.
  unfold ipam.Release.
  destruct (ipam.Allocations i !! id); [|auto].
  destruct (ipam.saveAllocations _ fs) as [[[]|e|] fs']; auto.
Qed.

(** The mapping after [Allocate]: as it was, or with the address the scan
    found under the new identifier. *)
Lemma Allocate_Allocations id i fs :
  ipam.Allocations (ipam.Allocate id i fs).1.2 = ipam.Allocations i \/
  exists ip, ipam.Allocations i !! id = None /\
             ipam.findAvailableIP i = Ok ip /\
             ipam.Allocations (ipam.Allocate id i fs).1.2
               = <[id := ip]> (ipam.Allocations i).
Proof.
  unfold ipam.Allocate.
  destruct (ipam.Allocations i !! id) eqn:El; [auto|].
  destruct (ipam.findAvailableIP i) as [ip| |] eqn:Ef; [|auto|auto].
  right. exists ip.
  destruct (ipam.saveAllocations _ fs) as [[[]|e|] fs']; auto.
Qed.

Lemma Release_Allocations id i fs :
  ipam.Allocations (ipam.Release id i fs).1.2 = delete id (ipam.Allocations i).
Proof.
  unfold ipam.Release.
  destruct (ipam.Allocations i !! id) eqn:El.
  - destruct (ipam.saveAllocations _ fs) as [[[]|e|] fs']; auto.
  - simpl. symmetry. now apply delete_id.
Qed.

Lemma reachable_fields i0 i :
  reachable i0 i ->
  ipam.Subnet i = ipam.Subnet i0 /\ ipam.Gateway i = ipam.Gateway i0 /\
  ipam.dataDir i = ipam.dataDir i0.
Proof.
  induction 1 as [|i id fs _ IH|i id fs _ IH]; [auto| |].
  - destruct (Allocate_fields id i fs) as (-> & -> & ->). exact IH.
  - destruct (Release_fields id i fs) as (-> & -> & ->). exact IH.
Qed.

Lemma Allocate_keeps_injective id i fs :
  net.IPNet_IP (ipam.Subnet i) <> [] ->
  injective i /\ gateway_free i ->
  injective (ipam.Allocate id i fs).1.2 /\ gateway_free (ipam.Allocate id i fs).1.2.
Proof.
  intros Hne [Hi Hg].
  destruct (Allocate_fields id i fs) as (_ & Egw & _).
  unfold injective, gateway_free. rewrite Egw.
  destruct (Allocate_Allocations id i fs) as [->|(ip & Hnone & Hf & ->)]; [auto|].
  destruct (findAvailableIP_Ok _ _ Hf Hne) as (_ & Ha & Hgw & _).
  pose proof (allocated_false _ _ Ha) as Hfree.
  split.
  - intros id1 id2 ip1 ip2 Hne12.
    destruct (decide (id = id1)) as [<-|N1]; destruct (decide (id = id2)) as [<-|N2];
      try congruence;
      rewrite ?lookup_insert_eq, ?lookup_insert_ne by assumption.
    + intros [= <-] H2. eapply Hfree; eauto.
    + intros H1 [= <-]. rewrite Equal_sym. eapply Hfree; eauto.
    + now apply Hi.
  - intros id1 ip1. destruct (decide (id = id1)) as [<-|N1].
    + rewrite lookup_insert_eq. now intros [= <-].
    + rewrite lookup_insert_ne by assumption. apply Hg.
Qed.

Lemma Release_keeps_injective id i fs :
  injective i /\ gateway_free i ->
  injective (ipam.Release id i fs).1.2 /\ gateway_free (ipam.Release id i fs).1.2.
Proof.
  intros [Hi Hg].
  destruct (Release_fields id i fs) as (_ & Egw & _).
  unfold injective, gateway_free. rewrite Egw, Release_Allocations.
  split.
  - intros id1 id2 ip1 ip2 Hne H1 H2.
    apply lookup_delete_Some in H1, H2. destruct H1 as [_ H1], H2 as [_ H2].
    now apply (Hi id1 id2).
  - intros id1 ip1 H1. apply lookup_delete_Some in H1. destruct H1 as [_ H1].
    now apply (Hg id1).
Qed.

Lemma New_subnet_nonempty config fs i :
  ipam.New config fs = Ok i -> net.IPNet_IP (ipam.Subnet i) <> [].
Proof.
  intros H. destruct (New_Ok _ _ _ H) as (x & sn & gw & Hs & _ & _ & -> & _).
  destruct (ParseCIDR_wf _ _ _ Hs) as (ones & Hl & _).
  apply length_nonempty. cbv zeta in Hl. lia.
Qed.

Lemma reachable_injective i0 i :
  net.IPNet_IP (ipam.Subnet i0) <> [] ->
  injective i0 /\ gateway_free i0 ->
  reachable i0 i -> injective i /\ gateway_free i.
Proof.
  intros Hne H0. induction 1 as [|i id fs Hr IH|i id fs Hr IH]; [exact H0| |].
  - apply Allocate_keeps_injective; [|exact IH].
    destruct (reachable_fields _ _ Hr) as (-> & _). exact Hne.
  - now apply Release_keeps_injective.
Qed.

Lemma allocateAll_spec i0 ids : forall i fs,
  reachable i0 i ->
  reachable i0 (allocateAll ids i fs).1.2 /\
  (forall id ip, ipam.Allocations i !! id = Some ip ->
                 ipam.Allocations (allocateAll ids i fs).1.2 !! id = Some ip) /\
  (forall k id ip,
     ids !! k = Some id -> (allocateAll ids i fs).1.1 !! k = Some (Ok ip) ->
     ipam.Allocations (allocateAll ids i fs).1.2 !! id = Some ip).
Proof.
  induction ids as [|id ids IH]; intros i fs Hr; simpl.
  - split; [exact Hr|]. split; [auto|]. intros k id ip H. now rewrite lookup_nil in H.
  - pose proof (reach_Allocate i0 i id fs Hr) as Hr1.
    pose proof (Allocate_Ok_lookup id i fs) as Hok.
    assert (Hkeep : forall id' ip, ipam.Allocations i !! id' = Some ip ->
              ipam.Allocations (ipam.Allocate id i fs).1.2 !! id' = Some ip).
    { intros id' ip Hl.
      destruct (Allocate_Allocations id i fs) as [->|(ip' & Hnone & _ & ->)]; [exact Hl|].
      rewrite lookup_insert_ne; [exact Hl|]. intros <-. congruence. }
    destruct (ipam.Allocate id i fs) as [[r i1] fs1]. simpl in *.
    specialize (IH i1 fs1 Hr1).
    destruct (allocateAll ids i1 fs1) as [[rs i2] fs2]. simpl in *.
    destruct IH as (IH1 & IH2 & IH3).
    split; [exact IH1|]. split; [auto|].
    intros [|k] id' ip; simpl.
    + intros [= <-] [= ->]. apply IH2. now apply Hok.
    + apply IH3.
Qed.

(** C1. Starting from the empty mapping, whatever [Allocate] and
    [Release] calls have been made, no two identifiers hold equal
    addresses and none holds the gateway; and when [Allocate] then
    succeeds for each of a list of pairwise distinct identifiers, no two
    of the addresses it returns are equal and none is the gateway. *)
Theorem allocations_unique config fs i0 i :
  ipam.New config fs = Ok i0 ->
  ipam.Allocations i0 = ∅ ->
  reachable i0 i ->
  (injective i /\ gateway_free i) /\
  forall ids fs1,
    NoDup ids ->
    let rs := (allocateAll ids i fs1).1.1 in
    (forall k1 k2 ip1 ip2,
       k1 <> k2 -> rs !! k1 = Some (Ok ip1) -> rs !! k2 = Some (Ok ip2) ->
       net.Equal ip1 ip2 = false) /\
    (forall k ip, rs !! k = Some (Ok ip) ->
                  net.Equal ip (ipam.Gateway i0) = false).
Proof.
  intros HN Hempty Hr.
  pose proof (New_subnet_nonempty _ _ _ HN) as Hne.
  assert (H0 : injective i0 /\ gateway_free i0).
  { unfold injective, gateway_free. rewrite Hempty.
    split; intros *; rewrite ?lookup_empty; discriminate. }
  split; [now apply (reachable_injective i0)|].
  intros ids fs1 Hnd rs.
  destruct (allocateAll_spec i0 ids i fs1 Hr) as (Hr' & _ & Hl).
  destruct (reachable_injective i0 _ Hne H0 Hr') as [Hi Hg].
  destruct (reachable_fields _ _ Hr') as (_ & Egw & _).
  assert (Hlen : forall k ip, rs !! k = Some (Ok ip) -> exists id, ids !! k = Some id).
  { intros k ip Hk. apply lookup_lt_Some in Hk.
    assert (length rs = length ids) as E.
    { clear. subst rs. revert i fs1. induction ids as [|id ids IH]; intros i fs1;
        simpl; [reflexivity|].
      destruct (ipam.Allocate id i fs1) as [[r i1] fs2].
      specialize (IH i1 fs2). destruct (allocateAll ids i1 fs2) as [[rs i2] fs3].
      simpl in *. now rewrite IH. }
    rewrite E in Hk. apply lookup_lt_is_Some_2 in Hk. destruct Hk as [id Hid]. eauto. }
  split.
  - intros k1 k2 ip1 ip2 Hk H1 H2.
    destruct (Hlen _ _ H1) as [id1 Hid1]. destruct (Hlen _ _ H2) as [id2 Hid2].
    apply (Hi id1 id2); eauto.
    intros <-. apply Hk. eapply NoDup_lookup; eauto.
  - intros k ip H1. destruct (Hlen _ _ H1) as [id1 Hid1].
    rewrite <- Egw. apply (Hg id1). eauto.
Qed.

Lemma allocations_unique_witness :
  (injective Ex.i1 /\ gateway_free Ex.i1) /\
  forall ids fs1,
    NoDup ids ->
    let rs := (allocateAll ids Ex.i1 fs1).1.1 in
    (forall k1 k2 ip1 ip2,
       k1 <> k2 -> rs !! k1 = Some (Ok ip1) -> rs !! k2 = Some (Ok ip2) ->
       net.Equal ip1 ip2 = false) /\
    (forall k ip, rs !! k = Some (Ok ip) ->
                  net.Equal ip (ipam.Gateway Ex.i0) = false).
Proof.
  apply (allocations_unique Ex.cfg Ex.fs Ex.i0 Ex.i1).
  - vm_compute. reflexivity.
  - reflexivity.
  - unfold Ex.i1. apply reach_Allocate, reach_init.
Defined.

(** ** Addresses as numbers *)

Lemma pow256_S k : pow256 (S k) = 256 * pow256 k.
Proof. unfold pow256. rewrite Nat2Z.inj_succ, Z.pow_succ_r by lia. reflexivity. Qed.

Lemma pow256_pos k : 0 < pow256 k.
Proof. unfold pow256. apply Z.pow_pos_nonneg; lia. Qed.

Lemma pow256_add j k : pow256 (j + k) = pow256 j * pow256 k.
Proof. unfold pow256. rewrite Nat2Z.inj_add, Z.pow_add_r by lia. reflexivity. Qed.

Lemma pow256_pow2 k : pow256 k = 2 ^ (8 * Z.of_nat k).
Proof. unfold pow256. rewrite Z.pow_mul_r by lia. reflexivity. Qed.

Lemma num_numLE ip : num ip = numLE (rev ip).
Proof. unfold num, numLE. symmetry. apply fold_left_rev_right. Qed.

Lemma numLE_cons b r : numLE (b :: r) = numLE r * 256 + b.
Proof. reflexivity. Qed.

Lemma numLE_bound r : wf_bytes r -> 0 <= numLE r < pow256 (length r).
Proof.
  induction 1 as [|b r Hb _ IH]; [unfold pow256; simpl; lia|].
  rewrite numLE_cons. simpl length. rewrite pow256_S. lia.
Qed.

Lemma numLE_inj r1 r2 :
  wf_bytes r1 -> wf_bytes r2 -> length r1 = length r2 ->
  numLE r1 = numLE r2 -> r1 = r2.
Proof.
  intros H1. revert r2. induction H1 as [|b1 r1 Hb1 _ IH]; intros r2 H2 Hl E.
  - destruct r2; [reflexivity | discriminate].
  - destruct H2 as [|b2 r2 Hb2 H2]; [discriminate|].
    rewrite !numLE_cons in E. injection Hl as Hl.
    assert (b1 = b2 /\ numLE r1 = numLE r2) as [-> E'] by lia.
    f_equal. now apply IH.
Qed.

Lemma numLE_app r1 r2 :
  numLE (r1 ++ r2) = numLE r1 + pow256 (length r1) * numLE r2.
Proof.
  induction r1 as [|b r1 IH]; simpl app.
  - unfold pow256. simpl. lia.
  - rewrite !numLE_cons, IH. simpl length. rewrite pow256_S. lia.
Qed.

Lemma wf_bytes_rev l : wf_bytes l -> wf_bytes (rev l).
Proof. apply Forall_rev. Qed.

Lemma num_bound ip : wf_bytes ip -> 0 <= num ip < pow256 (length ip).
Proof.
  intros H. rewrite num_numLE, <- length_rev. apply numLE_bound, wf_bytes_rev, H.
Qed.

Lemma num_inj a b :
  wf_bytes a -> wf_bytes b -> length a = length b -> num a = num b -> a = b.
Proof.
  intros Ha Hb Hl E. rewrite !num_numLE in E.
  apply numLE_inj in E; auto using wf_bytes_rev.
  - now rewrite <- (rev_involutive a), E, rev_involutive.
  - now rewrite !length_rev.
Qed.

Lemma num_cons b l : num (b :: l) = b * pow256 (length l) + num l.
Proof.
  rewrite !num_numLE. simpl rev. rewrite numLE_app, length_rev.
  rewrite numLE_cons. simpl. lia.
Qed.

Lemma num_app a b : num (a ++ b) = num a * pow256 (length b) + num b.
Proof.
  induction a as [|x a IH]; simpl app.
  - unfold num at 2. simpl. lia.
  - rewrite !num_cons, IH, length_app, pow256_add. lia.
Qed.

(** [inc] adds one, modulo the width of the address. *)
Lemma inc_from_last_wf r : wf_bytes r -> wf_bytes (ipam.inc_from_last r).
Proof.
  induction 1 as [|b r Hb Hr IH]; simpl; [constructor|].
  pose proof (Z.mod_pos_bound (b + 1) 256 ltac:(lia)).
  destruct (0 <? (b + 1) mod 256); constructor; auto.
Qed.

Lemma inc_from_last_num r :
  wf_bytes r ->
  numLE (ipam.inc_from_last r) = (numLE r + 1) mod pow256 (length r).
Proof.
  induction 1 as [|b r Hb Hr IH]; [reflexivity|].
  pose proof (numLE_bound r Hr) as Hbound.
  cbn [ipam.inc_from_last length]. rewrite pow256_S.
  destruct (Z.eq_dec b 255) as [->|Hne].
  - change ((255 + 1) mod 256) with 0. change (0 <? 0) with false. cbv iota.
    rewrite !numLE_cons, IH.
    replace (numLE r * 256 + 255 + 1) with (256 * (numLE r + 1)) by lia.
    rewrite Z.mul_mod_distr_l by (pose proof (pow256_pos (length r)); lia). lia.
  - rewrite (Z.mod_small (b + 1)) by lia.
    destruct (0 <? b + 1) eqn:E; [|lia].
    rewrite !numLE_cons. rewrite Z.mod_small; lia.
Qed.

Lemma inc_wf ip : wf_bytes ip -> wf_bytes (ipam.inc ip).
Proof. intros H. unfold ipam.inc. apply wf_bytes_rev, inc_from_last_wf, wf_bytes_rev, H. Qed.

Lemma inc_num ip :
  wf_bytes ip -> num (ipam.inc ip) = (num ip + 1) mod pow256 (length ip).
Proof.
  intros H. unfold ipam.inc. rewrite !num_numLE, rev_involutive.
  rewrite inc_from_last_num by now apply wf_bytes_rev.
  now rewrite length_rev.
Qed.

(** ** Masks *)

Lemma in_seqZ x m n : m <= x < m + n -> In x (seqZ m n).
Proof. intros H. apply list_elem_of_In, elem_of_seqZ. exact H. Qed.

Lemma partial_mask_byte_checked :
  forallb (fun n =>
    forallb (fun b =>
      Z.land b (Z.lxor 255 (Z.shiftr 255 n)) =? b - b mod 2 ^ (8 - n))
      (seqZ 0 256))
    (seqZ 0 8) = true.
Proof. vm_compute. reflexivity. Qed.

Lemma partial_mask_byte b n :
  0 <= b < 256 -> 0 <= n < 8 ->
  Z.land b (Z.lxor 255 (Z.shiftr 255 n)) = b - b mod 2 ^ (8 - n).
Proof.
  intros Hb Hn. pose proof partial_mask_byte_checked as H.
  rewrite forallb_forall in H. specialize (H n (in_seqZ _ _ _ Hn)).
  rewrite forallb_forall in H. specialize (H b (in_seqZ _ _ _ Hb)).
  now apply Z.eqb_eq in H.
Qed.

Lemma full_mask_byte b : 0 <= b < 256 -> Z.land b 255 = b.
Proof.
  intros Hb. change 255 with (Z.ones 8). rewrite Z.land_ones by lia.
  apply Z.mod_small. change (2 ^ 8) with 256. lia.
Qed.

Lemma partial_mask_ones_checked :
  forallb (fun n =>
    negb (Z.lxor 255 (Z.shiftr 255 n) =? 255)
    && (8 - Z.log2 (256 - Z.lxor 255 (Z.shiftr 255 n)) =? n))
    (seqZ 0 8) = true.
Proof. vm_compute. reflexivity. Qed.

Lemma maskOnes_CIDRMask l : forall n,
  0 <= n <= 8 * Z.of_nat l -> maskOnes (net.CIDRMask_loop l n) = n.
Proof.
  induction l as [|l IH]; intros n Hn; cbn [net.CIDRMask_loop maskOnes].
  - lia.
  - destruct (8 <=? n) eqn:E.
    + apply Z.leb_le in E. cbn [maskOnes]. change (255 =? 255) with true.
      cbv iota. rewrite IH by lia. lia.
    + apply Z.leb_gt in E. cbn [maskOnes].
      pose proof partial_mask_ones_checked as H.
      rewrite forallb_forall in H.
      assert (Hn8 : 0 <= n < 0 + 8) by lia.
      specialize (H n (in_seqZ _ _ _ Hn8)). cbv beta in H.
      apply andb_true_iff in H. destruct H as [H1 H2].
      apply negb_true_iff in H1. rewrite H1. now apply Z.eqb_eq in H2.
Qed.

(** Masking clears the host bits. *)
Lemma masked_num l : forall n a,
  0 <= n <= 8 * Z.of_nat l -> wf_bytes a -> length a = l ->
  num (zip_with Z.land a (net.CIDRMask_loop l n))
    = num a - num a mod 2 ^ (8 * Z.of_nat l - n).
Proof.
  induction l as [|l IH]; intros n a Hn Ha Hl.
  - destruct a; [|discriminate]. simpl. replace n with 0 by lia. reflexivity.
  - destruct a as [|b a]; [discriminate|]. injection Hl as Hl.
    inversion Ha as [|? ? Hb Ha']; subst.
    pose proof (num_bound a Ha') as Hbound.
    pose proof (pow256_pos (length a)) as Hpos.
    cbn [net.CIDRMask_loop].
    destruct (8 <=? n) eqn:E.
    + apply Z.leb_le in E. cbn [zip_with]. rewrite !num_cons.
      rewrite length_zip_with, CIDRMask_loop_length, Nat.min_id.
      rewrite full_mask_byte by exact Hb. rewrite IH by (auto; lia).
      replace (8 * Z.of_nat (S (length a)) - n)
        with (8 * Z.of_nat (length a) - (n - 8)) by lia.
      set (h := 8 * Z.of_nat (length a) - (n - 8)).
      assert (Hh : 0 <= h <= 8 * Z.of_nat (length a)) by (subst h; lia).
      assert (Ep : pow256 (length a) = 2 ^ (8 * Z.of_nat (length a) - h) * 2 ^ h).
      { rewrite pow256_pow2, <- Z.pow_add_r by lia. f_equal. lia. }
      assert (Hm : (b * pow256 (length a) + num a) mod 2 ^ h = num a mod 2 ^ h).
      { rewrite Ep, Z.mul_assoc, Z.add_comm. apply Z_mod_plus_full. }
      rewrite Hm. lia.
    + apply Z.leb_gt in E. cbn [zip_with]. rewrite !num_cons.
      rewrite length_zip_with, CIDRMask_loop_length, Nat.min_id.
      rewrite partial_mask_byte by (auto; lia).
      rewrite (IH 0 a) by (auto; lia).
      rewrite Z.sub_0_r, <- pow256_pow2.
      rewrite (Z.mod_small (num a)) by lia.
      replace (8 * Z.of_nat (S (length a)) - n)
        with (8 * Z.of_nat (length a) + (8 - n)) by lia.
      rewrite Z.pow_add_r, <- pow256_pow2 by lia.
      assert (Hk : 0 < 2 ^ (8 - n)) by (apply Z.pow_pos_nonneg; lia).
      assert (Hm : (b * pow256 (length a) + num a) mod (pow256 (length a) * 2 ^ (8 - n))
                   = num a + pow256 (length a) * (b mod 2 ^ (8 - n))).
      { rewrite Z.rem_mul_r by lia.
        rewrite (Z.add_comm (b * pow256 (length a))), Z_mod_plus_full.
        rewrite Z.div_add by lia.
        rewrite (Z.mod_small (num a)), (Z.div_small (num a)) by lia.
        reflexivity. }
      rewrite Hm. lia.
Qed.

(** ** Subnet membership as a range *)

Section Subnet.
Context (sn : net.IPNet) (ones : Z) (Hwf : wf_subnet sn ones).

Let n := length (net.IPNet_IP sn).
Let h := hostBits sn.

Lemma subnet_n : n = 4%nat \/ n = 16%nat.
Proof. destruct Hwf as (H & _). exact H. Qed.

Lemma subnet_hostBits : h = 8 * Z.of_nat n - ones /\ 0 <= h <= 8 * Z.of_nat n.
Proof.
  destruct Hwf as (_ & Ho & Em & _). subst h. unfold hostBits.
  rewrite Em, maskOnes_CIDRMask by exact Ho. fold n. fold n in Ho. lia.
Qed.

Lemma subnet_netnum :
  netnum sn mod 2 ^ h = 0 /\ 0 <= netnum sn /\ netnum sn + 2 ^ h <= pow256 n.
Proof.
  destruct subnet_hostBits as [Eh Hh].
  destruct Hwf as (_ & Ho & Em & a & Hla & Hwa & Ea). fold n in Ho, Em, Hla.
  assert (E : netnum sn = num a - num a mod 2 ^ h).
  { unfold netnum. rewrite Ea, Em, masked_num by auto. now rewrite Eh. }
  pose proof (num_bound a Hwa) as Hb. rewrite Hla in Hb.
  assert (Hp : 0 < 2 ^ h) by (apply Z.pow_pos_nonneg; lia).
  assert (Ep : pow256 n = 2 ^ (8 * Z.of_nat n - h) * 2 ^ h).
  { rewrite pow256_pow2, <- Z.pow_add_r by lia. f_equal. lia. }
  pose proof (Z.mod_pos_bound (num a) (2 ^ h) Hp) as Hm.
  pose proof (Z.div_mod (num a) (2 ^ h) ltac:(lia)) as Hd.
  assert (E' : netnum sn = 2 ^ h * (num a / 2 ^ h)) by lia.
  split; [|split].
  - rewrite E', Z.mul_comm. apply Z_mod_mult.
  - rewrite E'. apply Z.mul_nonneg_nonneg; [lia|]. apply Z.div_pos; lia.
  - assert (num a / 2 ^ h < 2 ^ (8 * Z.of_nat n - h)).
    { apply Z.div_lt_upper_bound; [lia|]. rewrite Z.mul_comm, <- Ep. lia. }
    rewrite E', Ep. nia.
Qed.

Lemma subnet_IP_fixed :
  zip_with Z.land (net.IPNet_IP sn) (net.IPNet_Mask sn) = net.IPNet_IP sn.
Proof.
  destruct subnet_hostBits as [Eh Hh].
  destruct subnet_netnum as (Hmod & _).
  pose proof (wf_subnet_IP _ _ Hwf) as Hw.
  destruct Hwf as (_ & Ho & Em & _). fold n in Ho, Em.
  apply num_inj.
  - now apply wf_bytes_zip_land.
  - exact Hw.
  - rewrite length_zip_with, Em, CIDRMask_loop_length. fold n. lia.
  - rewrite Em, masked_num by auto. fold (netnum sn). rewrite <- Eh, Hmod. lia.
Qed.

Lemma Contains_loop_zip : forall nn m ip,
  length nn = length m -> length ip = length m ->
  (net.Contains_loop nn m ip = true
   <-> zip_with Z.land nn m = zip_with Z.land ip m).
Proof.
  induction nn as [|a nn IH]; intros [|b m] [|c ip] Hl1 Hl2; try discriminate;
    simpl.
  - tauto.
  - injection Hl1 as Hl1. injection Hl2 as Hl2.
    destruct (Z.land a b =? Z.land c b) eqn:E.
    + apply Z.eqb_eq in E. rewrite IH by assumption. rewrite E.
      split; [intros ->; reflexivity | intros [= ->]; reflexivity].
    + apply Z.eqb_neq in E. split; [discriminate|]. intros [= E' _]. contradiction.
Qed.

(** The byte-wise comparison under the mask is membership of the range
    the network spans. *)
Lemma Contains_loop_range ip :
  wf_bytes ip -> length ip = n ->
  (net.Contains_loop (net.IPNet_IP sn) (net.IPNet_Mask sn) ip = true
   <-> netnum sn <= num ip < subnet_end sn).
Proof.
  intros Hw Hl.
  destruct subnet_hostBits as [Eh Hh].
  destruct subnet_netnum as (Hmod & Hn0 & Hn1).
  pose proof (wf_subnet_Mask_length _ _ Hwf) as Hlm. fold n in Hlm.
  pose proof (wf_subnet_IP _ _ Hwf) as Hwn.
  assert (Hp : 0 < 2 ^ h) by (apply Z.pow_pos_nonneg; lia).
  rewrite Contains_loop_zip by (unfold n in *; lia).
  rewrite subnet_IP_fixed.
  assert (Em : num (zip_with Z.land ip (net.IPNet_Mask sn))
               = num ip - num ip mod 2 ^ h).
  { destruct Hwf as (_ & Ho & Em & _). fold n in Ho, Em.
    rewrite Em, masked_num by auto. now rewrite Eh. }
  unfold subnet_end. fold h.
  pose proof (Z.mod_pos_bound (num ip) (2 ^ h) Hp) as Hr.
  split.
  - intros E. assert (E' : netnum sn = num ip - num ip mod 2 ^ h).
    { unfold netnum. rewrite E. exact Em. }
    lia.
  - intros Hrange. symmetry. apply num_inj.
    + now apply wf_bytes_zip_land.
    + exact Hwn.
    + rewrite length_zip_with. fold n. lia.
    + rewrite Em. fold (netnum sn).
      apply Z.mod_divide in Hmod; [|lia]. destruct Hmod as [q Eq].
      assert (Er : num ip mod 2 ^ h = num ip - netnum sn).
      { symmetry. apply (Z.mod_unique_pos _ _ q); lia. }
      lia.
Qed.

End Subnet.

Lemma To4_4 ip : length ip = 4%nat -> net.To4 ip = Some ip.
Proof. intros H. unfold net.To4, net.IPv4len. now rewrite H. Qed.

Lemma v4_prefix_test ip :
  length ip = 16%nat ->
  (net.isZeros (take 10 ip) && (nth 10 ip 0 =? 255) && (nth 11 ip 0 =? 255) = true
   <-> take 12 ip = net.v4InV6Prefix).
Proof.
  intros Hl. do 17 (destruct ip as [|? ip]; try discriminate Hl).
  cbn [take nth net.isZeros forallb]. unfold net.v4InV6Prefix. split.
  - intros H.
    repeat match goal with
           | E : _ && _ = true |- _ => apply andb_true_iff in E; destruct E
           end.
    repeat match goal with E : (_ =? _) = true |- _ => apply Z.eqb_eq in E end.
    subst. reflexivity.
  - intros [= -> -> -> -> -> -> -> -> -> -> -> ->]. reflexivity.
Qed.

Lemma To4_16 ip :
  length ip = 16%nat ->
  net.To4 ip = if bool_decide (take 12 ip = net.v4InV6Prefix)
               then Some (drop 12 ip) else None.
Proof.
  intros Hl. unfold net.To4, net.IPv4len, net.IPv6len. rewrite Hl.
  change (16 =? 4)%nat with false. change (16 =? 16)%nat with true.
  cbn [andb]. pose proof (v4_prefix_test ip Hl) as H.
  rewrite <- !andb_assoc in *.
  destruct (net.isZeros (take 10 ip) && ((nth 10 ip 0 =? 255) && (nth 11 ip 0 =? 255))).
  - rewrite bool_decide_eq_true_2; [reflexivity|]. now apply H.
  - rewrite bool_decide_eq_false_2; [reflexivity|]. intros E. apply H in E. discriminate.
Qed.

Lemma v4_prefix_num ip :
  wf_bytes ip -> length ip = 16%nat ->
  (take 12 ip = net.v4InV6Prefix <-> in_v4_block (num ip)).
Proof.
  intros Hw Hl. unfold in_v4_block, V4BASE.
  rewrite <- (take_drop 12 ip) at 2 3. rewrite num_app.
  assert (Hd : length (drop 12 ip) = 4%nat) by (rewrite length_drop; lia).
  assert (Ht : length (take 12 ip) = 12%nat) by (rewrite length_take; lia).
  pose proof (num_bound (drop 12 ip) (Forall_drop _ _ _ Hw)) as Hb.
  pose proof (num_bound (take 12 ip) (Forall_take _ _ _ Hw)) as Hb'.
  rewrite Hd in *. change (pow256 4) with 4294967296 in *.
  change (2 ^ 32) with 4294967296.
  split.
  - intros ->. change (num net.v4InV6Prefix) with 65535. lia.
  - intros H. apply num_inj.
    + now apply Forall_take.
    + apply wf_bytes_v4InV6Prefix.
    + now rewrite Ht.
    + change (num net.v4InV6Prefix) with 65535. lia.
Qed.

Lemma Contains_loop_app x y mx my z :
  length mx = length x ->
  net.Contains_loop (x ++ y) (mx ++ my) (x ++ z) = net.Contains_loop y my z.
Proof.
  revert mx. induction x as [|a x IH]; intros [|b mx] Hl; try discriminate;
    [reflexivity|].
  injection Hl as Hl. simpl. rewrite Z.eqb_refl. now apply IH.
Qed.

Section Contains.
Context (sn : net.IPNet) (ones : Z) (Hwf : wf_subnet sn ones).

Let n := length (net.IPNet_IP sn).

(** [Contains] on an address of the network's own length: the range of
    the network, and IPv4-mapped on both sides or on neither. *)
Lemma Contains_spec ip :
  wf_bytes ip -> length ip = n ->
  (net.Contains sn ip = true
   <-> netnum sn <= num ip < subnet_end sn /\
       (n = 16%nat -> (in_v4_block (netnum sn) <-> in_v4_block (num ip)))).
Proof.
  intros Hw Hl.
  pose proof (wf_subnet_Mask_length _ _ Hwf) as Hlm. fold n in Hlm.
  pose proof (wf_subnet_IP _ _ Hwf) as Hwn.
  pose proof (Contains_loop_range sn ones Hwf ip Hw Hl) as Hrange.
  unfold net.Contains, net.networkNumberAndMask, net.IPv4len, net.IPv6len.
  destruct (subnet_n sn ones Hwf) as [E|E]; fold n in E.
  - rewrite (To4_4 (net.IPNet_IP sn)) by exact E.
    rewrite (To4_4 ip) by congruence.
    fold n. rewrite Hlm, Hl, E. change (4 =? 4)%nat with true. cbv iota.
    fold n. rewrite E. change (negb (4 =? 4)%nat) with false. cbv iota.
    rewrite Hrange. split; [intros H; split; [exact H | discriminate] | tauto].
  - assert (Hl16 : length ip = 16%nat) by congruence.
    assert (E0 : length (net.IPNet_IP sn) = 16%nat) by exact E.
    assert (Hlm0 : length (net.IPNet_Mask sn) = 16%nat) by (rewrite Hlm; exact E).
    pose proof (v4_prefix_num _ Hwn E) as Vn.
    pose proof (v4_prefix_num _ Hw Hl16) as Vi.
    fold (netnum sn) in Vn.
    assert (Hd1 : length (drop 12 (net.IPNet_IP sn)) = 4%nat)
      by (rewrite length_drop; fold n; lia).
    assert (Hd2 : length (drop 12 ip) = 4%nat) by (rewrite length_drop; lia).
    assert (EL : take 12 (net.IPNet_IP sn) = net.v4InV6Prefix ->
                 take 12 ip = net.v4InV6Prefix ->
                 net.Contains_loop (drop 12 (net.IPNet_IP sn))
                   (drop 12 (net.IPNet_Mask sn)) (drop 12 ip)
                 = net.Contains_loop (net.IPNet_IP sn) (net.IPNet_Mask sn) ip).
    { intros E1 E2.
      rewrite <- (take_drop 12 (net.IPNet_IP sn)) at 2.
      rewrite <- (take_drop 12 (net.IPNet_Mask sn)) at 2.
      rewrite <- (take_drop 12 ip) at 2.
      rewrite E1, E2. symmetry. apply Contains_loop_app.
      rewrite length_take, Hlm0. reflexivity. }
    rewrite (To4_16 (net.IPNet_IP sn)) by exact E.
    rewrite (To4_16 ip) by exact Hl16.
    destruct (bool_decide (take 12 (net.IPNet_IP sn) = net.v4InV6Prefix)) eqn:Bn;
      destruct (bool_decide (take 12 ip = net.v4InV6Prefix)) eqn:Bi;
      repeat first
        [ rewrite E0 | rewrite Hlm0 | rewrite Hd1 | rewrite Hd2 | rewrite Hl16
        | progress change (16 =? 4)%nat with false
        | progress change (4 =? 4)%nat with true
        | progress change (16 =? 16)%nat with true
        | progress change (4 =? 16)%nat with false
        | progress cbn [negb andb]
        | progress cbv iota ].
    + apply bool_decide_eq_true in Bn, Bi.
      rewrite EL, Hrange by assumption.
      split; [intros H; split; [exact H | tauto] | tauto].
    + apply bool_decide_eq_true in Bn. apply bool_decide_eq_false in Bi.
      split; [discriminate|]. intros [_ H]. tauto.
    + apply bool_decide_eq_false in Bn. apply bool_decide_eq_true in Bi.
      split; [discriminate|]. intros [_ H]. tauto.
    + apply bool_decide_eq_false in Bn, Bi.
      rewrite Hrange. split; [intros H; split; [exact H | tauto] | tauto].
Qed.

End Contains.

(** ** Where the scan stops *)

Section ScanLimit.
Context (sn : net.IPNet) (ones : Z) (Hwf : wf_subnet sn ones).

Let n := length (net.IPNet_IP sn).

Lemma To4_block :
  n = 16%nat ->
  (net.is_Some_b (net.To4 (net.IPNet_IP sn)) = true <-> in_v4_block (netnum sn)).
Proof.
  intros E. pose proof (wf_subnet_IP _ _ Hwf) as Hw.
  rewrite To4_16 by exact E. rewrite <- (v4_prefix_num _ Hw E).
  destruct (bool_decide (take 12 (net.IPNet_IP sn) = net.v4InV6Prefix)) eqn:B.
  - apply bool_decide_eq_true in B. simpl. tauto.
  - apply bool_decide_eq_false in B. simpl. split; [discriminate | tauto].
Qed.

Lemma pow256_split :
  pow256 n = 2 ^ (8 * Z.of_nat n - hostBits sn) * 2 ^ hostBits sn.
Proof.
  destruct (subnet_hostBits sn ones Hwf) as [_ Hh]. fold n in Hh.
  rewrite pow256_pow2, <- Z.pow_add_r by lia. f_equal. lia.
Qed.

(** A network inside the IPv4-mapped block ends inside it. *)
Lemma v4_network_end :
  in_v4_block (netnum sn) -> subnet_end sn <= V4BASE + 2 ^ 32.
Proof.
  intros [H1 H2].
  destruct (subnet_hostBits sn ones Hwf) as [_ Hh].
  destruct (subnet_netnum sn ones Hwf) as (Hmod & Hn0 & Hn1).
  unfold subnet_end. set (h := hostBits sn) in *.
  assert (Hp : 0 < 2 ^ h) by (apply Z.pow_pos_nonneg; lia).
  apply Z.mod_divide in Hmod; [|lia]. destruct Hmod as [q Eq].
  unfold V4BASE in *. change (2 ^ 32) with 4294967296 in *.
  destruct (Z_le_gt_dec h 32) as [Hle|Hgt].
  - assert (E : 4294967296 = 2 ^ (32 - h) * 2 ^ h).
    { rewrite <- Z.pow_add_r by lia. replace (32 - h + h) with 32 by lia. reflexivity. }
    assert (0 < 2 ^ (32 - h)) by (apply Z.pow_pos_nonneg; lia).
    assert (q < 65536 * 2 ^ (32 - h)) by nia.
    nia.
  - exfalso.
    assert (E : 2 ^ h = 2 ^ (h - 33) * 8589934592).
    { change 8589934592 with (2 ^ 33). rewrite <- Z.pow_add_r by lia.
      f_equal. lia. }
    assert (0 < 2 ^ (h - 33)) by (apply Z.pow_pos_nonneg; lia).
    rewrite E in Eq. set (k := q * 2 ^ (h - 33)) in *.
    assert (netnum sn = k * 8589934592) by (subst k; lia).
    lia.
Qed.

Lemma scan_limit_bounds :
  netnum sn < scan_limit sn <= subnet_end sn /\ subnet_end sn <= pow256 n.
Proof.
  destruct (subnet_hostBits sn ones Hwf) as [_ Hh].
  destruct (subnet_netnum sn ones Hwf) as (_ & Hn0 & Hn1). fold n in Hn1.
  assert (Hp : 0 < 2 ^ hostBits sn) by (apply Z.pow_pos_nonneg; lia).
  unfold scan_limit, subnet_end in *.
  destruct (_ && _ && _ && _) eqn:E.
  - apply andb_true_iff in E. destruct E as [E E2].
    apply andb_true_iff in E. destruct E as [E E1].
    apply Z.ltb_lt in E1, E2. lia.
  - lia.
Qed.

(** Every address between the network address and the limit is in the
    network. *)
Lemma Contains_below_limit ip :
  wf_bytes ip -> length ip = n ->
  netnum sn < num ip < scan_limit sn ->
  net.Contains sn ip = true.
Proof.
  intros Hw Hl Hr.
  destruct scan_limit_bounds as [Hb1 Hb2].
  apply (Contains_spec sn ones Hwf ip Hw Hl). split; [lia|].
  intros E. fold n in E. pose proof (To4_block E) as HT.
  unfold scan_limit in Hr. fold n in Hr. rewrite E in Hr.
  change (16 =? 16)%nat with true in Hr. cbn [andb] in Hr.
  destruct (net.is_Some_b (net.To4 (net.IPNet_IP sn))) eqn:ET.
  - cbn [negb andb] in Hr. apply proj1 in HT. specialize (HT eq_refl).
    pose proof (v4_network_end HT) as He. unfold in_v4_block in *.
    split; [intros _; lia | tauto].
  - cbn [negb andb] in Hr.
    assert (Hnb : ~ in_v4_block (netnum sn)).
    { intros Hb. apply HT in Hb. discriminate. }
    split; [tauto|]. intros Hx. exfalso. unfold in_v4_block in *.
    destruct (netnum sn <? V4BASE) eqn:E1; destruct (V4BASE <? subnet_end sn) eqn:E2;
      cbn [andb] in Hr;
      rewrite ?Z.ltb_lt, ?Z.ltb_ge in E1, E2; lia.
Qed.

(** Neither the limit nor the number after it is in the network,
    however the width of the address cuts them. *)
Lemma Contains_at_limit ip p :
  non_wrapping sn ->
  wf_bytes ip -> length ip = n ->
  p = scan_limit sn \/ p = scan_limit sn + 1 ->
  num ip = p mod pow256 n ->
  net.Contains sn ip = false.
Proof.
  intros Hnw Hw Hl Hp Ex.
  destruct scan_limit_bounds as [Hb1 Hb2].
  destruct (subnet_hostBits sn ones Hwf) as [Eh Hh].
  destruct (subnet_netnum sn ones Hwf) as (Hmod & Hn0 & Hn1).
  fold n in Eh, Hh, Hn1.
  pose proof pow256_split as Ep.
  pose proof (num_bound ip Hw) as Hbx. rewrite Hl in Hbx.
  set (h := hostBits sn) in *.
  assert (H2h : 0 < 2 ^ h) by (apply Z.pow_pos_nonneg; lia).
  assert (H2k : 0 < 2 ^ (8 * Z.of_nat n - h)) by (apply Z.pow_pos_nonneg; lia).
  destruct (net.Contains sn ip) eqn:EC; [exfalso|reflexivity].
  apply (Contains_spec sn ones Hwf ip Hw Hl) in EC. destruct EC as [HR HV].
  fold n in HV.
  assert (HB : 4294967296 <= pow256 n).
  { destruct (subnet_n sn ones Hwf) as [E|E]; fold n in E; rewrite E;
      vm_compute; discriminate. }
  unfold scan_limit in *. fold n in Hp, Hb1.
  destruct ((n =? 16)%nat && negb (net.is_Some_b (net.To4 (net.IPNet_IP sn)))
            && (netnum sn <? V4BASE) && (V4BASE <? subnet_end sn)) eqn:EQ.
  - (* the scan has run into the IPv4-mapped block *)
    apply andb_true_iff in EQ. destruct EQ as [EQ E2].
    apply andb_true_iff in EQ. destruct EQ as [EQ E1].
    apply andb_true_iff in EQ. destruct EQ as [En ET].
    apply Nat.eqb_eq in En. apply negb_true_iff in ET.
    apply Z.ltb_lt in E1, E2.
    assert (Hnb : ~ in_v4_block (netnum sn)).
    { intros Hb. apply (To4_block En) in Hb. congruence. }
    assert (pow256 n = 2 ^ 128) as EB by (rewrite En; reflexivity).
    assert (Hx : num ip = p).
    { rewrite Ex. apply Z.mod_small. rewrite EB. unfold V4BASE in *.
      change (2 ^ 128) with 340282366920938463463374607431768211456. lia. }
    apply Hnb, (HV En). unfold in_v4_block, V4BASE in *.
    change (2 ^ 32) with 4294967296. lia.
  - (* the scan has left the range of the network *)
    destruct (Z_lt_ge_dec p (pow256 n)) as [Hlt|Hge].
    + rewrite Z.mod_small in Ex by lia. lia.
    + assert (Ex' : num ip = p - pow256 n).
      { rewrite Ex. symmetry. apply (Z.mod_unique_pos _ _ 1); lia. }
      assert (Hnet : netnum sn <= 1) by lia.
      assert (Hh8 : h = 8 * Z.of_nat n).
      { destruct (Z.eq_dec h (8 * Z.of_nat n)) as [?|Hne]; [assumption|exfalso].
        assert (E2 : 2 ^ (8 * Z.of_nat n - h) = 2 * 2 ^ (8 * Z.of_nat n - h - 1)).
        { rewrite <- Z.pow_succ_r by lia. f_equal. lia. }
        assert (0 < 2 ^ (8 * Z.of_nat n - h - 1)) by (apply Z.pow_pos_nonneg; lia).
        unfold subnet_end in *. fold h in Hb1, Hn1, HR, Hp. nia. }
      assert (Hnet0 : netnum sn = 0).
      { apply Z.mod_divide in Hmod; [|lia]. destruct Hmod as [q Eq].
        rewrite Hh8, <- pow256_pow2 in Eq.
        clear - Eq Hnet Hn0 HB. generalize dependent (pow256 n). intros P ? ?.
        assert (q = 0) by nia. subst. lia. }
      destruct (subnet_n sn ones Hwf) as [E|E]; fold n in E.
      * apply Hnw. destruct Hwf as (_ & _ & Em & _). fold n in Em.
        rewrite Em, E. replace ones with 0 by lia. reflexivity.
      * assert (ET : net.is_Some_b (net.To4 (net.IPNet_IP sn)) = false).
        { destruct (net.is_Some_b (net.To4 (net.IPNet_IP sn))) eqn:ET; [|reflexivity].
          apply (To4_block E) in ET. unfold in_v4_block, V4BASE in ET. lia. }
        rewrite E, ET in EQ. change (16 =? 16)%nat with true in EQ.
        cbn [negb andb] in EQ.
        unfold subnet_end in EQ. fold h in EQ.
        rewrite Hnet0, Hh8, <- pow256_pow2, E in EQ.
        vm_compute in EQ. discriminate.
Qed.

End ScanLimit.

(** ** The scan *)

Lemma Equal_canon_num n ip v :
  length ip = n -> n = 4%nat \/ n = 16%nat ->
  net.Equal ip v = true -> canon_num n v = Some (num ip).
Proof.
  intros Hl Hn. unfold net.Equal, canon_num, net.bytesEqual, net.IPv4len, net.IPv6len.
  rewrite Hl. rewrite (Nat.eqb_sym n (length v)).
  destruct (length v =? n)%nat eqn:E.
  - intros H. apply bool_decide_eq_true in H. now subst.
  - destruct Hn as [-> | ->].
    + change (4 =? 4)%nat with true. change (4 =? 16)%nat with false. cbn [andb].
      destruct (length v =? 16)%nat; [|discriminate].
      intros H. apply andb_true_iff in H. destruct H as [H1 H2].
      rewrite H1. apply bool_decide_eq_true in H2. now subst.
    + change (16 =? 4)%nat with false. change (16 =? 16)%nat with true. cbn [andb].
      destruct (length v =? 4)%nat eqn:E4; [|discriminate].
      intros H. apply andb_true_iff in H. destruct H as [H1 H2].
      apply bool_decide_eq_true in H1, H2.
      rewrite <- (take_drop 12 ip), num_app, H1, H2.
      apply Nat.eqb_eq in E4. rewrite E4. reflexivity.
Qed.

Lemma filter_length_lt {A} (f g : A -> bool) l x :
  In x l -> f x = true -> g x = false ->
  (forall y, g y = true -> f y = true) ->
  (length (List.filter g l) < length (List.filter f l))%nat.
Proof.
  intros Hin Hf Hg Himp.
  assert (Hle : forall l', (length (List.filter g l') <= length (List.filter f l'))%nat).
  { induction l' as [|y l' IH]; simpl; [lia|].
    destruct (g y) eqn:Eg.
    - rewrite (Himp _ Eg). simpl. lia.
    - destruct (f y); simpl; lia. }
  induction l as [|y l IH]; [contradiction|].
  simpl. destruct Hin as [->|Hin].
  - rewrite Hf, Hg. simpl. specialize (Hle l). lia.
  - specialize (IH Hin). destruct (g y) eqn:Eg.
    + rewrite (Himp _ Eg). simpl. lia.
    + destruct (f y); simpl; lia.
Qed.

Section Scan.
Context (i : ipam.IPAM) (ones : Z) (Hwf : wf_subnet (ipam.Subnet i) ones).

#[local] Abbreviation sn := (ipam.Subnet i).
#[local] Abbreviation n := (addrLen i).

Lemma ahead_size p : (ahead i p <= size (ipam.Allocations i))%nat.
Proof.
  unfold ahead. rewrite <- length_map_to_list. apply List.filter_length_le.
Qed.

(** Finding an address held moves the scan past an entry. *)
Lemma ahead_decreases ip p p' :
  length ip = n -> num ip = p -> p < p' ->
  ipam.allocated i ip = true ->
  (ahead i p' < ahead i p)%nat.
Proof.
  intros Hl Hp Hlt Ha. apply allocated_true in Ha.
  destruct Ha as (id & v & Hlk & HE).
  pose proof (Equal_canon_num n ip v Hl (subnet_n _ _ Hwf) HE) as Hc.
  unfold ahead.
  apply (filter_length_lt _ _ _ (id, v)).
  - apply list_elem_of_In. now apply elem_of_map_to_list.
  - simpl. rewrite Hc. apply Z.leb_le. lia.
  - simpl. rewrite Hc. apply Z.leb_gt. lia.
  - intros [id' v']. simpl. destruct (canon_num n v'); [|discriminate].
    rewrite !Z.leb_le. lia.
Qed.

Lemma scan_loop fuel : forall ip p,
  wf_bytes ip -> length ip = n ->
  num ip = p mod pow256 n ->
  netnum sn < p <= scan_limit sn + 1 ->
  net.Equal ip (ipam.Gateway i) = false ->
  (ahead i p < fuel)%nat ->
  scan_found i p (ipam.findAvailableIP_loop fuel i ip)
  \/ scan_exhausted i p (ipam.findAvailableIP_loop fuel i ip).
Proof.
  pose proof (scan_limit_bounds sn ones Hwf) as [Hb1 Hb2].
  destruct (subnet_netnum sn ones Hwf) as (_ & Hn0 & _).
  change (pow256 (length (net.IPNet_IP sn))) with (pow256 n) in Hb2.
  induction fuel as [|fuel IH]; intros ip p Hw Hl Hx Hp Hg Hf; [lia|].
  cbn [ipam.findAvailableIP_loop].
  destruct (Z_lt_ge_dec p (scan_limit sn)) as [Hlt|Hge].
  - (* inside the network *)
    rewrite Z.mod_small in Hx by lia.
    rewrite (Contains_below_limit sn ones Hwf ip Hw Hl) by lia.
    cbn [negb]. destruct (ipam.allocated i ip) eqn:Ea; cbn [negb].
    + (* held: on to the next address, or the one after the gateway *)
      pose proof (inc_wf ip Hw) as Hw1.
      pose proof (inc_length ip) as Hl1. rewrite Hl in Hl1.
      pose proof (inc_num ip Hw) as Hx1. rewrite Hl, Hx in Hx1.
      assert (Hne1 : ipam.inc ip <> []).
      { apply length_nonempty. rewrite Hl1.
        destruct (subnet_n _ _ Hwf) as [E|E]; unfold addrLen; rewrite E; lia. }
      assert (Htp : taken i p).
      { intros ip' Hw' Hl' Hx'. left.
        rewrite (num_inj ip' ip) by (auto; congruence). exact Ea. }
      pose proof (skipGateway_not_gateway i (ipam.inc ip) Hne1) as Hsk.
      unfold ipam.skipGateway in *.
      destruct (net.Equal (ipam.inc ip) (ipam.Gateway i)) eqn:Eg.
      * (* the next address is the gateway *)
        assert (Htp1 : taken i (p + 1)).
        { intros ip' Hw' Hl' Hx'. right.
          pose proof (num_bound ip' Hw') as Hb'. rewrite Hl' in Hb'.
          rewrite (num_inj ip' (ipam.inc ip)); auto; [congruence|].
          rewrite Hx1, Hx', Z.mod_small; lia. }
        destruct (IH (ipam.inc (ipam.inc ip)) (p + 2)) as [Hfound|Hex].
        -- now apply inc_wf.
        -- now rewrite inc_length.
        -- rewrite inc_num, Hl1, Hx1 by assumption.
           rewrite Zplus_mod_idemp_l. f_equal. lia.
        -- lia.
        -- exact Hsk.
        -- pose proof (ahead_decreases ip p (p + 2) Hl Hx ltac:(lia) Ea). lia.
        -- left. destruct Hfound as (r & Er & Hwr & Hlr & Hpr & Har & Hgr & Ht).
           exists r. repeat split; auto; try lia.
           intros q Hq. destruct (Z.eq_dec q p) as [->|?]; [exact Htp|].
           destruct (Z.eq_dec q (p + 1)) as [->|?]; [exact Htp1|].
           apply Ht. lia.
        -- right. destruct Hex as [Ht He]. split; [|exact He].
           intros q Hq. destruct (Z.eq_dec q p) as [->|?]; [exact Htp|].
           destruct (Z.eq_dec q (p + 1)) as [->|?]; [exact Htp1|].
           apply Ht. lia.
      * destruct (IH (ipam.inc ip) (p + 1)) as [Hfound|Hex]; auto.
        -- lia.
        -- pose proof (ahead_decreases ip p (p + 1) Hl Hx ltac:(lia) Ea). lia.
        -- left. destruct Hfound as (r & Er & Hwr & Hlr & Hpr & Har & Hgr & Ht).
           exists r. repeat split; auto; try lia.
           intros q Hq. destruct (Z.eq_dec q p) as [->|?]; [exact Htp|].
           apply Ht. lia.
        -- right. destruct Hex as [Ht He]. split; [|exact He].
           intros q Hq. destruct (Z.eq_dec q p) as [->|?]; [exact Htp|].
           apply Ht. lia.
    + left. exists ip. repeat split; auto; try lia.
  - (* at the limit *)
    right. split; [intros q Hq; lia|].
    intros Hnw.
    rewrite (Contains_at_limit sn ones Hwf ip p Hnw Hw Hl) by (auto; lia).
    reflexivity.
Qed.

(** [findAvailableIP]: the first address after the network address
    that nobody holds and that is not the gateway; and when every
    address up to the limit is taken, the exhaustion error. *)
Lemma findAvailableIP_spec :
  scan_found i (netnum sn + 1) (ipam.findAvailableIP i)
  \/ scan_exhausted i (netnum sn + 1) (ipam.findAvailableIP i).
Proof.
  pose proof (scan_limit_bounds sn ones Hwf) as [Hb1 Hb2].
  destruct (subnet_netnum sn ones Hwf) as (_ & Hn0 & _).
  pose proof (wf_subnet_IP _ _ Hwf) as Hw0.
  change (pow256 (length (net.IPNet_IP sn))) with (pow256 n) in Hb2.
  unfold ipam.findAvailableIP.
  set (ip0 := net.IPNet_IP sn) in *.
  assert (Hl0 : length ip0 = n) by reflexivity.
  pose proof (inc_wf ip0 Hw0) as Hw1.
  pose proof (inc_length ip0) as Hl1. rewrite Hl0 in Hl1.
  pose proof (inc_num ip0 Hw0) as Hx1. rewrite Hl0 in Hx1.
  change (num ip0) with (netnum sn) in Hx1.
  assert (Hne1 : ipam.inc ip0 <> []).
  { apply length_nonempty. rewrite Hl1.
    destruct (subnet_n _ _ Hwf) as [E|E]; unfold addrLen; rewrite E; lia. }
  pose proof (skipGateway_not_gateway i (ipam.inc ip0) Hne1) as Hsk.
  pose proof (ahead_size) as Hsz.
  unfold ipam.skipGateway in *.
  destruct (net.Equal (ipam.inc ip0) (ipam.Gateway i)) eqn:Eg.
  - assert (Htp1 : taken i (netnum sn + 1)).
    { intros ip' Hw' Hl' Hx'. right.
      pose proof (num_bound ip' Hw') as Hb'. rewrite Hl' in Hb'.
      rewrite (num_inj ip' (ipam.inc ip0)); auto; [congruence|].
      rewrite Hx1, Hx', Z.mod_small; lia. }
    destruct (scan_loop (S (size (ipam.Allocations i)))
                (ipam.inc (ipam.inc ip0)) (netnum sn + 2)) as [Hfound|Hex].
    + now apply inc_wf.
    + now rewrite inc_length.
    + rewrite inc_num, Hl1, Hx1 by assumption.
      rewrite Zplus_mod_idemp_l. f_equal. lia.
    + lia.
    + exact Hsk.
    + specialize (Hsz (netnum sn + 2)). lia.
    + left. destruct Hfound as (r & Er & Hwr & Hlr & Hpr & Har & Hgr & Ht).
      exists r. repeat split; auto; try lia.
      intros q Hq. destruct (Z.eq_dec q (netnum sn + 1)) as [->|?]; [exact Htp1|].
      apply Ht. lia.
    + right. destruct Hex as [Ht He]. split; [|exact He].
      intros q Hq. destruct (Z.eq_dec q (netnum sn + 1)) as [->|?]; [exact Htp1|].
      apply Ht. lia.
  - apply scan_loop; auto.
    + lia.
    + specialize (Hsz (netnum sn + 1)). lia.
Qed.

End Scan.

(** ** First fit *)

Lemma New_wf config fs i :
  ipam.New config fs = Ok i ->
  (exists ones, wf_subnet (ipam.Subnet i) ones) /\
  wf_bytes (ipam.Gateway i) /\ length (ipam.Gateway i) = 16%nat.
Proof.
  intros H. destruct (New_Ok _ _ _ H) as (x & sn & gw & Hs & Hg & _ & -> & -> & _).
  split; [exact (ParseCIDR_wf _ _ _ Hs) | exact (ParseIP_valid _ _ Hg)].
Qed.

Lemma reachable_wf config fs i0 i :
  ipam.New config fs = Ok i0 -> reachable i0 i ->
  exists ones, wf_subnet (ipam.Subnet i) ones.
Proof.
  intros HN Hr. destruct (reachable_fields _ _ Hr) as (-> & _).
  exact (proj1 (New_wf _ _ _ HN)).
Qed.

(** Whatever is free below the limit bounds what the scan returns. *)
Lemma findAvailableIP_first_free i ones free :
  wf_subnet (ipam.Subnet i) ones ->
  wf_bytes free -> length free = addrLen i ->
  netnum (ipam.Subnet i) < num free < scan_limit (ipam.Subnet i) ->
  ipam.allocated i free = false ->
  net.Equal free (ipam.Gateway i) = false ->
  exists ip,
    ipam.findAvailableIP i = Ok ip /\
    wf_bytes ip /\ length ip = addrLen i /\
    netnum (ipam.Subnet i) < num ip <= num free /\
    ipam.allocated i ip = false /\
    net.Equal ip (ipam.Gateway i) = false /\
    forall q, netnum (ipam.Subnet i) < q < num ip -> taken i q.
Proof.
  intros Hwf Hw Hl Hr Ha Hg.
  assert (Hnt : ~ taken i (num free)).
  { intros Ht. destruct (Ht free Hw Hl eq_refl); congruence. }
  destruct (findAvailableIP_spec i ones Hwf) as [Hfound|[Ht _]].
  - destruct Hfound as (r & Er & Hwr & Hlr & Hpr & Har & Hgr & Htr).
    exists r. repeat split; auto; try lia.
    + destruct (Z_le_gt_dec (num r) (num free)) as [?|Hgt]; [assumption|].
      exfalso. apply Hnt, Htr. lia.
    + intros q Hq. apply Htr. lia.
  - exfalso. apply Hnt, Ht. lia.
Qed.

(** [Allocate] for an identifier that holds nothing. *)
Lemma Allocate_fresh id i fs ip :
  ipam.Allocations i !! id = None ->
  ipam.findAvailableIP i = Ok ip ->
  (ipam.Allocate id i fs).1.1
    = (if fs_write_fails fs then Err ErrWriteAllocations else Ok ip) /\
  ipam.Allocations (ipam.Allocate id i fs).1.2 = <[id := ip]> (ipam.Allocations i).
Proof.
  intros Hl Hf. unfold ipam.Allocate, ipam.saveAllocations, os_WriteFile.
  rewrite Hl, Hf. destruct (fs_write_fails fs); auto.
Qed.

(** C3. An identifier that holds nothing gets the first address after
    the network address that no entry of the mapping equals and that is
    not the gateway: whenever some address [free] is free below the
    limit of the scan, [Allocate] records (and, the record written,
    returns) an address [ip] at or before [free], free itself, with
    every address between the network address and [ip] taken. On
    10.244.0.0/24 with gateway 10.244.0.1: c1 gets 10.244.0.2, c2 gets
    10.244.0.3, and after c1 is released c3 gets 10.244.0.2. *)
Theorem Allocate_first_fit config fs0 i0 i id fs free :
  ipam.New config fs0 = Ok i0 ->
  reachable i0 i ->
  ipam.Allocations i !! id = None ->
  wf_bytes free -> length free = addrLen i ->
  netnum (ipam.Subnet i) < num free < scan_limit (ipam.Subnet i) ->
  ipam.allocated i free = false ->
  net.Equal free (ipam.Gateway i) = false ->
  (exists ip,
     (ipam.Allocate id i fs).1.1
       = (if fs_write_fails fs then Err ErrWriteAllocations else Ok ip) /\
     ipam.Allocations (ipam.Allocate id i fs).1.2 !! id = Some ip /\
     netnum (ipam.Subnet i) < num ip <= num free /\
     ipam.allocated i ip = false /\
     net.Equal ip (ipam.Gateway i) = false /\
     forall q, netnum (ipam.Subnet i) < q < num ip -> taken i q) /\
  (forall j, ipam.New Ex.cfg Ex.fs = Ok j ->
     let '(r1, j1, fs1) := ipam.Allocate "c1" j Ex.fs in
     let '(r2, j2, fs2) := ipam.Allocate "c2" j1 fs1 in
     let '(_, j3, fs3) := ipam.Release "c1" j2 fs2 in
     let '(r3, _, _) := ipam.Allocate "c3" j3 fs3 in
     r1 = Ok [10; 244; 0; 2] /\ r2 = Ok [10; 244; 0; 3] /\ r3 = Ok [10; 244; 0; 2]).
Proof.
  intros HN Hr Hl Hw Hlen Hrange Ha Hg. split.
  - destruct (reachable_wf _ _ _ _ HN Hr) as [ones Hwf].
    destruct (findAvailableIP_first_free i ones free Hwf Hw Hlen Hrange Ha Hg)
      as (ip & Hf & _ & _ & Hnum & Hfree & Hgw & Ht).
    destruct (Allocate_fresh id i fs ip Hl Hf) as [E1 E2].
    exists ip. repeat split; auto; try lia.
    rewrite E2. apply lookup_insert_eq.
  - intros j Hj. vm_compute in Hj. injection Hj as <-. vm_compute. auto.
Qed.

Lemma Allocate_first_fit_witness :
  exists ip,
    (ipam.Allocate "c2" Ex.i1 Ex.fs1).1.1
      = (if fs_write_fails Ex.fs1 then Err ErrWriteAllocations else Ok ip) /\
    ipam.Allocations (ipam.Allocate "c2" Ex.i1 Ex.fs1).1.2 !! "c2" = Some ip /\
    netnum (ipam.Subnet Ex.i1) < num ip <= num [10; 244; 0; 77] /\
    ipam.allocated Ex.i1 ip = false /\
    net.Equal ip (ipam.Gateway Ex.i1) = false /\
    forall q, netnum (ipam.Subnet Ex.i1) < q < num ip -> taken Ex.i1 q.
Proof.
  apply (proj1 (Allocate_first_fit Ex.cfg Ex.fs Ex.i0 Ex.i1 "c2" Ex.fs1 [10; 244; 0; 77]
                  ltac:(vm_compute; reflexivity)
                  ltac:(unfold Ex.i1; apply reach_Allocate, reach_init)
                  ltac:(vm_compute; reflexivity)
                  ltac:(repeat constructor; lia)
                  ltac:(reflexivity)
                  ltac:(vm_compute; split; reflexivity)
                  ltac:(vm_compute; reflexivity)
                  ltac:(vm_compute; reflexivity))).
Defined.

(** ** Where the addresses handed out lie *)

Lemma findAvailableIP_Ok_range i ones r :
  wf_subnet (ipam.Subnet i) ones -> non_wrapping (ipam.Subnet i) ->
  ipam.findAvailableIP i = Ok r ->
  wf_bytes r /\ length r = addrLen i /\
  netnum (ipam.Subnet i) < num r < scan_limit (ipam.Subnet i) /\
  ipam.allocated i r = false /\
  net.Equal r (ipam.Gateway i) = false.
Proof.
  intros Hwf Hnw Hf.
  destruct (findAvailableIP_spec i ones Hwf) as [Hfound|[_ He]].
  - destruct Hfound as (r' & Er & Hwr & Hlr & Hpr & Har & Hgr & _).
    rewrite Hf in Er. injection Er as <-. repeat split; auto; lia.
  - rewrite (He Hnw) in Hf. discriminate.
Qed.

Lemma Allocate_keeps_plain id i fs ones :
  wf_subnet (ipam.Subnet i) ones -> non_wrapping (ipam.Subnet i) ->
  plain_values i -> plain_values (ipam.Allocate id i fs).1.2.
Proof.
  intros Hwf Hnw Hp.
  destruct (Allocate_fields id i fs) as (Es & Eg & _).
  unfold plain_values, addrLen. rewrite Es, Eg.
  destruct (Allocate_Allocations id i fs) as [->|(ip & Hnone & Hf & ->)]; [exact Hp|].
  destruct (findAvailableIP_Ok_range _ _ _ Hwf Hnw Hf) as (H1 & H2 & H3 & _ & H5).
  intros id' v. destruct (decide (id = id')) as [<-|Hne].
  - rewrite lookup_insert_eq. intros [= <-]. auto.
  - rewrite lookup_insert_ne by exact Hne. apply Hp.
Qed.

Lemma Release_keeps_plain id i fs :
  plain_values i -> plain_values (ipam.Release id i fs).1.2.
Proof.
  intros Hp.
  destruct (Release_fields id i fs) as (Es & Eg & _).
  unfold plain_values, addrLen. rewrite Es, Eg, Release_Allocations.
  intros id' v H. apply lookup_delete_Some in H. destruct H as [_ H].
  exact (Hp _ _ H).
Qed.

Lemma reachable_plain i0 i ones :
  wf_subnet (ipam.Subnet i0) ones -> non_wrapping (ipam.Subnet i0) ->
  plain_values i0 -> reachable i0 i -> plain_values i.
Proof.
  intros Hwf Hnw H0. induction 1 as [|i id fs Hr IH|i id fs Hr IH]; [exact H0| |].
  - destruct (reachable_fields _ _ Hr) as (Es & _).
    apply (Allocate_keeps_plain id i fs ones); rewrite ?Es; assumption.
  - now apply Release_keeps_plain.
Qed.

Lemma plain_values_empty i : ipam.Allocations i = ∅ -> plain_values i.
Proof. intros E id v. rewrite E, lookup_empty. discriminate. Qed.

Lemma Equal_refl ip : net.Equal ip ip = true.
Proof.
  unfold net.Equal, net.bytesEqual. rewrite Nat.eqb_refl.
  now apply bool_decide_eq_true.
Qed.




Lemma scan_limit_v4 sn :
  length (net.IPNet_IP sn) = 4%nat -> scan_limit sn = subnet_end sn.
Proof. intros E. unfold scan_limit. now rewrite E. Qed.



(** ** Exhaustion *)

Lemma allocated_intro i id v ip :
  ipam.Allocations i !! id = Some v -> net.Equal ip v = true ->
  ipam.allocated i ip = true.
Proof.
  intros Hl HE. unfold ipam.allocated. apply existsb_exists.
  exists (id, v). split; [|exact HE].
  apply list_elem_of_In. now apply elem_of_map_to_list.
Qed.

Lemma gateway_num_Equal i ip g :
  wf_bytes (ipam.Gateway i) -> length (ipam.Gateway i) = 16%nat ->
  addrLen i = 4%nat \/ addrLen i = 16%nat ->
  wf_bytes ip -> length ip = addrLen i ->
  gateway_num i = Some g -> num ip = g ->
  net.Equal ip (ipam.Gateway i) = true.
Proof.
  intros Hwg Hlg Hn Hw Hl. unfold gateway_num, canon_num. rewrite Hlg.
  destruct Hn as [E|E]; rewrite E in *.
  - change (16 =? 4)%nat with false. change (4 =? 4)%nat with true.
    change (16 =? 16)%nat with true. cbn [andb].
    destruct (bool_decide (take 12 (ipam.Gateway i) = net.v4InV6Prefix)) eqn:B;
      [|change (4 =? 16)%nat with false; cbn [andb]; discriminate].
    apply bool_decide_eq_true in B. intros [= <-] Hx.
    assert (Ei : ip = drop 12 (ipam.Gateway i)).
    { apply num_inj; auto.
      - now apply Forall_drop.
      - rewrite length_drop. lia. }
    unfold net.Equal, net.bytesEqual, net.IPv4len, net.IPv6len. rewrite Hl, Hlg.
    change (4 =? 16)%nat with false. change (4 =? 4)%nat with true.
    change (16 =? 16)%nat with true. cbn [andb].
    now rewrite !bool_decide_eq_true_2.
  - change (16 =? 16)%nat with true. cbv iota.
    intros [= <-] Hx.
    assert (Ei : ip = ipam.Gateway i) by (apply num_inj; auto; congruence).
    rewrite Ei. apply Equal_refl.
Qed.

Section Full.
Context (i : ipam.IPAM) (ones : Z) (Hwf : wf_subnet (ipam.Subnet i) ones).
Context (Hwg : wf_bytes (ipam.Gateway i)) (Hlg : length (ipam.Gateway i) = 16%nat).
Context (Hplain : plain_values i) (Hinj : injective i).

#[local] Abbreviation sn := (ipam.Subnet i).

Lemma held_numbers_NoDup : List.NoDup (held_numbers i).
Proof.
  unfold held_numbers. apply NoDup_ListNoDup.
  apply (NoDup_fmap_2_strong (fun kv : string * net.IP => num kv.2)).
  - intros [id1 v1] [id2 v2] H1 H2 E. simpl in E.
    apply elem_of_map_to_list in H1, H2.
    destruct (Hplain _ _ H1) as (Hw1 & Hl1 & _).
    destruct (Hplain _ _ H2) as (Hw2 & Hl2 & _).
    assert (v1 = v2) by (apply num_inj; auto; congruence). subst v2.
    destruct (decide (id1 = id2)) as [->|Hne]; [reflexivity|].
    pose proof (Hinj _ _ _ _ Hne H1 H2) as HE. rewrite Equal_refl in HE.
    discriminate.
  - apply NoDup_map_to_list.
Qed.

Lemma held_numbers_length : length (held_numbers i) = size (ipam.Allocations i).
Proof. unfold held_numbers. now rewrite length_map, length_map_to_list. Qed.

Lemma held_number_taken q : In q (held_numbers i) -> taken i q.
Proof.
  unfold held_numbers. intros H. apply in_map_iff in H.
  destruct H as ([id v] & E & Hin). simpl in E.
  apply list_elem_of_In, elem_of_map_to_list in Hin.
  destruct (Hplain _ _ Hin) as (Hw & Hl & _).
  intros ip Hwi Hli Hx. left. apply (allocated_intro i id v); [exact Hin|].
  assert (ip = v) by (apply num_inj; auto; congruence). subst. apply Equal_refl.
Qed.

Lemma held_number_range q :
  In q (held_numbers i) ->
  netnum sn < q < scan_limit sn /\ gateway_num i <> Some q.
Proof.
  unfold held_numbers. intros H. apply in_map_iff in H.
  destruct H as ([id v] & E & Hin). simpl in E.
  apply list_elem_of_In, elem_of_map_to_list in Hin.
  destruct (Hplain _ _ Hin) as (Hw & Hl & Hr & Hg).
  subst q. split; [exact Hr|]. intros Hgn.
  rewrite (gateway_num_Equal i v (num v)) in Hg; auto; [discriminate|].
  exact (subnet_n _ _ Hwf).
Qed.

(** With as many entries as there are addresses to hand out, every
    address is taken. *)
Lemma full_mapping_taken :
  Z.of_nat (size (ipam.Allocations i)) = usable_count i ->
  forall q, netnum sn < q < scan_limit sn -> taken i q.
Proof.
  intros Hsize q Hq.
  pose proof (scan_limit_bounds sn ones Hwf) as [Hb _].
  unfold usable_count, gateway_in_scan in Hsize.
  destruct (gateway_num i) as [g|] eqn:Eg.
  - destruct (Z.eq_dec q g) as [->|Hne].
    { intros ip Hw Hl Hx. right.
      apply (gateway_num_Equal i ip g); auto. exact (subnet_n _ _ Hwf). }
    destruct ((netnum sn <? g) && (g <? scan_limit sn)) eqn:Ein.
    + apply andb_true_iff in Ein. destruct Ein as [E1 E2].
      apply Z.ltb_lt in E1, E2.
      apply held_number_taken.
      apply (NoDup_length_incl held_numbers_NoDup
               (l' := seqZ (netnum sn + 1) (g - netnum sn - 1)
                      ++ seqZ (g + 1) (scan_limit sn - g - 1))).
      * rewrite length_app, !length_seqZ, held_numbers_length. lia.
      * intros x Hx. destruct (held_number_range x Hx) as [Hr Hg].
        apply in_or_app.
        destruct (Z_lt_ge_dec x g) as [?|?].
        -- left. apply in_seqZ. lia.
        -- right. apply in_seqZ. assert (x <> g) by congruence. lia.
      * apply in_or_app.
        destruct (Z_lt_ge_dec q g) as [?|?].
        -- left. apply in_seqZ. lia.
        -- right. apply in_seqZ. lia.
    + apply held_number_taken.
      apply (NoDup_length_incl held_numbers_NoDup
               (l' := seqZ (netnum sn + 1) (scan_limit sn - netnum sn - 1))).
      * rewrite length_seqZ, held_numbers_length. lia.
      * intros x Hx. destruct (held_number_range x Hx) as [Hr Hg].
        apply in_seqZ. lia.
      * apply in_seqZ. lia.
  - apply held_number_taken.
    apply (NoDup_length_incl held_numbers_NoDup
             (l' := seqZ (netnum sn + 1) (scan_limit sn - netnum sn - 1))).
    + rewrite length_seqZ, held_numbers_length. lia.
    + intros x Hx. destruct (held_number_range x Hx) as [Hr Hg].
      apply in_seqZ. lia.
    + apply in_seqZ. lia.
Qed.

Lemma full_mapping_exhausted :
  non_wrapping sn ->
  Z.of_nat (size (ipam.Allocations i)) = usable_count i ->
  ipam.findAvailableIP i = Err ErrNoAvailableIP.
Proof.
  intros Hnw Hsize.
  destruct (findAvailableIP_spec i ones Hwf) as [Hfound|[_ He]]; [|now apply He].
  destruct Hfound as (r & Er & Hwr & Hlr & Hpr & Har & Hgr & _).
  destruct (full_mapping_taken Hsize (num r) ltac:(lia) r Hwr Hlr eq_refl);
    congruence.
Qed.

End Full.

Lemma usable_count_fields i j :
  ipam.Subnet i = ipam.Subnet j -> ipam.Gateway i = ipam.Gateway j ->
  usable_count i = usable_count j.
Proof.
  intros Es Eg. unfold usable_count, gateway_in_scan, gateway_num, addrLen.
  now rewrite Es, Eg.
Qed.

(** On an IPv4 network the count is [2 ^ hostBits - 1], less one when
    the gateway is one of these addresses. *)
Lemma usable_count_v4 i :
  addrLen i = 4%nat ->
  usable_count i = 2 ^ hostBits (ipam.Subnet i) - 1
                   - (if gateway_in_scan i then 1 else 0).
Proof.
  intros E. unfold usable_count. rewrite scan_limit_v4 by exact E.
  unfold subnet_end. lia.
Qed.

Example usable_count_24 : usable_count Ex.i0 = 254.
Proof. vm_compute. reflexivity. Qed.

Lemma Allocate_Ok_dom id i fs :
  is_Ok (ipam.Allocate id i fs).1.1 = true ->
  dom (ipam.Allocations (ipam.Allocate id i fs).1.2)
    = dom (ipam.Allocations i) ∪ {[id]}.
Proof.
  intros H. destruct ((ipam.Allocate id i fs).1.1) as [ip| |] eqn:E; try discriminate.
  pose proof (Allocate_Ok_lookup _ _ _ _ E) as Hl.
  destruct (Allocate_Allocations id i fs) as [Em|(ip' & _ & _ & Em)].
  - rewrite Em in *. apply elem_of_dom_2 in Hl.
    apply set_eq. intros x. rewrite elem_of_union, elem_of_singleton.
    split; [auto | intros [?| ->]; auto].
  - rewrite Em, dom_insert_L. apply union_comm_L.
Qed.

Lemma allocateAll_dom ids : forall i fs,
  Forall (fun r => is_Ok r = true) (allocateAll ids i fs).1.1 ->
  dom (ipam.Allocations (allocateAll ids i fs).1.2)
    = dom (ipam.Allocations i) ∪ list_to_set ids.
Proof.
  induction ids as [|id ids IH]; intros i fs; simpl.
  - intros _. symmetry. apply union_empty_r_L.
  - pose proof (Allocate_Ok_dom id i fs) as Hd.
    destruct (ipam.Allocate id i fs) as [[r i1] fs1]. simpl in Hd.
    specialize (IH i1 fs1).
    destruct (allocateAll ids i1 fs1) as [[rs i2] fs2]. simpl in *.
    intros H. inversion H as [|? ? Hr Hrs]; subst.
    rewrite IH, Hd by assumption. symmetry. apply (assoc_L (∪)).
Qed.

Lemma exhausted_when_full config fs0 i0 i id fs :
  ipam.New config fs0 = Ok i0 ->
  ipam.Allocations i0 = ∅ ->
  non_wrapping (ipam.Subnet i0) ->
  reachable i0 i ->
  Z.of_nat (size (ipam.Allocations i)) = usable_count i0 ->
  ipam.Allocations i !! id = None ->
  (ipam.Allocate id i fs).1.1 = Err ErrNoAvailableIP.
Proof.
  intros HN Hempty Hnw Hr Hsize Hnone.
  destruct (New_wf _ _ _ HN) as ([ones Hwf0] & Hgw & Hgl).
  destruct (reachable_fields _ _ Hr) as (Es & Eg & _).
  pose proof (reachable_plain i0 i ones Hwf0 Hnw (plain_values_empty _ Hempty) Hr) as Hp.
  pose proof (New_subnet_nonempty _ _ _ HN) as Hne.
  assert (H0 : injective i0 /\ gateway_free i0).
  { unfold injective, gateway_free. rewrite Hempty.
    split; intros *; rewrite ?lookup_empty; discriminate. }
  destruct (reachable_injective i0 i Hne H0 Hr) as [Hinj _].
  assert (Hf : ipam.findAvailableIP i = Err ErrNoAvailableIP).
  { apply (full_mapping_exhausted i ones); rewrite ?Es, ?Eg; auto.
    rewrite Hsize. symmetry. now apply usable_count_fields. }
  unfold ipam.Allocate. now rewrite Hnone, Hf.
Qed.

(** C4. Once the mapping holds as many entries as the network has
    addresses to hand out (those after the network address and before
    the limit of the scan, the gateway left out), [Allocate] for one more
    identifier fails with the exhaustion error; in particular after that
    many successful calls for pairwise distinct identifiers, starting
    from the empty mapping. *)
Theorem subnet_exhaustion config fs0 i0 :
  ipam.New config fs0 = Ok i0 ->
  ipam.Allocations i0 = ∅ ->
  non_wrapping (ipam.Subnet i0) ->
  (forall i id fs,
     reachable i0 i ->
     Z.of_nat (size (ipam.Allocations i)) = usable_count i0 ->
     ipam.Allocations i !! id = None ->
     (ipam.Allocate id i fs).1.1 = Err ErrNoAvailableIP) /\
  (forall ids fs id fs',
     NoDup ids ->
     Z.of_nat (length ids) = usable_count i0 ->
     Forall (fun r => is_Ok r = true) (allocateAll ids i0 fs).1.1 ->
     id ∉ ids ->
     (ipam.Allocate id (allocateAll ids i0 fs).1.2 fs').1.1
       = Err ErrNoAvailableIP).
Proof.
  intros HN Hempty Hnw. split.
  - intros i id fs Hr Hsize Hnone.
    now apply (exhausted_when_full config fs0 i0).
  - intros ids fs id fs' Hnd Hlen Hok Hid.
    destruct (allocateAll_spec i0 ids i0 fs (reach_init i0)) as (Hr & _).
    pose proof (allocateAll_dom ids i0 fs Hok) as Hd.
    rewrite Hempty, dom_empty_L, union_empty_l_L in Hd.
    apply (exhausted_when_full config fs0 i0); auto.
    + rewrite <- Hlen. f_equal.
      rewrite <- size_dom, Hd. now apply size_list_to_set.
    + apply not_elem_of_dom. rewrite Hd. set_solver.
Qed.

Lemma subnet_exhaustion_witness :
  (ipam.Allocate "c3" (allocateAll ["c1"; "c2"] Ex.i30 Ex.fs).1.2 Ex.fs).1.1
    = Err ErrNoAvailableIP.
Proof.
  apply (proj2 (subnet_exhaustion Ex.cfg30 Ex.fs Ex.i30
                  ltac:(vm_compute; reflexivity)
                  ltac:(reflexivity)
                  ltac:(vm_compute; discriminate))).
  - apply (bool_decide_unpack _). vm_compute. exact I.
  - vm_compute. reflexivity.
  - vm_compute. repeat constructor.
  - apply (bool_decide_unpack _). vm_compute. exact I.
Defined.

(** ** The textual form of an address, read back *)


Lemma string_app_cons c (a s : string) : (String c a ++ s)%string = String c (a ++ s)%string.
Proof. reflexivity. Qed.


Lemma string_app_assoc (a b c : string) : ((a ++ b) ++ c = a ++ (b ++ c))%string.
Proof.
  induction a as [|x a IH]; [reflexivity|].
  rewrite !string_app_cons. now rewrite IH.
Qed.












Lemma no_hex_head_emitTail gs tail :
  no_hex_head (emitTail gs (String ":" tail)) /\ no_hex_head (emitTail gs EmptyString).
Proof. destruct gs; split; reflexivity. Qed.

































(** ** Persistence *)








(** * Further properties of the allocator *)

(** X1. [inc] adds one to the address read as a number, most significant
    byte first, and wraps around at 256 to the power of the length; the
    length stays and the bytes stay bytes. *)
Theorem inc_adds_one ip :
  wf_bytes ip ->
  length (ipam.inc ip) = length ip /\
  wf_bytes (ipam.inc ip) /\
  num (ipam.inc ip) = (num ip + 1) mod pow256 (length ip).
Proof.
  intros H. split; [apply inc_length|]. split; [now apply inc_wf | now apply inc_num].
Qed.

Lemma inc_adds_one_witness :
  length (ipam.inc [10; 244; 255; 255]) = 4%nat /\
  wf_bytes (ipam.inc [10; 244; 255; 255]) /\
  num (ipam.inc [10; 244; 255; 255]) = (num [10; 244; 255; 255] + 1) mod pow256 4.
Proof.
  apply (inc_adds_one [10; 244; 255; 255]).
  repeat constructor; lia.
Defined.

(** X2. The scan of [findAvailableIP] ends: on every instance reached
    from one [New] built, for a network other than the IPv4 network of
    prefix length 0, [Allocate] returns, with an address, the exhaustion
    error or the write error. *)
Theorem Allocate_returns config fs0 i0 i id fs :
  ipam.New config fs0 = Ok i0 ->
  reachable i0 i ->
  non_wrapping (ipam.Subnet i0) ->
  is_Ok (ipam.Allocate id i fs).1.1 = true \/
  (ipam.Allocate id i fs).1.1 = Err ErrNoAvailableIP \/
  (ipam.Allocate id i fs).1.1 = Err ErrWriteAllocations.
Proof.
  intros HN Hr Hnw.
  destruct (reachable_wf _ _ _ _ HN Hr) as [ones Hwf].
  destruct (reachable_fields _ _ Hr) as (Es & _ & _).
  unfold ipam.Allocate.
  destruct (ipam.Allocations i !! id) as [v|]; [left; reflexivity|].
  destruct (findAvailableIP_spec i ones Hwf) as [(r & E & _) | [_ E]].
  - rewrite E. unfold ipam.saveAllocations, os_WriteFile.
    destruct (fs_write_fails fs); cbn; auto.
  - rewrite Es in E. rewrite (E Hnw). cbn. auto.
Qed.

Lemma Allocate_returns_witness :
  is_Ok (ipam.Allocate "c2" Ex.i1 Ex.fs1).1.1 = true \/
  (ipam.Allocate "c2" Ex.i1 Ex.fs1).1.1 = Err ErrNoAvailableIP \/
  (ipam.Allocate "c2" Ex.i1 Ex.fs1).1.1 = Err ErrWriteAllocations.
Proof.
  apply (Allocate_returns Ex.cfg Ex.fs Ex.i0 Ex.i1).
  - vm_compute. reflexivity.
  - unfold Ex.i1. apply reach_Allocate, reach_init.
  - vm_compute. discriminate.
Defined.

(** X3. A refused allocation changes nothing: after the exhaustion error
    the instance and the file system are as they were. *)
Theorem Allocate_refused_unchanged id i fs :
  (ipam.Allocate id i fs).1.1 = Err ErrNoAvailableIP ->
  (ipam.Allocate id i fs).1.2 = i /\ (ipam.Allocate id i fs).2 = fs.
Proof.
  unfold ipam.Allocate.
  destruct (ipam.Allocations i !! id) as [v|]; [discriminate|].
  destruct (ipam.findAvailableIP i) as [ip|e|]; cbn; auto.
  unfold ipam.saveAllocations, os_WriteFile.
  destruct (fs_write_fails fs); cbn; discriminate.
Qed.

Lemma Allocate_refused_unchanged_witness :
  (ipam.Allocate "c3" (allocateAll ["c1"; "c2"] Ex.i30 Ex.fs).1.2 Ex.fs).1.2
    = (allocateAll ["c1"; "c2"] Ex.i30 Ex.fs).1.2 /\
  (ipam.Allocate "c3" (allocateAll ["c1"; "c2"] Ex.i30 Ex.fs).1.2 Ex.fs).2 = Ex.fs.
Proof.
  apply Allocate_refused_unchanged. vm_compute. reflexivity.
Defined.

(** X4. What the two operations do to the mapping: a successful
    [Allocate] binds the identifier to the address it returns, [Release]
    leaves the identifier unbound whatever it returns, and neither
    changes what any other identifier is bound to. *)
Theorem mapping_updates id i fs :
  (forall ip, (ipam.Allocate id i fs).1.1 = Ok ip ->
     ipam.Allocations (ipam.Allocate id i fs).1.2 !! id = Some ip) /\
  ipam.Allocations (ipam.Release id i fs).1.2 !! id = None /\
  (forall id', id' <> id ->
     ipam.Allocations (ipam.Allocate id i fs).1.2 !! id'
       = ipam.Allocations i !! id' /\
     ipam.Allocations (ipam.Release id i fs).1.2 !! id'
       = ipam.Allocations i !! id').
Proof.
  split; [intros ip; apply Allocate_Ok_lookup|].
  split; [rewrite Release_Allocations; apply lookup_delete_eq|].
  intros id' Hne. split.
  - destruct (Allocate_Allocations id i fs) as [E | (ip & _ & _ & E)]; rewrite E;
      [reflexivity|]. apply lookup_insert_ne. congruence.
  - rewrite Release_Allocations. apply lookup_delete_ne. congruence.
Qed.

(** X5. Allocating for a new identifier and releasing it again gives the
    mapping back, whether or not the record could be written. *)
Theorem Allocate_Release_restores id i fs fs' :
  ipam.Allocations i !! id = None ->
  ipam.Allocations (ipam.Release id (ipam.Allocate id i fs).1.2 fs').1.2
    = ipam.Allocations i.
Proof.
  intros Hn. rewrite Release_Allocations.
  destruct (Allocate_Allocations id i fs) as [E | (ip & _ & _ & E)]; rewrite E.
  - now apply delete_id.
  - rewrite delete_insert_eq. now apply delete_id.
Qed.

Lemma Allocate_Release_restores_witness :
  ipam.Allocations (ipam.Release "c2" (ipam.Allocate "c2" Ex.i1 Ex.fs1).1.2
                      Ex.fs_readonly).1.2
    = ipam.Allocations Ex.i1.
Proof. apply Allocate_Release_restores. vm_compute. reflexivity. Defined.

(** X6. A second [Release] of the same identifier is a no-op: it returns
    no error and leaves the instance and the file system as the first
    left them, also when the first could not write the record. *)
Theorem Release_twice id i fs fs' :
  ipam.Release id (ipam.Release id i fs).1.2 fs'
    = (Ok tt, (ipam.Release id i fs).1.2, fs').
Proof.
  apply Release_absent. rewrite Release_Allocations. apply lookup_delete_eq.
Qed.








(** X10. [New] on a record whose every address parses: the instance has
    the network and the gateway of the configuration and one entry for
    each entry of the record, the parsed address, of sixteen bytes. *)
Theorem New_loads_record config fs x sn gw m :
  net.ParseCIDR (ipam.cfg_Subnet config) = Some (x, sn) ->
  net.ParseIP (ipam.cfg_Gateway config) = Some gw ->
  fs_mkdir_fails fs = false ->
  os_ReadFile fs
    (filepath_Join (if net.str_empty (ipam.cfg_DataDir config)
                    then "/var/lib/cni/xvm-cni"%string
                    else ipam.cfg_DataDir config) "allocations.json")
    = ReadData (JSONObject m) ->
  (forall id s, m !! id = Some s -> is_Some (net.ParseIP s)) ->
  exists i,
    ipam.New config fs = Ok i /\
    ipam.Subnet i = sn /\ ipam.Gateway i = gw /\
    dom (ipam.Allocations i) = dom m /\
    forall id s, m !! id = Some s ->
      exists ip, net.ParseIP s = Some ip /\
                 ipam.Allocations i !! id = Some ip /\ length ip = 16%nat.
Proof.
  intros Esn Egw Hmk Hrd Hall.
  unfold ipam.New. rewrite Esn, Egw. unfold os_MkdirAll. rewrite Hmk. cbn [negb].
  rewrite loadAllocations_unfold. unfold ipam.allocationsFile. cbn [ipam.dataDir].
  rewrite Hrd.
  match goal with
  | |- context [map_fold load_step (Ok ?init) ?m] =>
      pose proof (load_fold init m) as F;
      destruct (map_fold load_step (Ok init) m) as [i'|e|]
  end.
  - destruct F as (Hs & Hg & _ & Hl & _). exists i'.
    split; [reflexivity|]. split; [exact Hs|]. split; [exact Hg|]. split.
    + apply set_eq. intros id. rewrite !elem_of_dom, Hl.
      destruct (m !! id) as [s|] eqn:Em.
      * split; [eauto | intros _; now apply (Hall id)].
      * cbn. rewrite lookup_empty. split; intros [? ?]; discriminate.
    + intros id s Hm. destruct (Hall _ _ Hm) as [ip Hip]. exists ip.
      split; [exact Hip|]. split; [now rewrite Hl, Hm|].
      now apply (ParseIP_valid s).
  - exfalso. destruct F as (_ & id & s & Hm & Hp).
    destruct (Hall _ _ Hm) as [ip Hip]. congruence.
  - destruct F.
Qed.

Lemma New_loads_record_witness :
  exists i,
    ipam.New Ex.cfg Ex.fs1 = Ok i /\
    ipam.Subnet i = ipam.Subnet Ex.i0 /\ ipam.Gateway i = ipam.Gateway Ex.i0 /\
    dom (ipam.Allocations i) = dom ({[ "c1" := "10.244.0.2" ]} : gmap string string) /\
    forall id s, ({[ "c1" := "10.244.0.2" ]} : gmap string string) !! id = Some s ->
      exists ip, net.ParseIP s = Some ip /\
                 ipam.Allocations i !! id = Some ip /\ length ip = 16%nat.
Proof.
  apply (New_loads_record Ex.cfg Ex.fs1
           [0; 0; 0; 0; 0; 0; 0; 0; 0; 0; 255; 255; 10; 244; 0; 0]).
  - vm_compute. reflexivity.
  - vm_compute. reflexivity.
  - reflexivity.
  - vm_compute. reflexivity.
  - intros id s H. apply lookup_singleton_Some in H. destruct H as [_ <-].
    vm_compute. eauto.
Defined.

Lemma empty_injective i :
  ipam.Allocations i = ∅ -> injective i /\ gateway_free i.
Proof.
  intros E. split.
  - intros id1 id2 ip1 ip2 _ H. rewrite E, lookup_empty in H. discriminate.
  - intros id ip H. rewrite E, lookup_empty in H. discriminate.
Qed.

(** X11. A released address is handed out again, lowest first: after
    [Release] of an identifier that held [v], [Allocate] for a new
    identifier records an address that is not after [v]. *)
Theorem released_address_reused config fs0 i0 i id v id' fs fs' :
  ipam.New config fs0 = Ok i0 ->
  ipam.Allocations i0 = ∅ ->
  non_wrapping (ipam.Subnet i0) ->
  reachable i0 i ->
  ipam.Allocations i !! id = Some v ->
  id' <> id ->
  ipam.Allocations i !! id' = None ->
  exists ip,
    (ipam.Allocate id' (ipam.Release id i fs).1.2 fs').1.1
      = (if fs_write_fails fs' then Err ErrWriteAllocations else Ok ip) /\
    ipam.Allocations (ipam.Allocate id' (ipam.Release id i fs).1.2 fs').1.2 !! id'
      = Some ip /\
    num ip <= num v.
Proof.
  intros HN Hempty Hnw Hr Hv Hne Hn'.
  destruct (New_wf _ _ _ HN) as ([ones Hwf0] & _ & _).
  pose proof (reachable_plain i0 i ones Hwf0 Hnw (plain_values_empty _ Hempty) Hr)
    as Hp.
  assert (Hne0 : net.IPNet_IP (ipam.Subnet i0) <> []).
  { destruct Hwf0 as (Hl & _). intros E. rewrite E in Hl. cbn in Hl. lia. }
  destruct (reachable_injective i0 i Hne0 (empty_injective _ Hempty) Hr) as [Hinj _].
  destruct (Hp _ _ Hv) as (Hw & Hlen & Hrange & Hgw).
  pose proof (reach_Release i0 i id fs Hr) as Hr1.
  destruct (reachable_wf _ _ _ _ HN Hr1) as [ones1 Hwf1].
  destruct (Release_fields id i fs) as (Es & Eg & _).
  set (i1 := (ipam.Release id i fs).1.2) in *.
  assert (Ha : ipam.allocated i1 v = false).
  { destruct (ipam.allocated i1 v) eqn:Ea; [|reflexivity]. exfalso.
    apply allocated_true in Ea. destruct Ea as (id2 & v2 & H2 & HE).
    unfold i1 in H2. rewrite Release_Allocations in H2.
    apply lookup_delete_Some in H2. destruct H2 as [Hne2 H2].
    rewrite (Hinj id id2 v v2 Hne2 Hv H2) in HE. discriminate. }
  assert (El : addrLen i1 = addrLen i) by (unfold addrLen; now rewrite Es).
  destruct (findAvailableIP_first_free i1 ones1 v Hwf1 Hw) as
    (ip & Hf & _ & _ & Hnum & _); rewrite ?El, ?Es, ?Eg; auto.
  assert (Hn1 : ipam.Allocations i1 !! id' = None).
  { unfold i1. rewrite Release_Allocations. now rewrite lookup_delete_ne by congruence. }
  destruct (Allocate_fresh id' i1 fs' ip Hn1 Hf) as [E1 E2].
  exists ip. split; [exact E1|]. split; [rewrite E2; apply lookup_insert_eq | lia].
Qed.

Lemma released_address_reused_witness :
  exists ip,
    (ipam.Allocate "c3" (ipam.Release "c1" Ex.i1 Ex.fs1).1.2 Ex.fs).1.1
      = (if fs_write_fails Ex.fs then Err ErrWriteAllocations else Ok ip) /\
    ipam.Allocations (ipam.Allocate "c3" (ipam.Release "c1" Ex.i1 Ex.fs1).1.2 Ex.fs).1.2
      !! "c3" = Some ip /\
    num ip <= num [10; 244; 0; 2].
Proof.
  apply (released_address_reused Ex.cfg Ex.fs Ex.i0 Ex.i1 "c1" [10; 244; 0; 2] "c3").
  - vm_compute. reflexivity.
  - reflexivity.
  - vm_compute. discriminate.
  - unfold Ex.i1. apply reach_Allocate, reach_init.
  - vm_compute. reflexivity.
  - discriminate.
  - vm_compute. reflexivity.
Defined.

(** * The tunnel device *)

(** X12. [CleanupVxlan] tolerates a missing device and hides a failed
    lookup: it returns no error and leaves the links alone whenever
    [LinkByName] does not find the device or fails, also when the device
    is there; when the lookup finds the device the result is [LinkDel]'s,
    and the device is gone exactly when that succeeds. Files and the
    current namespace are never touched. *)
Theorem CleanupVxlan_tolerant vxlanID w :
  let dev := (w_ns w, vxlan.vxlanName vxlanID) in
  let r := (vxlan.CleanupVxlan vxlanID w).1 in
  let w' := (vxlan.CleanupVxlan vxlanID w).2 in
  (w_fs w' = w_fs w /\ w_ns w' = w_ns w) /\
  (dev ∉ w_links w \/ w_fails w (OpLinkByName dev.1 dev.2) = true ->
   r = Ok tt /\ w_links w' = w_links w) /\
  (dev ∈ w_links w -> w_fails w (OpLinkByName dev.1 dev.2) = false ->
   if w_fails w (OpLinkDel dev.1 dev.2)
   then r = Err (ErrExternal "LinkDel") /\ w_links w' = w_links w
   else r = Ok tt /\ w_links w' = w_links w ∖ {[ dev ]}).
Proof.
  unfold vxlan.CleanupVxlan, logged, LinkByName, LinkDel, call, log, set_links.
  cbn [w_fs w_links w_ns w_fails w_trace fst snd].
  destruct (w_fails w (OpLinkByName (w_ns w) (vxlan.vxlanName vxlanID))) eqn:Ef;
    cbn [w_fs w_links w_ns w_fails w_trace fst snd].
  - split; [auto|]. split; [auto|]. discriminate.
  - case_bool_decide as Hin; cbn [w_fs w_links w_ns w_fails w_trace fst snd].
    + destruct (w_fails w (OpLinkDel (w_ns w) (vxlan.vxlanName vxlanID))) eqn:Ed;
        cbn [w_fs w_links w_ns w_fails w_trace fst snd id].
      * split; [auto|]. split; [intros [?|?]; [tauto | discriminate]|]. auto.
      * split; [auto|]. split; [intros [?|?]; [tauto | discriminate]|]. auto.
    + split; [auto|]. split; [auto|]. tauto.
Qed.

Lemma CleanupVxlan_tolerant_witness :
  (vxlan.CleanupVxlan 10 Ex.host_link_gone).1 = Ok tt /\
  w_links (vxlan.CleanupVxlan 10 Ex.host_link_gone).2
    = w_links Ex.host_link_gone ∖ {[ (EmptyString, "vxlan10"%string) ]}.
Proof.
  apply (proj2 (proj2 (CleanupVxlan_tolerant 10 Ex.host_link_gone))).
  - apply (bool_decide_unpack _). vm_compute. exact I.
  - reflexivity.
Defined.

Ltac host_cases w :=
  repeat (cbn [w_fs w_links w_ns w_fails w_trace w_hostVeth fst snd id];
          match goal with
          | |- context [w_fails w ?op] =>
              let E := fresh "Ef" in destruct (w_fails w op) eqn:E
          | |- context [bool_decide ?P] =>
              let H := fresh "Hin" in
              destruct (bool_decide_reflect P) as [H|H]
          end);
  cbn [w_fs w_links w_ns w_fails w_trace w_hostVeth fst snd id].

Ltac unfold_elem :=
  repeat first [ rewrite elem_of_union | rewrite elem_of_difference
               | rewrite elem_of_singleton ].

Ltac unfold_host :=
  unfold logged, bind, ret, fail, LinkByName, LinkDel, LinkSetUp, AddrList,
    AddrAdd, call, log, set_links.

(** X13. [SetupVxlan] touches no link but the tunnel device: whatever it
    returns, every other link is there afterwards exactly when it was
    there before, and files, the current namespace and the host's
    disposition are as they were. *)
Theorem SetupVxlan_frame c w :
  let dev := (w_ns w, vxlan.vxlanName (vc_VxlanID c)) in
  let w' := (vxlan.SetupVxlan c w).2 in
  w_fs w' = w_fs w /\ w_ns w' = w_ns w /\ w_fails w' = w_fails w /\
  forall l, l <> dev -> (l ∈ w_links w' <-> l ∈ w_links w).
Proof.
  unfold vxlan.SetupVxlan. unfold_host. host_cases w;
    (split; [reflexivity|]; split; [reflexivity|]; split; [reflexivity|]);
    intros l Hl;
    unfold_elem; tauto.
Qed.

(** X14. When [SetupVxlan] succeeds, the host interface exists, the
    device returned is [vxlan<VxlanID>] and it is among the links, which
    are otherwise as before; when the host interface does not exist,
    [SetupVxlan] fails and leaves the links as they were. *)
Theorem SetupVxlan_result c w :
  let dev := (w_ns w, vxlan.vxlanName (vc_VxlanID c)) in
  (forall name w',
     vxlan.SetupVxlan c w = (Ok name, w') ->
     name = vxlan.vxlanName (vc_VxlanID c) /\
     (w_ns w, vc_HostInterface c) ∈ w_links w /\
     w_links w' = w_links w ∪ {[ dev ]}) /\
  ((w_ns w, vc_HostInterface c) ∉ w_links w ->
   is_Err (vxlan.SetupVxlan c w).1 = true /\
   w_links (vxlan.SetupVxlan c w).2 = w_links w).
Proof.
  unfold vxlan.SetupVxlan. unfold_host. split.
  - intros name w'. host_cases w; intros [= <- <-];
      cbn [w_fs w_links w_ns w_fails w_trace w_hostVeth fst snd id];
      (split; [reflexivity|]; split; [assumption|]);
      apply set_eq; intros l;
      unfold_elem;
      destruct (decide (l = (w_ns w, vxlan.vxlanName (vc_VxlanID c)))); tauto.
  - intros Hno. host_cases w; try tauto; auto.
Qed.

Lemma SetupVxlan_result_witness :
  vxlan.SetupVxlan (mkVxlanConfig "ens3" 10 1500) Ex.host
    = (Ok "vxlan10"%string, (vxlan.SetupVxlan (mkVxlanConfig "ens3" 10 1500) Ex.host).2) /\
  w_links (vxlan.SetupVxlan (mkVxlanConfig "ens3" 10 1500) Ex.host).2
    = w_links Ex.host ∪ {[ (EmptyString, "vxlan10"%string) ]}.
Proof.
  assert (E : vxlan.SetupVxlan (mkVxlanConfig "ens3" 10 1500) Ex.host
    = (Ok "vxlan10"%string,
       (vxlan.SetupVxlan (mkVxlanConfig "ens3" 10 1500) Ex.host).2))
    by (vm_compute; reflexivity).
  split; [exact E|].
  apply (proj1 (SetupVxlan_result (mkVxlanConfig "ens3" 10 1500) Ex.host) _ _ E).
Defined.

(** X15. Setting the tunnel device up and cleaning it up again: after a
    successful [SetupVxlan], [CleanupVxlan] for the same identifier, on a
    host that lets the lookup and the deletion through, returns no error
    and leaves the links that were there before the device was set up,
    without the device. *)
Theorem SetupVxlan_then_CleanupVxlan c w name w1 :
  vxlan.SetupVxlan c w = (Ok name, w1) ->
  w_fails w (OpLinkByName (w_ns w) (vxlan.vxlanName (vc_VxlanID c))) = false ->
  w_fails w (OpLinkDel (w_ns w) (vxlan.vxlanName (vc_VxlanID c))) = false ->
  (vxlan.CleanupVxlan (vc_VxlanID c) w1).1 = Ok tt /\
  w_links (vxlan.CleanupVxlan (vc_VxlanID c) w1).2
    = w_links w ∖ {[ (w_ns w, vxlan.vxlanName (vc_VxlanID c)) ]}.
Proof.
  unfold vxlan.SetupVxlan, vxlan.CleanupVxlan. unfold_host.
  host_cases w; intros [= <- <-] H1 H2; try congruence;
    host_cases w; try congruence;
    first
      [ split; [reflexivity|];
        apply set_eq; intros l;
        unfold_elem;
        destruct (decide (l = (w_ns w, vxlan.vxlanName (vc_VxlanID c)))); tauto
      | exfalso;
        match goal with
        | H : _ ∉ _ |- _ =>
            apply H; cbn [w_links w_ns];
            unfold_elem; tauto
        end ].
Qed.

Lemma SetupVxlan_then_CleanupVxlan_witness :
  (vxlan.CleanupVxlan 10
     (vxlan.SetupVxlan (mkVxlanConfig "ens3" 10 1500) Ex.host).2).1 = Ok tt /\
  w_links (vxlan.CleanupVxlan 10
     (vxlan.SetupVxlan (mkVxlanConfig "ens3" 10 1500) Ex.host).2).2
    = w_links Ex.host ∖ {[ (EmptyString, "vxlan10"%string) ]}.
Proof.
  apply (SetupVxlan_then_CleanupVxlan (mkVxlanConfig "ens3" 10 1500) Ex.host
           "vxlan10").
  - vm_compute. reflexivity.
  - reflexivity.
  - reflexivity.
Defined.

(** X16. Tunnel identifiers that differ name devices that differ. *)
Theorem vxlanName_inj id1 id2 :
  vxlan.vxlanName id1 = vxlan.vxlanName id2 -> id1 = id2.
Proof.
  unfold vxlan.vxlanName. intros H.
  apply (inj pretty). now apply (inj (String.append "vxlan")) in H.
Qed.

Lemma vxlanName_inj_witness : (10 : Z) = 10.
Proof. apply vxlanName_inj. reflexivity. Defined.



(** * DEL *)


(** X17. [cmdDel] gives up before it changes anything when the
    configuration does not decode or [ipam.New] fails, which it does
    when the subnet of the configuration does not parse: the error is
    returned and files, links and namespace are as they were. *)
Theorem cmdDel_fails_early args w :
  (main.StdinData args = None ->
   main.cmdDel args w = (Err ErrParseNetConf, w)) /\
  (forall conf e,
     main.StdinData args = Some conf ->
     ipam.New (main.ipamConfig conf) (w_fs w) = Err e ->
     (main.cmdDel args w).1 = Err e /\
     w_fs (main.cmdDel args w).2 = w_fs w /\
     w_links (main.cmdDel args w).2 = w_links w /\
     w_ns (main.cmdDel args w).2 = w_ns w) /\
  (forall conf,
     main.StdinData args = Some conf ->
     net.ParseCIDR (main.Subnet conf) = None ->
     (main.cmdDel args w).1 = Err ErrInvalidSubnet).
Proof.
  unfold main.cmdDel, main.unmarshal. split; [|split].
  - intros ->. reflexivity.
  - intros conf e -> HN. unfold bind, ret, main.ipam_New. rewrite HN. cbn. auto.
  - intros conf -> HP. unfold bind, ret, main.ipam_New, ipam.New.
    cbn [main.ipamConfig ipam.cfg_Subnet]. rewrite HP. reflexivity.
Qed.

(** X18. With an empty [Netns] [cmdDel] removes no link: the links are
    as they were, and what it returns and leaves in the file system is
    what [Release] does. *)
Theorem cmdDel_without_netns args conf i w :
  main.Netns args = EmptyString ->
  main.StdinData args = Some conf ->
  ipam.New (main.ipamConfig conf) (w_fs w) = Ok i ->
  (main.cmdDel args w).1 = (ipam.Release (main.ContainerID args) i (w_fs w)).1.1 /\
  w_fs (main.cmdDel args w).2 = (ipam.Release (main.ContainerID args) i (w_fs w)).2 /\
  w_links (main.cmdDel args w).2 = w_links w.
Proof.
  intros Hns Hc HN. unfold main.cmdDel, main.unmarshal. rewrite Hc, Hns.
  unfold bind, ret, main.ipam_New, main.ipam_Release. rewrite HN.
  cbn [w_fs log].
  destruct (ipam.Release (main.ContainerID args) i (w_fs w)) as [[r i1] fs1].
  destruct r as [[]|e|]; cbn; auto.
Qed.


(** * ADD *)
























(** X21. [cmdAdd] never calls [Release], [CleanupVxlan] or
    [DelLinkByNameAddr]: on no path does it give back the address, take
    the tunnel device down or remove the workload's link. *)
Theorem cmdAdd_never_rolls_back args :
  keeps (Forall (fun op => ~ rolls_back op)) (main.cmdAdd args).
Proof.
  unfold main.cmdAdd, vxlan.SetupVxlan, vxlan.ConfigureVxlanNetwork.
  repeat keeps_step; try (intros; apply extends_Forall; simpl; tauto).
Qed.








Lemma In_kept {A} (op : Op) (m : M A) w :
  keeps (fun t => In op t) m -> In op (w_trace w) -> In op (w_trace (m w).2).
Proof. intros H. apply H. Qed.



(** * CHECK *)

Ltac check_cases k w :=
  repeat (cbn [w_fs w_links w_ns w_fails w_trace w_hostVeth fst snd id negb];
          match goal with
          | |- context [w_fails w ?op] =>
              let E := fresh "Ef" in destruct (w_fails w op) eqn:E
          | |- context [bool_decide ?P] =>
              let H := fresh "Hin" in
              destruct (bool_decide_reflect P) as [H|H]
          | |- context [li_up ?i] =>
              let E := fresh "Eup" in destruct (li_up i) eqn:E
          | |- context [(length ?l =? 0)%nat] =>
              let E := fresh "El" in destruct l eqn:E; cbn [length Nat.eqb]
          | |- context [li_routes ?i] =>
              let E := fresh "Er" in destruct (li_routes i) eqn:E
          | |- context [existsb ?f ?l] =>
              let E := fresh "Ex" in destruct (existsb f l) eqn:E
          end);
  cbn [w_fs w_links w_ns w_fails w_trace w_hostVeth fst snd id negb].

Ltac unfold_check :=
  unfold main.cmdCheck, main.unmarshal, WithNetNSPath, RouteList;
  unfold logged, bind, ret, fail, LinkByName, AddrList, call, log, set_ns.

(** X23. [cmdCheck] only looks: whatever it returns, files, links, the
    current namespace and the host's disposition are as they were. *)
Theorem cmdCheck_read_only k args w :
  let w' := (main.cmdCheck k args w).2 in
  w_fs w' = w_fs w /\ w_links w' = w_links w /\ w_ns w' = w_ns w /\
  w_hostVeth w' = w_hostVeth w /\ w_fails w' = w_fails w.
Proof.
  unfold_check. destruct (main.StdinData args) as [conf|]; [|cbn; auto].
  check_cases k w; auto.
Qed.



(** X25. [cmdCheck] looks for the device of the identifier as
    configured, without the default that [cmdAdd] fills in: for a
    configuration that leaves [vxlanID] out, [cmdAdd] sets up the device
    of identifier 10, and [cmdCheck] fails on every host that has no link
    [vxlan0] in the current namespace. *)
Theorem cmdCheck_ignores_default k args conf :
  main.StdinData args = Some conf ->
  main.VxlanID conf = 0 ->
  (forall w, (w_ns w, "vxlan0"%string) ∉ w_links w ->
     is_Err (main.cmdCheck k args w).1 = true) /\
  (forall w,
     main.HostInterface conf <> EmptyString ->
     main.Subnet conf <> EmptyString ->
     main.Gateway conf <> EmptyString ->
     w_fails w (OpSysctl "net.ipv4.ip_forward" "1") = false ->
     exists c, vc_VxlanID c = 10 /\
               In (CallSetupVxlan c) (w_trace (main.cmdAdd args w).2)).
Proof.
  intros Hc Hv. split.
  - intros w Hno. unfold_check. rewrite Hc, Hv.
    change (vxlan.vxlanName 0) with "vxlan0"%string.
    check_cases k w; try reflexivity; tauto.
  - intros w Hh Hs Hg Hf.
    pose proof (cmdAdd_calls_SetupVxlan args conf w Hc Hh Hs Hg Hf) as H.
    eexists. split; [|exact H]. cbn. unfold effective_VxlanID. now rewrite Hv.
Qed.

(** * The further properties at concrete inputs *)

Lemma cmdDel_without_netns_witness :
  (main.cmdDel Ex2.args_no_netns Ex.host).1
    = (ipam.Release "c1" Ex.i0 (w_fs Ex.host)).1.1 /\
  w_fs (main.cmdDel Ex2.args_no_netns Ex.host).2
    = (ipam.Release "c1" Ex.i0 (w_fs Ex.host)).2 /\
  w_links (main.cmdDel Ex2.args_no_netns Ex.host).2 = w_links Ex.host.
Proof.
  apply (cmdDel_without_netns Ex2.args_no_netns Ex.conf Ex.i0 Ex.host).
  - reflexivity.
  - reflexivity.
  - vm_compute. reflexivity.
Defined.




Lemma cmdAdd_never_rolls_back_witness :
  Forall (fun op => ~ rolls_back op)
    (w_trace (main.cmdAdd (Ex.args Ex.conf) Ex.host).2).
Proof.
  apply (cmdAdd_never_rolls_back (Ex.args Ex.conf) Ex.host). constructor.
Defined.


Lemma cmdCheck_ignores_default_witness :
  is_Err (main.cmdCheck Ex2.kernel (Ex.args Ex.conf) Ex2.host_configured).1 = true /\
  exists c, vc_VxlanID c = 10 /\
            In (CallSetupVxlan c) (w_trace (main.cmdAdd (Ex.args Ex.conf) Ex.host).2).
Proof.
  destruct (cmdCheck_ignores_default Ex2.kernel (Ex.args Ex.conf) Ex.conf
              eq_refl eq_refl) as [H1 H2].
  split.
  - apply H1. intros H. apply (bool_decide_pack _) in H. vm_compute in H. exact H.
  - apply H2; [discriminate | discriminate | discriminate | reflexivity].
Defined.





